(** * api-mock: the HTTP mock backend of ng-stack

    A shallow embedding of [HttpBackendService] (route matching, the
    per-collection cache and the CRUD handlers) and the properties of its
    behaviour.

    Conventions of the embedding.
    - JavaScript strings are [string]s, one character per code unit, for
      the code units below 256.
    - JavaScript numbers are the doubles that are integers, as [Z]: the
      identifiers of a mock collection.  What the code computes on them is
      rounded as the doubles round it ([roundToDouble]): exact up to
      [2 ^ 53], to the nearest double (ties to even) beyond.  Fractions,
      [NaN] and the infinities are no values of the model; [StringToNumber]
      returns [None] for a text that denotes none of the modelled numbers.
    - [handleReq] and [handle] are modelled once [init] has run: the
      routes are validated, [rootRoutes] is [getRootPaths routes] and
      [config] has its defaults.  [init] and its checks are modelled on
      their own, at the end, and [handleFrom] is [handle] with the call of
      [init] that the first request makes.
    - Values with a declared TypeScript type ([ObjectAny[]], [MockData],
      [ChainParam]) are modelled at that type.  The places where the code
      inspects a value at run time ([Array.isArray] on the result of a data
      callback, truthiness tests, [==]) are modelled on untyped [JsValue]s.
      The body of a request ([HttpRequest<any>]) is an object or absent,
      and the elements of the array a data callback returns are read as
      objects ([asObject]): a body that is a primitive and an element that
      is [null] or a primitive, on which the handlers throw, are outside
      the model.
    - An object is the list of its fields in the order they were set.
      JavaScript enumerates the names that are array indices ahead of the
      others; the two orders are the same for objects without such names.
    - Console logging ([logRequest], [logErrorResponse], ...) has no effect
      on any result and is left out. *)

From Stdlib Require Import ZArith Lia List Bool Ascii String.
From Stdlib Require Import Sorting.Sorted.
From stdpp Require Import base option list strings gmap pretty.
Import ListNotations.

Open Scope string_scope.
Open Scope list_scope.
Open Scope stdpp_scope.

(** ** JavaScript strings *)

Module JsString.

(** [s.charAt(i)]: the one-character string at [i], or [""]. *)
Definition charAt (s : string) (i : nat) : string := substring i 1 s.

(** [s.substr(start, len)]. *)
Definition substr (s : string) (start len : nat) : string :=
  substring start len s.

(** [s.slice(start)] for a non-negative [start]. *)
Definition sliceFrom (s : string) (start : nat) : string :=
  substring start (String.length s) s.

(** A string is truthy when it is not empty. *)
Definition nonEmpty (s : string) : bool :=
  match s with EmptyString => false | String _ _ => true end.

(** [s.split(sep)] for a non-empty separator.  [skip] counts the
    characters of a separator occurrence that are still to be passed. *)
Fixpoint splitFrom (sep : string) (skip : nat) (s : string) : list string :=
  match s with
  | EmptyString => [EmptyString]
  | String c s' =>
      match skip with
      | S k => splitFrom sep k s'
      | O =>
          if String.prefix sep s
          then EmptyString :: splitFrom sep (String.length sep - 1) s'
          else match splitFrom sep 0 s' with
               | h :: t => String c h :: t
               | [] => [String c EmptyString]
               end
      end
  end.

Definition split (s sep : string) : list string := splitFrom sep 0 s.

(** [l.join(sep)] on an array of strings. *)
Fixpoint join (sep : string) (l : list string) : string :=
  match l with
  | [] => EmptyString
  | [x] => x
  | x :: t => x +:+ sep +:+ join sep t
  end.

(** [l.join(sep)] on an array with holes: [undefined] prints as [""]. *)
Definition joinU (sep : string) (l : list (option string)) : string :=
  join sep (map (default EmptyString) l).

(** [l.filter((s) => s)] on an array of possibly undefined strings. *)
Definition truthyStrings (l : list (option string)) : list string :=
  omap (fun o => match o with
                 | Some s => if nonEmpty s then Some s else None
                 | None => None
                 end) l.

End JsString.
Export JsString.

(** ** JavaScript values *)

#[local] Set Warnings "-register-all".

Inductive JsValue : Type :=
| JUndefined
| JNull
| JBool (b : bool)
| JNum (n : Z)
| JStr (s : string)
| JArr (elements : list JsValue)
| JObj (fields : list (string * JsValue)).

(** [{ [key: string]: any }]: the fields in insertion order. *)
Abbreviation ObjectAny := (list (string * JsValue)).

Module JsObject.

(** [o[k]]. *)
Fixpoint getProp (o : ObjectAny) (k : string) : JsValue :=
  match o with
  | [] => JUndefined
  | (k', v) :: rest => if String.eqb k' k then v else getProp rest k
  end.

Fixpoint hasProp (o : ObjectAny) (k : string) : bool :=
  match o with
  | [] => false
  | (k', _) :: rest => String.eqb k' k || hasProp rest k
  end.

(** [o[k] = v]: an existing field keeps its place, a new one goes last.
    The fields are in the order they were set, which is the order
    JavaScript enumerates them in when no name is an array index. *)
Fixpoint setProp (o : ObjectAny) (k : string) (v : JsValue) : ObjectAny :=
  match o with
  | [] => [(k, v)]
  | (k', v') :: rest =>
      if String.eqb k' k then (k', v) :: rest
      else (k', v') :: setProp rest k v
  end.

(** [delete o[k]]. *)
Definition deleteProp (o : ObjectAny) (k : string) : ObjectAny :=
  List.filter (fun kv => negb (String.eqb (fst kv) k)) o.

(** [Object.keys(o)]. *)
Definition keys (o : ObjectAny) : list string := map fst o.

(** [keys.includes(k)]. *)
Definition includes (ks : list string) (k : string) : bool :=
  existsb (String.eqb k) ks.

(** [Object.assign(target, source)]. *)
Definition assign (target source : ObjectAny) : ObjectAny :=
  fold_left (fun t kv => setProp t (fst kv) (snd kv)) source target.

End JsObject.
Export JsObject.

Module JsSemantics.

(** [ToBoolean]. *)
Definition truthy (v : JsValue) : bool :=
  match v with
  | JUndefined | JNull => false
  | JBool b => b
  | JNum n => negb (n =? 0)%Z
  | JStr s => nonEmpty s
  | JArr _ | JObj _ => true
  end.

(** [ToString]; an array prints its elements separated by commas, with
    [null] and [undefined] elements printed as nothing.  A number prints
    in decimal, as the integers below [10 ^ 21] do. *)
Fixpoint toString (v : JsValue) : string :=
  match v with
  | JUndefined => "undefined"
  | JNull => "null"
  | JBool true => "true"
  | JBool false => "false"
  | JNum n => pretty n
  | JStr s => s
  | JArr l =>
      join "," (map (fun e => match e with
                              | JUndefined | JNull => EmptyString
                              | _ => toString e
                              end) l)
  | JObj _ => "[object Object]"
  end.

(** *** Reading numbers *)

Definition isWhiteSpace (c : ascii) : bool :=
  let n := nat_of_ascii c in
  existsb (Nat.eqb n) [9; 10; 11; 12; 13; 32; 160]%nat.

Fixpoint trimStart (s : string) : string :=
  match s with
  | String c r => if isWhiteSpace c then trimStart r else s
  | EmptyString => EmptyString
  end.

Definition trim (s : string) : string :=
  String.rev (trimStart (String.rev (trimStart s))).

(** The value of a digit in the given radix. *)
Definition digitValue (radix : Z) (c : ascii) : option Z :=
  let n := Z.of_nat (nat_of_ascii c) in
  let d := if (48 <=? n)%Z && (n <=? 57)%Z then (n - 48)%Z
           else if (97 <=? n)%Z && (n <=? 102)%Z then (n - 87)%Z
           else if (65 <=? n)%Z && (n <=? 70)%Z then (n - 55)%Z
           else radix in
  if (d <? radix)%Z then Some d%Z else None.

(** Reads the longest run of digits: its value on top of [acc], the
    number of digits read, and the rest of the text. *)
Fixpoint readDigits (radix acc : Z) (count : nat) (s : string)
  : Z * nat * string :=
  match s with
  | String c r =>
      match digitValue radix c with
      | Some d => readDigits radix (acc * radix + d)%Z (S count) r
      | None => (acc, count, s)
      end
  | EmptyString => (acc, count, s)
  end.

(** An optional sign: [true] for [-]. *)
Definition readSign (s : string) : bool * string :=
  match s with
  | String "-" r => (true, r)
  | String "+" r => (false, r)
  | _ => (false, s)
  end.

Definition applySign (neg : bool) (n : Z) : Z := if neg then (- n)%Z else n.

(** [ExponentPart] opt: the exponent and the rest, [None] when an [e]
    is followed by no digits. *)
Definition readExponent (s : string) : option (Z * string) :=
  match s with
  | String c r =>
      if Ascii.eqb c "e" || Ascii.eqb c "E" then
        let '(neg, r1) := readSign r in
        let '(e, n, r2) := readDigits 10 0 0 r1 in
        match n with O => None | S _ => Some (applySign neg e, r2) end
      else Some (0%Z, s)
  | EmptyString => Some (0%Z, s)
  end.

(** *** Doubles *)

(** The integer nearest to [n / d], for [0 <= n] and [0 < d]: ties go to
    the even one. *)
Definition roundHalfEven (n d : Z) : Z :=
  let q := (n / d)%Z in
  let r := (n mod d)%Z in
  if (2 * r <? d)%Z then q
  else if (d <? 2 * r)%Z then (q + 1)%Z
  else if Z.even q then q else (q + 1)%Z.

(** The double nearest to [num / den], for [0 < den], when it is an
    integer; [None] when it is a fraction or an infinity.  A double is
    [m * 2 ^ e] with [m < 2 ^ 53] and [-1074 <= e]; from [2 ^ 1024] on the
    nearest double is an infinity. *)
Definition roundToDoubleQ (num den : Z) : option Z :=
  let a := Z.abs num in
  if (a =? 0)%Z then Some 0%Z
  else
    let l := (Z.log2 a - Z.log2 den)%Z in
    let magnitude :=
      if (0 <=? l)%Z
      then (if (den * 2 ^ l <=? a)%Z then l else l - 1)%Z
      else (if (den <=? a * 2 ^ (- l))%Z then l else l - 1)%Z in
    let e := Z.max (magnitude - 52) (-1074) in
    if (0 <=? e)%Z then
      let v := (roundHalfEven a (den * 2 ^ e) * 2 ^ e)%Z in
      if (2 ^ 1024 <=? v)%Z then None else Some (Z.sgn num * v)%Z
    else
      let m := roundHalfEven (a * 2 ^ (- e)) den in
      if (m mod 2 ^ (- e) =? 0)%Z
      then Some (Z.sgn num * (m / 2 ^ (- e)))%Z
      else None.

(** The double nearest to an integer the code has computed; beyond the
    largest double there is no number of the model. *)
Definition roundToDouble (z : Z) : Z :=
  default z (roundToDoubleQ z 1).

(** [Number.MAX_SAFE_INTEGER]. *)
Definition MAX_SAFE_INTEGER : Z := 9007199254740991.

(** *** [StringToNumber] *)

(** [mantissa * 10 ^ exponent], as a numerator and a denominator. *)
Definition scaled (mantissa exponent : Z) : Z * Z :=
  if (0 <=? exponent)%Z then ((mantissa * 10 ^ exponent)%Z, 1%Z)
  else (mantissa, (10 ^ (- exponent))%Z).

(** [StrUnsignedDecimalLiteral], its mathematical value as a numerator
    and a denominator; [Infinity] is no number of the model. *)
Definition readUnsignedDecimal (s : string) : option (Z * Z) :=
  let '(i, ni, r1) := readDigits 10 0 0 s in
  let '(m, nf, r2) :=
    match r1 with
    | String "." r => let '(m, nf, r2) := readDigits 10 i 0 r in (m, nf, r2)
    | _ => (i, O, r1)
    end in
  match (ni + nf)%nat with
  | O => None
  | S _ =>
      match readExponent r2 with
      | Some (e, EmptyString) => Some (scaled m (e - Z.of_nat nf))
      | _ => None
      end
  end.

(** [NonDecimalIntegerLiteral]: [0x], [0o] and [0b] prefixes. *)
Definition readNonDecimal (s : string) : option Z :=
  match s with
  | String "0" (String p r) =>
      let radix :=
        if Ascii.eqb p "x" || Ascii.eqb p "X" then Some 16%Z
        else if Ascii.eqb p "o" || Ascii.eqb p "O" then Some 8%Z
        else if Ascii.eqb p "b" || Ascii.eqb p "B" then Some 2%Z
        else None in
      match radix with
      | Some rx =>
          match readDigits rx 0 0 r with
          | (v, S _, EmptyString) => Some v
          | _ => None
          end
      | None => None
      end
  | _ => None
  end.

(** [ToNumber] on a string: the double nearest to the value the text
    denotes; [None] stands for [NaN], for the infinities and for every
    double that is not an integer. *)
Definition StringToNumber (s : string) : option Z :=
  let t := trim s in
  match t with
  | EmptyString => Some 0%Z
  | _ =>
      match readNonDecimal t with
      | Some v => roundToDoubleQ v 1
      | None =>
          let '(neg, r) := readSign t in
          match readUnsignedDecimal r with
          | Some (num, den) => roundToDoubleQ (applySign neg num) den
          | None => None
          end
      end
  end.

(** *** Loose equality [==] *)

Definition isObject (v : JsValue) : bool :=
  match v with JArr _ | JObj _ => true | _ => false end.

(** [ToPrimitive]: plain objects and arrays print through [toString]. *)
Definition toPrimitive (v : JsValue) : JsValue :=
  if isObject v then JStr (toString v) else v.

Definition numEqStr (n : Z) (s : string) : bool :=
  match StringToNumber s with
  | Some m => (n =? m)%Z
  | None => false
  end.

(** [x == y] on primitive values. *)
Definition looseEqPrim (x y : JsValue) : bool :=
  match x, y with
  | (JUndefined | JNull), (JUndefined | JNull) => true
  | JNum a, JNum b => (a =? b)%Z
  | JStr a, JStr b => String.eqb a b
  | JBool a, JBool b => Bool.eqb a b
  | JNum a, JStr s | JStr s, JNum a => numEqStr a s
  | JBool a, JNum b | JNum b, JBool a => (Z.b2z a =? b)%Z
  | JBool a, JStr s | JStr s, JBool a => numEqStr (Z.b2z a) s
  | _, _ => false
  end.

(** [x == y].  Two objects are equal only as the same reference; every
    comparison of the service has a URL segment or a freshly cloned
    request body on one side, so two objects are never the same one. *)
Definition looseEq (x y : JsValue) : bool :=
  if isObject x && isObject y then false
  else match x, y with
       | (JUndefined | JNull), _ | _, (JUndefined | JNull) => looseEqPrim x y
       | _, _ => looseEqPrim (toPrimitive x) (toPrimitive y)
       end.

(** [JSON.parse(JSON.stringify(v))]: fields holding [undefined] are
    dropped, [undefined] array elements become [null]. *)
Fixpoint clone (v : JsValue) : JsValue :=
  match v with
  | JArr l =>
      JArr (map (fun e => match e with
                          | JUndefined => JNull
                          | _ => clone e
                          end) l)
  | JObj fs =>
      JObj ((fix cloneFields (fs : list (string * JsValue)) :=
               match fs with
               | [] => []
               | (_, JUndefined) :: rest => cloneFields rest
               | (k, x) :: rest => (k, clone x) :: cloneFields rest
               end) fs)
  | _ => v
  end.

Definition cloneObject (o : ObjectAny) : ObjectAny :=
  match clone (JObj o) with
  | JObj fs => fs
  | _ => []
  end.

(** The string an optional URL segment prints as in a template. *)
Definition optToString (o : option string) : string :=
  default "undefined" o.

(** An optional string as a value. *)
Definition optToValue (o : option string) : JsValue :=
  from_option JStr JUndefined o.

End JsSemantics.
Export JsSemantics.


(** ** HTTP messages and configuration *)

Inductive HttpMethod : Type :=
| GET | HEAD | POST | PUT | DELETE | TRACE | OPTIONS | CONNECT | PATCH.

Definition methodName (m : HttpMethod) : string :=
  match m with
  | GET => "GET" | HEAD => "HEAD" | POST => "POST" | PUT => "PUT"
  | DELETE => "DELETE" | TRACE => "TRACE" | OPTIONS => "OPTIONS"
  | CONNECT => "CONNECT" | PATCH => "PATCH"
  end.

Definition isPut (m : HttpMethod) : bool :=
  match m with PUT => true | _ => false end.

Definition isPatch (m : HttpMethod) : bool :=
  match m with PATCH => true | _ => false end.

Definition isGet (m : HttpMethod) : bool :=
  match m with GET => true | _ => false end.

(** Modelled from the spec: the status codes of [./http-status-codes],
    a file of the library that is not among the sources; the spec names
    them 200 OK, 201 Created, 204 No Content, 400 Bad Request, 404 Not
    Found, 405 Method Not Allowed, 409 Conflict and 500 Internal Server
    Error. *)
Module Status.
Definition OK : Z := 200.
Definition CREATED : Z := 201.
Definition NO_CONTENT : Z := 204.
Definition BAD_REQUEST : Z := 400.
Definition NOT_FOUND : Z := 404.
Definition METHOD_NOT_ALLOWED : Z := 405.
Definition CONFLICT : Z := 409.
Definition INTERNAL_SERVER_ERROR : Z := 500.
End Status.

(** Modelled from the spec: [getStatusText] of [./http-status-codes],
    with the names the spec gives to the codes above. *)
Definition getStatusText (status : Z) : string :=
  if (status =? Status.OK)%Z then "OK"
  else if (status =? Status.CREATED)%Z then "Created"
  else if (status =? Status.NO_CONTENT)%Z then "No Content"
  else if (status =? Status.BAD_REQUEST)%Z then "Bad Request"
  else if (status =? Status.NOT_FOUND)%Z then "Not Found"
  else if (status =? Status.METHOD_NOT_ALLOWED)%Z then "Method Not Allowed"
  else if (status =? Status.CONFLICT)%Z then "Conflict"
  else if (status =? Status.INTERNAL_SERVER_ERROR)%Z then "Internal Server Error"
  else "Unknown Status".

(** [HttpHeaders] and [HttpParams]: every name with all its values. *)
Definition HttpHeaders : Type := list (string * list string).

(** [headers.set(name, value)]: a copy in which [name] has the one value. *)
Fixpoint headersSet (h : HttpHeaders) (name value : string) : HttpHeaders :=
  match h with
  | [] => [(name, [value])]
  | (n, vs) :: rest =>
      if String.eqb n name then (n, [value]) :: rest
      else (n, vs) :: headersSet rest name value
  end.

(** [new HttpHeaders({ 'Content-Type': 'application/json' })]. *)
Definition jsonHeaders : HttpHeaders := [("Content-Type", ["application/json"])].

(** The request; its body is a JSON object, or absent. *)
Record HttpRequest : Type := {
  method : HttpMethod;
  url : string;
  urlWithParams : string;
  body : option ObjectAny;
  headers : HttpHeaders;
  params : list (string * list string)
}.

Record ResponseOptions : Type := {
  ro_headers : option HttpHeaders;
  ro_status : option Z;
  ro_body : option JsValue
}.

Record HttpErrorResponse : Type := {
  err_url : string;
  err_status : Z;
  err_statusText : string;
  err_headers : HttpHeaders;
  err_error : string
}.

(** [new HttpResponse(responseOptions)]. *)
Inductive HttpResponse : Type :=
| mkHttpResponse (options : ResponseOptions).

(** [ApiMockConfig] after the defaults are merged in. *)
Record ApiMockConfig : Type := {
  passThruUnknownUrl : bool;
  clearPrevLog : bool;
  showLog : bool;
  cacheFromLocalStorage : bool;
  localStorageKey : string;
  delay : Z;
  postUpdate204 : bool;
  postUpdate409 : bool;
  putUpdate204 : bool;
  putUpdate404 : bool;
  patchUpdate204 : bool;
  deleteNotFound404 : bool
}.

Definition defaultConfig : ApiMockConfig := {|
  passThruUnknownUrl := false;
  clearPrevLog := false;
  showLog := true;
  cacheFromLocalStorage := false;
  localStorageKey := "apiMockCachedData";
  delay := 500;
  postUpdate204 := true;
  postUpdate409 := false;
  putUpdate204 := true;
  putUpdate404 := true;
  patchUpdate204 := true;
  deleteNotFound404 := true
|}.

(** ** Routes *)

Record ApiMockDataCallbackOptions : Type := {
  items : list ObjectAny;
  itemId : option string;
  httpMethod : HttpMethod;
  parents : option (list ObjectAny);
  queryParams : option ObjectAny;
  reqBody : option ObjectAny;
  reqHeaders : option ObjectAny
}.

Record ApiMockResponseCallbackOptions : Type := {
  rc_items : list JsValue;
  rc_itemId : option string;
  rc_httpMethod : HttpMethod;
  rc_parents : option (list ObjectAny);
  rc_queryParams : option ObjectAny;
  rc_reqBody : option ObjectAny;
  rc_reqHeaders : option ObjectAny;
  resBody : option JsValue
}.

(** What a response callback hands back: a body, or a response or an
    error response of its own. *)
Inductive ResponseCallbackResult : Type :=
| RcBody (v : JsValue)
| RcErrorResponse (e : HttpErrorResponse)
| RcResponse (r : HttpResponse).

(** [ApiMockRoute], and [ApiMockRootRoute] with its [host].  The data
    callback may hand back any value: the service checks it. *)
Inductive ApiMockRoute : Type := mkRoute {
  path : string;
  dataCallback : option (ApiMockDataCallbackOptions -> JsValue);
  propertiesForList : option ObjectAny;
  responseCallback :
    option (ApiMockResponseCallbackOptions -> ResponseCallbackResult);
  ignoreDataFromLocalStorage : bool;
  children : option (list ApiMockRoute);
  host : option string
}.

(** An element of [PartialRoutes]. *)
Record PartialRoute : Type := {
  pr_path : string;
  pr_length : nat;
  pr_index : nat
}.

Record RouteDryMatch : Type := {
  splitedUrl : list string;
  splitedRoute : list string;
  routes : list ApiMockRoute;
  hasLastRestId : bool;
  lastPrimaryKey : string
}.

Record ChainParam : Type := {
  cacheKey : string;
  route : option ApiMockRoute;
  primaryKey : string;
  restId : option string
}.

(** ** Route matching *)

(** [rootRoutes.sort((a, b) => b.length - a.length)]: a stable sort, the
    longest paths first. *)
Fixpoint insertByLength (x : PartialRoute) (l : list PartialRoute)
  : list PartialRoute :=
  match l with
  | [] => [x]
  | y :: rest =>
      if (pr_length y <=? pr_length x)%nat then x :: l
      else y :: insertByLength x rest
  end.

Definition sortByLengthDesc (l : list PartialRoute) : list PartialRoute :=
  foldr insertByLength [] l.

(** The head of [route.path.split('/:')]. *)
Definition rootPart (p : string) : string :=
  match split p "/:" with
  | part :: _ => part
  | [] => EmptyString
  end.

Definition toPartialRoute (index : nat) (route : ApiMockRoute) : PartialRoute :=
  let part := rootPart (path route) in
  let path := join "/" (truthyStrings [host route; Some part]) in
  {| pr_path := path; pr_length := String.length path; pr_index := index |}.

Definition getRootPaths (routes : list ApiMockRoute) : list PartialRoute :=
  sortByLengthDesc (imap toPartialRoute routes).

(** The test of [findRouteIndex] on one entry. *)
Definition rootMatches (rootRoute : PartialRoute) (url : string) : bool :=
  let partUrl := substr url 0 (pr_length rootRoute + 1) in
  String.eqb partUrl (pr_path rootRoute)
  || String.eqb partUrl (pr_path rootRoute +:+ "/").

Fixpoint findRouteIndex (rootRoutes : list PartialRoute) (url : string) : Z :=
  match rootRoutes with
  | [] => (-1)%Z
  | rootRoute :: rest =>
      if rootMatches rootRoute url then Z.of_nat (pr_index rootRoute)
      else findRouteIndex rest url
  end.

(** A route segment that names a primary key: [part.charAt(0) == ':']. *)
Definition isPrimaryKeyPart (part : string) : bool :=
  String.eqb (charAt part 0) ":".

(** [setRouteDryMatch] of [getRouteDryMatch]; the matches it pushes, in
    the order it pushes them. *)
Fixpoint setRouteDryMatch (splitedUrl : list string) (route : ApiMockRoute)
    (pathOfRoute : string) (routes : list ApiMockRoute) : list RouteDryMatch :=
  let routes := routes ++ [route] in
  let pathOfRoute := join "/" (truthyStrings [Some pathOfRoute; Some (path route)]) in
  let splitedRoute := split pathOfRoute "/" in
  let countPartOfUrl := Z.of_nat (length splitedUrl) in
  let countPartOfRoute := Z.of_nat (length splitedRoute) in
  if (countPartOfUrl >? countPartOfRoute)%Z then
    match children route with
    | Some cs =>
        flat_map (fun child => setRouteDryMatch splitedUrl child pathOfRoute routes) cs
    | None => []
    end
  else if (countPartOfUrl <? countPartOfRoute - 1)%Z then []
  else if (countPartOfUrl =? countPartOfRoute - 1)%Z then
    let lastElement := default EmptyString (last splitedRoute) in
    if isPrimaryKeyPart lastElement then
      [ {| splitedUrl := splitedUrl;
           splitedRoute := removelast splitedRoute;
           routes := routes;
           hasLastRestId := false;
           lastPrimaryKey := sliceFrom lastElement 1 |} ]
    else []
  else
    let lastElement := default EmptyString (last splitedRoute) in
    let isPk := isPrimaryKeyPart lastElement in
    [ {| splitedUrl := splitedUrl;
         splitedRoute := splitedRoute;
         routes := routes;
         hasLastRestId := isPk;
         lastPrimaryKey := if isPk then sliceFrom lastElement 1 else EmptyString |} ].

Definition getRouteDryMatch (normalizedUrl : string) (rootRoute : ApiMockRoute)
  : list RouteDryMatch :=
  let splitedUrl := split normalizedUrl "/" in
  let host := default EmptyString (host rootRoute) in
  setRouteDryMatch splitedUrl rootRoute host [].

(** The state of the loop of [getChainParams]: [chainParams],
    [partsOfUrl] and [partsOfRoute]. *)
Record ChainAcc : Type := {
  chainParams : list ChainParam;
  partsOfUrl : list (option string);
  partsOfRoute : list string
}.

(** One turn of [splitedRoute.forEach((part, i) => ...)]. *)
Definition chainStep (splitedUrl : list string) (routes : list ApiMockRoute)
    (acc : ChainAcc) (ipart : nat * string) : ChainAcc :=
  let '(i, part) := ipart in
  if isPrimaryKeyPart part then
    let restId := match splitedUrl !! i with
                  | Some s => if nonEmpty s then Some s else None
                  | None => None
                  end in
    let primaryKey := sliceFrom part 1 in
    let cacheKey := join "/" (take i splitedUrl) in
    let route := routes !! length (chainParams acc) in
    {| chainParams := chainParams acc ++
         [ {| cacheKey := cacheKey; route := route;
              primaryKey := primaryKey; restId := restId |} ];
       partsOfUrl := partsOfUrl acc;
       partsOfRoute := partsOfRoute acc |}
  else
    {| chainParams := chainParams acc;
       partsOfUrl := partsOfUrl acc ++ [splitedUrl !! i];
       partsOfRoute := partsOfRoute acc ++ [part] |}.

(** [getChainParams]: [None] is the [undefined] it returns when the URL
    does not fit the route. *)
Definition getChainParams (m : RouteDryMatch) : option (list ChainParam) :=
  let acc := fold_left (chainStep (splitedUrl m) (routes m))
               (imap pair (splitedRoute m))
               {| chainParams := []; partsOfUrl := []; partsOfRoute := [] |} in
  let chainParams :=
    if hasLastRestId m then chainParams acc
    else chainParams acc ++
         [ {| cacheKey := join "/" (splitedUrl m);
              route := last (routes m);
              primaryKey := lastPrimaryKey m;
              restId := None |} ] in
  if String.eqb (join "/" (partsOfRoute acc)) (joinU "/" (partsOfUrl acc))
  then Some chainParams
  else None.

(** ** Exceptions *)

Inductive Exn : Type :=
| TypeError (message : string).

Definition exnMessage (e : Exn) : string :=
  match e with TypeError m => m end.

(** A computation that returns or throws. *)
Definition Result (A : Type) : Type := (Exn + A)%type.

Definition rbind {A B : Type} (r : Result A) (k : A -> Result B) : Result B :=
  match r with
  | inl e => inl e
  | inr a => k a
  end.

Notation "'let?' x ':=' c 'in' k" := (rbind c (fun x => k))
  (at level 10, x pattern, c at level 100, k at level 200).

(** ** The cached collections *)

(** The [writeableData] of a cache entry.  It is declared an array of
    objects; the entry written after a method other than GET holds the
    unchecked result of the data callback, which [WOther] keeps when it is
    no array. *)
Inductive WriteableData : Type :=
| WArray (items : list ObjectAny)
| WOther (v : JsValue).

Record MockData : Type := {
  writeableData : WriteableData;
  readonlyData : list ObjectAny
}.

(** [writeableData] as the [items] handed to the data callback after a
    method other than GET: a handler that responded to such a method has
    used it as an array. *)
Definition itemsOf (w : WriteableData) : list ObjectAny :=
  match w with
  | WArray l => l
  | WOther _ => []
  end.

(** A method of [Array.prototype] called on [writeableData]. *)
Definition asArray (method : string) (w : WriteableData)
  : Result (list ObjectAny) :=
  match w with
  | WArray l => inr l
  | WOther _ =>
      inl (TypeError ("writeableData." +:+ method +:+ " is not a function"))
  end.

(** An element of an array of the declared type [ObjectAny[]]: an object.
    An element that is none stands as the object without fields; the code
    reads [undefined] from a primitive and throws on [null]. *)
Definition asObject (v : JsValue) : ObjectAny :=
  match v with
  | JObj fs => fs
  | _ => []
  end.

(** The value a data callback returned, as [writeableData]. *)
Definition toWriteableData (v : JsValue) : WriteableData :=
  match v with
  | JArr l => WArray (map asObject l)
  | _ => WOther v
  end.

(** [l.findIndex(f)]; [None] stands for [-1]. *)
Fixpoint findIndex {A : Type} (f : A -> bool) (l : list A) : option nat :=
  match l with
  | [] => None
  | x :: rest => if f x then Some O else S <$> findIndex f rest
  end.

(** [l.splice(i, 1)]. *)
Definition splice1 {A : Type} (i : nat) (l : list A) : list A :=
  take i l ++ drop (S i) l.

(** ** The CRUD handlers *)

(** What a handler returns: [ResponseOptions | HttpErrorResponse]. *)
Inductive Reply : Type :=
| Respond (options : ResponseOptions)
| Refuse (error : HttpErrorResponse).

Definition quote : string := String "034"%char EmptyString.

Definition makeError (req : HttpRequest) (status : Z) (errMsg : string)
  : HttpErrorResponse :=
  {| err_url := urlWithParams req;
     err_status := status;
     err_statusText := getStatusText status;
     err_headers := jsonHeaders;
     err_error := errMsg |}.

Definition respond (headers : HttpHeaders) (status : Z) (body : option JsValue)
  : Reply :=
  Respond {| ro_headers := Some headers; ro_status := Some status; ro_body := body |}.

(** [restId != undefined] and the like on an optional URL segment. *)
Definition isDefined {A : Type} (restId : option A) : bool :=
  match restId with Some _ => true | None => false end.

(** The truthiness of an optional URL segment. *)
Definition truthyId (restId : option string) : bool :=
  match restId with Some s => nonEmpty s | None => false end.

(** The test of the lookups of [get] and [getParents]:
    [obj[primaryKey] && obj[primaryKey] == restId]. *)
Definition matchesTruthy (primaryKey : string) (restId : option string)
    (obj : ObjectAny) : bool :=
  truthy (getProp obj primaryKey)
  && looseEq (getProp obj primaryKey) (optToValue restId).

(** The test of the lookups of [post], [putOrPatch] and [delete]:
    [itm[primaryKey] == id]. *)
Definition matchesId (primaryKey : string) (id : JsValue) (itm : ObjectAny)
  : bool :=
  looseEq (getProp itm primaryKey) id.

(** [maxId + 1] is an addition of doubles. *)
Definition genId (writeableData : list ObjectAny) (primaryKey : string) : Z :=
  let maxId :=
    fold_left (fun prevId item =>
                 let currId := match getProp item primaryKey with
                               | JNum n => n
                               | _ => prevId
                               end in
                 Z.max prevId currId)
      writeableData 0%Z in
  roundToDouble (maxId + 1).

(** Every handler returns [writeableData] as it leaves it (the array is
    changed in place) with its reply. *)

Definition get (req : HttpRequest) (headers : HttpHeaders)
    (chainParam : ChainParam) (mockData : MockData)
  : Result (WriteableData * Reply) :=
  let primaryKey := primaryKey chainParam in
  let restId := restId chainParam in
  if isDefined restId then
    let? items := asArray "find" (writeableData mockData) in
    match List.find (matchesTruthy primaryKey restId) items with
    | None =>
        inr (writeableData mockData,
             Refuse (makeError req Status.NOT_FOUND "item not found"))
    | Some item =>
        inr (writeableData mockData,
             respond headers Status.OK (Some (JArr [JObj item])))
    end
  else
    inr (writeableData mockData,
         respond headers Status.OK
           (Some (JArr (map JObj (readonlyData mockData))))).

Definition post (config : ApiMockConfig) (req : HttpRequest)
    (headers : HttpHeaders) (chainParam : ChainParam)
    (writeableData : WriteableData) : Result (WriteableData * Reply) :=
  let item := cloneObject (default [] (body req)) in
  let primaryKey := primaryKey chainParam in
  let restId := restId chainParam in
  let resourceUrl :=
    if truthyId restId then join "/" (removelast (split (url req) "/"))
    else url req in
  if isDefined restId then
    let errMsg :=
      "Error 405: Method not allowed; POST forbidder on this URI, try on "
      +:+ quote +:+ resourceUrl +:+ quote in
    inr (writeableData, Refuse (makeError req Status.METHOD_NOT_ALLOWED errMsg))
  else if negb (nonEmpty primaryKey) then
    let errMsg :=
      "Error 400: Bad Request; POST forbidder on URI without primary key in the route" in
    inr (writeableData, Refuse (makeError req Status.BAD_REQUEST errMsg))
  else
    let noId := match getProp item primaryKey with
                | JUndefined => true
                | _ => false
                end in
    let? data := asArray (if noId then "reduce" else "findIndex") writeableData in
    let item := if noId then setProp item primaryKey (JNum (genId data primaryKey))
                else item in
    let id := getProp item primaryKey in
    match findIndex (matchesId primaryKey id) data with
    | None =>
        let clonedHeaders :=
          headersSet headers "Location" (resourceUrl +:+ "/" +:+ toString id) in
        inr (WArray (data ++ [item]),
             respond clonedHeaders Status.CREATED (Some (JObj item)))
    | Some itemIndex =>
        if postUpdate409 config then
          let errMsg :=
            "Error 409: Conflict; item." +:+ primaryKey +:+ "=" +:+ toString id
            +:+ " exists and may not be updated with POST; use PUT instead." in
          inr (WArray data, Refuse (makeError req Status.CONFLICT errMsg))
        else
          inr (WArray (<[itemIndex := item]> data),
               if postUpdate204 config
               then respond headers Status.NO_CONTENT None
               else respond headers Status.OK (Some (JObj item)))
    end.

(** The loop of [putOrPatch] that deletes from the stored item the keys
    the new item does not have. *)
Definition deleteMissingKeys (stored : ObjectAny) (keysFromNewItem : list string)
  : ObjectAny :=
  fold_left (fun o k => if negb (includes keysFromNewItem k)
                        then deleteProp o k else o)
    (keys stored) stored.

Definition putOrPatch (config : ApiMockConfig) (req : HttpRequest)
    (headers : HttpHeaders) (chainParam : ChainParam)
    (writeableData : WriteableData) : Result (WriteableData * Reply) :=
  let update204 := if isPut (method req) then putUpdate204 config
                   else patchUpdate204 config in
  let item := cloneObject (default [] (body req)) in
  let primaryKey := primaryKey chainParam in
  let restId := restId chainParam in
  if negb (nonEmpty primaryKey) then
    let errMsg :=
      "Error 400: Bad Request; " +:+ methodName (method req)
      +:+ " forbidder on URI without primary key in the route" in
    inr (writeableData, Refuse (makeError req Status.BAD_REQUEST errMsg))
  else
    let item := if looseEq (getProp item primaryKey) JUndefined
                then setProp item primaryKey (optToValue restId)
                else item in
    if negb (isDefined restId) then
      let errMsg :=
        "Error 405: Method not allowed; " +:+ methodName (method req)
        +:+ " forbidder on this URI, try on " +:+ quote +:+ url req +:+ "/:"
        +:+ primaryKey +:+ quote in
      inr (writeableData, Refuse (makeError req Status.METHOD_NOT_ALLOWED errMsg))
    else if negb (looseEq (optToValue restId) (getProp item primaryKey)) then
      let errMsg :=
        "Error 400: Bad request; request with resource ID " +:+ quote
        +:+ optToString restId +:+ quote +:+ " does not match item."
        +:+ primaryKey +:+ "=" +:+ toString (getProp item primaryKey) in
      inr (writeableData, Refuse (makeError req Status.BAD_REQUEST errMsg))
    else
      let? data := asArray "findIndex" writeableData in
      match findIndex (matchesId primaryKey (optToValue restId)) data with
      | Some itemIndex =>
          let stored := default [] (data !! itemIndex) in
          let stored := if isPut (method req)
                        then deleteMissingKeys stored (keys item)
                        else stored in
          let stored := assign stored item in
          inr (WArray (<[itemIndex := stored]> data),
               if update204
               then respond headers Status.NO_CONTENT None
               else respond headers Status.OK (Some (JObj item)))
      | None =>
          if putUpdate404 config || isPatch (method req) then
            let errMsg :=
              "Error 404: Not found; item." +:+ primaryKey +:+ "="
              +:+ optToString restId +:+ " not found and may not be created with "
              +:+ methodName (method req) +:+ "; use POST instead." in
            inr (WArray data, Refuse (makeError req Status.NOT_FOUND errMsg))
          else
            inr (WArray (data ++ [item]),
                 respond headers Status.CREATED (Some (JObj item)))
      end.

Definition delete (config : ApiMockConfig) (req : HttpRequest)
    (headers : HttpHeaders) (chainParam : ChainParam)
    (writeableData : WriteableData) : Result (WriteableData * Reply) :=
  let primaryKey := primaryKey chainParam in
  let id := restId chainParam in
  if negb (nonEmpty primaryKey) then
    let errMsg :=
      "Error 400: Bad Request; DELETE forbidder on URI without primary key in the route" in
    inr (writeableData, Refuse (makeError req Status.BAD_REQUEST errMsg))
  else
    let? itemIndex :=
      if isDefined id then
        let? data := asArray "findIndex" writeableData in
        inr (findIndex (matchesId primaryKey (optToValue id)) data)
      else inr None in
    if negb (isDefined id)
       || (negb (isDefined itemIndex) && deleteNotFound404 config) then
      let errMsg :=
        "Error 404: Not found; " +:+
        (if truthyId id
         then "item." +:+ primaryKey +:+ "=" +:+ optToString id +:+ " not found"
         else "missing " +:+ quote +:+ primaryKey +:+ quote +:+ " field") in
      inr (writeableData, Refuse (makeError req Status.NOT_FOUND errMsg))
    else
      match itemIndex with
      | Some i =>
          let? data := asArray "splice" writeableData in
          inr (WArray (splice1 i data), respond headers Status.NO_CONTENT None)
      | None => inr (writeableData, respond headers Status.NO_CONTENT None)
      end.

Definition callRequestMethod (config : ApiMockConfig) (req : HttpRequest)
    (chainParam : ChainParam) (mockData : MockData)
  : Result (WriteableData * Reply) :=
  let httpMethod := method req in
  let headers := jsonHeaders in
  match httpMethod with
  | GET => get req headers chainParam mockData
  | POST => post config req headers chainParam (writeableData mockData)
  | PUT | PATCH => putOrPatch config req headers chainParam (writeableData mockData)
  | DELETE => delete config req headers chainParam (writeableData mockData)
  | _ =>
      let errMsg := "Error 405: Method not allowed" in
      inr (writeableData mockData,
           Refuse (makeError req Status.METHOD_NOT_ALLOWED errMsg))
  end.

(** ** The store: cache and local storage *)

(** The item of [localStorage] under [config.localStorageKey]: absent, a
    text that [JSON.parse] or the use of its result rejects, or the cache
    written by [setToLocalStorage] (entries without [readonlyData]). *)
Inductive LocalStorageItem : Type :=
| LsAbsent
| LsInvalid
| LsCache (d : gmap string (list ObjectAny)).

Record Store : Type := {
  cachedData : gmap string MockData;
  localStorage : LocalStorageItem
}.

(** A computation on the store that returns or throws; what it wrote
    before it threw stays written. *)
Definition M (A : Type) : Type := Store -> Store * Result A.

Definition ret {A : Type} (a : A) : M A := fun st => (st, inr a).

Definition raise {A : Type} (e : Exn) : M A := fun st => (st, inl e).

Definition bind {A B : Type} (c : M A) (k : A -> M B) : M B :=
  fun st => match c st with
            | (st', inr a) => k a st'
            | (st', inl e) => (st', inl e)
            end.

Definition liftR {A : Type} (r : Result A) : M A := fun st => (st, r).

Definition getStore : M Store := fun st => (st, inr st).

Definition setCachedData (f : gmap string MockData -> gmap string MockData)
  : M unit :=
  fun st => ({| cachedData := f (cachedData st);
                localStorage := localStorage st |}, inr tt).

Definition setLocalStorage (f : LocalStorageItem -> LocalStorageItem) : M unit :=
  fun st => ({| cachedData := cachedData st;
                localStorage := f (localStorage st) |}, inr tt).

(** [try { c } catch (err) { handler }], for a [c] that returns nothing. *)
Definition tryCatch (c : M unit) (handler : M unit) : M unit :=
  fun st => match c st with
            | (st', inr tt) => (st', inr tt)
            | (st', inl _) => handler st'
            end.

Declare Scope store_scope.
Delimit Scope store_scope with store.
Notation "x <- c ;; k" := (bind c (fun x => k))
  (at level 100, c at next level, right associativity) : store_scope.
Notation "c ;; k" := (bind c (fun _ => k))
  (at level 100, right associativity) : store_scope.
Open Scope store_scope.

(** [when (b) { c }]. *)
Definition when (b : bool) (c : M unit) : M unit := if b then c else ret tt.

(** [chainParam.route], read for one of its fields. *)
Definition routeOf (field : string) (chainParam : option ChainParam)
  : Result ApiMockRoute :=
  let undefinedHas f :=
    TypeError ("Cannot read properties of undefined (reading '" +:+ f +:+ "')") in
  match chainParam with
  | None => inl (undefinedHas "route")
  | Some c =>
      match route c with
      | Some r => inr r
      | None => inl (undefinedHas field)
      end
  end.

(** Modelled from the spec: [pickAllPropertiesAsGetters] of
    [./pick-properties], a file of the library that is not among the
    sources.  The read-only view of an item is the item, narrowed to the
    properties of the template when the route configures one. *)
Definition pickAllPropertiesAsGetters (template : option ObjectAny)
    (d : ObjectAny) : ObjectAny :=
  match template with
  | Some t => map (fun kv => (fst kv, getProp d (fst kv))) t
  | None => d
  end.

(** [values && values.length == 1 ? values[0] : values]. *)
Definition singleOrAll (values : list string) : JsValue :=
  match values with
  | [v] => JStr v
  | _ => JArr (map JStr values)
  end.

Definition getQueryParams (req : HttpRequest) : option ObjectAny :=
  match params req with
  | [] => None
  | ps => Some (fold_left (fun o kv => setProp o (fst kv) (singleOrAll (snd kv)))
                  ps [])
  end.

Definition transformHeaders (headers : HttpHeaders) : option ObjectAny :=
  match headers with
  | [] => None
  | hs => Some (fold_left (fun o kv => setProp o (fst kv) (singleOrAll (snd kv)))
                  hs [])
  end.

Definition bindReadonlyData (chainParam : ChainParam)
    (writeableData : WriteableData) : M unit :=
  r <- liftR (routeOf "propertiesForList" (Some chainParam)) ;;
  let pickObj := propertiesForList r in
  l <- liftR (asArray "map" writeableData) ;;
  let readonlyData :=
    map (pickAllPropertiesAsGetters (cloneObject <$> pickObj)) l in
  st <- getStore ;;
  match cachedData st !! cacheKey chainParam with
  | Some {| writeableData := stored |} =>
      setCachedData
        <[cacheKey chainParam :=
            {| writeableData := stored; readonlyData := readonlyData |}]>
  | None =>
      raise (TypeError "Cannot set properties of undefined (setting 'readonlyData')")
  end.

Definition applyDataFromLocalStorage (chainParam : ChainParam) : M unit :=
  tryCatch
    (st <- getStore ;;
     match localStorage st with
     | LsInvalid => raise (TypeError "JSON.parse")
     | LsAbsent => ret tt
     | LsCache d =>
         match d !! cacheKey chainParam with
         | Some l =>
             setCachedData
               <[cacheKey chainParam :=
                   {| writeableData := WArray l; readonlyData := [] |}]> ;;
             bindReadonlyData chainParam (WArray l)
         | None => ret tt
         end
     end)
    (setLocalStorage (fun _ => LsAbsent)).

Definition setToLocalStorage (cacheKey : string) : M unit :=
  tryCatch
    (st <- getStore ;;
     match localStorage st, cachedData st !! cacheKey with
     | LsInvalid, _ => raise (TypeError "JSON.parse")
     | ls, Some {| writeableData := WArray l |} =>
         let d := match ls with LsCache d => d | _ => ∅ end in
         setLocalStorage (fun _ => LsCache (<[cacheKey := map cloneObject l]> d))
     | _, _ => raise (TypeError "Cannot convert undefined or null to object")
     end)
    (setLocalStorage (fun _ => LsAbsent)).

Definition cacheDataWithGetMethod (config : ApiMockConfig)
    (chainParam : ChainParam) (parents : option (list ObjectAny))
    (queryParams : option ObjectAny) (body : option ObjectAny)
    (headers : HttpHeaders) : M MockData :=
  (if cacheFromLocalStorage config then
     r <- liftR (routeOf "ignoreDataFromLocalStorage" (Some chainParam)) ;;
     when (negb (ignoreDataFromLocalStorage r))
       (applyDataFromLocalStorage chainParam)
   else ret tt) ;;
  st <- getStore ;;
  match cachedData st !! cacheKey chainParam with
  | Some md => ret md
  | None =>
      let opts := {| items := [];
                     itemId := restId chainParam;
                     httpMethod := GET;
                     parents := parents;
                     queryParams := queryParams;
                     reqBody := body;
                     reqHeaders := transformHeaders headers |} in
      r <- liftR (routeOf "dataCallback" (Some chainParam)) ;;
      let returned := match dataCallback r with
                      | Some callback => callback opts
                      | None => JUndefined
                      end in
      let writeableData := if truthy returned then returned else JArr [] in
      match writeableData with
      | JArr l =>
          let md := {| writeableData := WArray (map asObject l);
                       readonlyData := [] |} in
          setCachedData <[cacheKey chainParam := md]> ;;
          bindReadonlyData chainParam (WArray (map asObject l)) ;;
          when (cacheFromLocalStorage config)
            (setToLocalStorage (cacheKey chainParam)) ;;
          st' <- getStore ;;
          ret (default md (cachedData st' !! cacheKey chainParam))
      | _ => raise (TypeError "route.dataCallback() should returns an array")
      end
  end.

(** The loop of [getParents] over the chain without its last element. *)
Fixpoint getParentsLoop (config : ApiMockConfig) (req : HttpRequest)
    (chainParams : list ChainParam) (parents : list ObjectAny)
  : M (list ObjectAny + HttpErrorResponse) :=
  match chainParams with
  | [] => ret (inl parents)
  | chainParam :: rest =>
      let currParents := match parents with [] => None | _ => Some parents end in
      mockData <- cacheDataWithGetMethod config chainParam currParents
                    (getQueryParams req) (body req) (headers req) ;;
      l <- liftR (asArray "find" (writeableData mockData)) ;;
      match List.find (matchesTruthy (primaryKey chainParam) (restId chainParam)) l with
      | None => ret (inr (makeError req Status.NOT_FOUND "item not found"))
      | Some item => getParentsLoop config req rest (parents ++ [item])
      end
  end.

Definition getParents (config : ApiMockConfig) (req : HttpRequest)
    (chainParams : list ChainParam)
  : M (option (list ObjectAny) + HttpErrorResponse) :=
  r <- getParentsLoop config req (removelast chainParams) [] ;;
  match r with
  | inl [] => ret (inl None)
  | inl parents => ret (inl (Some parents))
  | inr e => ret (inr e)
  end.

(** ** Responses *)

(** What [handle] returns: an observable that emits a response, fails
    with an error response, or is the one of the real backend; [delayed]
    is [observable.pipe(delay(ms))]. *)
Inductive Observable : Type :=
| ofResponse (r : HttpResponse)
| throwError (e : HttpErrorResponse)
| xhrBackendHandle (req : HttpRequest)
| delayed (ms : Z) (o : Observable).

Definition getResponse (config : ApiMockConfig) (req : HttpRequest)
    (chainParam : ChainParam) (r : ApiMockRoute)
    (parents : option (list ObjectAny)) (queryParams : option ObjectAny)
    (responseOptions : ResponseOptions) : Observable :=
  let bodyList := match ro_body responseOptions with
                  | Some (JArr l) => l
                  | Some anyBody => [anyBody]
                  | None => []
                  end in
  let restId := restId chainParam in
  let httpMethod := method req in
  let clonedBody := match clone (JArr bodyList) with
                    | JArr l => l
                    | _ => []
                    end in
  let resOrBody :=
    match responseCallback r with
    | Some callback =>
        callback {| rc_items := clonedBody;
                    rc_itemId := restId;
                    rc_httpMethod := httpMethod;
                    rc_parents := map cloneObject <$> parents;
                    rc_queryParams := queryParams;
                    rc_reqBody := cloneObject <$> body req;
                    rc_reqHeaders := transformHeaders (headers req);
                    resBody := ro_body responseOptions |}
    | None => RcBody (JArr clonedBody)
    end in
  let observable :=
    match resOrBody with
    | RcErrorResponse e => throwError e
    | RcResponse res => ofResponse res
    | RcBody v =>
        ofResponse (mkHttpResponse
          {| ro_headers := ro_headers responseOptions;
             ro_status := Some (match ro_status responseOptions with
                                | Some s => if (s =? 0)%Z then Status.OK else s
                                | None => Status.OK
                                end);
             ro_body := Some v |})
    end in
  delayed (delay config) observable.

Definition emptyResponseOptions : ResponseOptions :=
  {| ro_headers := None; ro_status := None; ro_body := None |}.

Definition sendResponse (config : ApiMockConfig) (req : HttpRequest)
    (chainParams : list ChainParam) : M Observable :=
  let queryParams := getQueryParams req in
  let httpMethod := method req in
  let lastParam := last chainParams in
  parents <- getParents config req chainParams ;;
  match parents with
  | inr e => ret (throwError e)
  | inl parents =>
      r <- liftR (routeOf "dataCallback" lastParam) ;;
      let chainParam :=
        default {| cacheKey := EmptyString; route := None;
                   primaryKey := EmptyString; restId := None |} lastParam in
      match dataCallback r with
      | None =>
          ret (getResponse config req chainParam r parents queryParams
                 emptyResponseOptions)
      | Some callback =>
          mockData <- cacheDataWithGetMethod config chainParam parents
                        queryParams (body req) (headers req) ;;
          res <- liftR (callRequestMethod config req chainParam mockData) ;;
          let '(written, reply) := res in
          setCachedData (alter (fun md => {| writeableData := written;
                                             readonlyData := readonlyData md |})
                           (cacheKey chainParam)) ;;
          match reply with
          | Refuse e => ret (throwError e)
          | Respond responseOptions =>
              when (negb (isGet httpMethod))
                (let opts := {| items := itemsOf written;
                                itemId := restId chainParam;
                                httpMethod := httpMethod;
                                parents := parents;
                                queryParams := queryParams;
                                reqBody := body req;
                                reqHeaders := transformHeaders (headers req) |} in
                 let writeableData := toWriteableData (callback opts) in
                 setCachedData
                   <[cacheKey chainParam :=
                       {| writeableData := writeableData; readonlyData := [] |}]> ;;
                 bindReadonlyData chainParam writeableData ;;
                 when (cacheFromLocalStorage config)
                   (setToLocalStorage (cacheKey chainParam))) ;;
              ret (getResponse config req chainParam r parents queryParams
                     responseOptions)
          end
      end
  end.

Definition send404Error (config : ApiMockConfig) (req : HttpRequest)
  : Observable :=
  if passThruUnknownUrl config then xhrBackendHandle req
  else throwError (makeError req Status.NOT_FOUND "Error 404: Not found").

(** The loop of [handleReq] over the dry matches: the first one that
    yields a chain answers the request. *)
Fixpoint firstChainParams (groupRouteDryMatch : list RouteDryMatch)
  : option (list ChainParam) :=
  match groupRouteDryMatch with
  | [] => None
  | routeDryMatch :: rest =>
      match getChainParams routeDryMatch with
      | Some chainParams => Some chainParams
      | None => firstChainParams rest
      end
  end.

(** [handleReq] on a service that is initialised: [routes] are its
    routes and [getRootPaths routes] its [rootRoutes]. *)
Definition handleReq (config : ApiMockConfig) (routes : list ApiMockRoute)
    (req : HttpRequest) : M Observable :=
  let rootRoutes := getRootPaths routes in
  let normalizedUrl :=
    if String.eqb (charAt (url req) 0) "/" then sliceFrom (url req) 1
    else url req in
  let routeIndex := findRouteIndex rootRoutes normalizedUrl in
  if (routeIndex =? -1)%Z then ret (send404Error config req)
  else
    match routes !! Z.to_nat routeIndex with
    | None => raise (TypeError "Cannot read properties of undefined (reading 'host')")
    | Some rootRoute =>
        let groupRouteDryMatch := getRouteDryMatch normalizedUrl rootRoute in
        match firstChainParams groupRouteDryMatch with
        | Some chainParams => sendResponse config req chainParams
        | None => ret (send404Error config req)
        end
    end.

(** [handle]: whatever [handleReq] throws becomes an error response. *)
Definition handle (config : ApiMockConfig) (routes : list ApiMockRoute)
    (req : HttpRequest) : Store -> Store * Observable :=
  fun st =>
    match handleReq config routes req st with
    | (st', inr observable) => (st', observable)
    | (st', inl err) =>
        (st', throwError (makeError req Status.INTERNAL_SERVER_ERROR
                            (exnMessage err)))
    end.

(** ** Initialisation *)

(** What the checks of [init] throw: [new Error(message)]. *)
Inductive ConfigError : Type :=
| Error (message : string).

Definition newline : string := String "010"%char EmptyString.

(** [s.slice(-1)]: the last character, or [""]. *)
Definition sliceLast (s : string) : string :=
  substring (String.length s - 1) 1 s.

(** [\w] and [[\w-]] of a regular expression without flags. *)
Definition isWordChar (c : ascii) : bool :=
  let n := nat_of_ascii c in
  ((48 <=? n)%nat && (n <=? 57)%nat) || ((65 <=? n)%nat && (n <=? 90)%nat)
  || ((97 <=? n)%nat && (n <=? 122)%nat) || (n =? 95)%nat.

Definition isWordOrDash (c : ascii) : bool :=
  isWordChar c || (nat_of_ascii c =? 45)%nat.

Fixpoint allChars (f : ascii -> bool) (s : string) : bool :=
  match s with
  | EmptyString => true
  | String c rest => f c && allChars f rest
  end.

(** [/^(?:[\w-]+\/)+:\w+$/.test(s)], read from the left: [closed] tells
    that a group [[\w-]+\/] has been closed, [inSegment] that characters
    of a group have been read since. *)
Fixpoint matchPathWithPk (closed inSegment : bool) (s : string) : bool :=
  match s with
  | EmptyString => false
  | String c rest =>
      if isWordOrDash c then matchPathWithPk closed true rest
      else if (nat_of_ascii c =? 47)%nat then
        inSegment && matchPathWithPk true false rest
      else if (nat_of_ascii c =? 58)%nat then
        closed && negb inSegment && nonEmpty rest && allChars isWordChar rest
      else false
  end.

Definition pathWithPk (path : string) : bool :=
  matchPathWithPk false false path.

(** [!(route.children && route.children.length)]. *)
Definition isLastRoute (route : ApiMockRoute) : bool :=
  match children route with
  | Some (_ :: _) => false
  | _ => true
  end.

(** [checkRoute]: [inr tt] when it returns.  The callbacks of the model
    are functions, so that the two [typeof ... != 'function'] tests never
    throw; a host of the model is a string. *)
Fixpoint checkRoute (route : ApiMockRoute) (parentPath : option string)
  : ConfigError + unit :=
  let path := path route in
  let host := host route in
  let childPath := join " -> " (truthyStrings [parentPath; Some path]) in
  if negb (isLastRoute route)
     && (negb (isDefined (dataCallback route)) || negb (pathWithPk path)) then
    inl (Error
      ("ApiMockModule detected wrong nested routes with path " +:+ quote
       +:+ childPath +:+ quote +:+ "." +:+ newline
       +:+ "With these routes you should to use a primary key in nested route path,"
       +:+ newline
       +:+ "for example " +:+ quote +:+ "api/posts/:postId/comments" +:+ quote
       +:+ ", where " +:+ quote +:+ ":postId" +:+ quote
       +:+ " is a primary key of collection " +:+ quote +:+ "api/posts" +:+ quote
       +:+ "." +:+ newline
       +:+ "Also you should to have corresponding route.dataCallback."))
  else if (isDefined (dataCallback route) && negb (pathWithPk path))
          || (pathWithPk path && negb (isDefined (dataCallback route))) then
    inl (Error
      ("ApiMockModule detected wrong route with path " +:+ quote +:+ childPath
       +:+ quote +:+ "." +:+ newline
       +:+ "If you have route.dataCallback, you should to have corresponding a primary key, and vice versa."
       +:+ newline
       +:+ "Also you can remove route.dataCallback if you no need any data from this route."))
  else if nonEmpty path && String.eqb (sliceLast path) "/" then
    inl (Error
      ("ApiMockModule detected wrong route with path " +:+ quote +:+ childPath
       +:+ quote +:+ "." +:+ newline
       +:+ "route.path should not to have trailing slash."))
  else if truthyId host && String.eqb (sliceLast (default EmptyString host)) "/" then
    inl (Error
      ("ApiMockModule detected wrong host " +:+ quote
       +:+ default EmptyString host +:+ quote +:+ "." +:+ newline
       +:+ "Any host must have a string type, and should not end with trailing slash."))
  else if negb (isLastRoute route) then
    match children route with
    | Some cs =>
        (fix forEach (cs : list ApiMockRoute) : ConfigError + unit :=
           match cs with
           | [] => inr tt
           | child :: rest =>
               match checkRoute child (Some childPath) with
               | inl e => inl e
               | inr _ => forEach rest
               end
           end) cs
    | None => inr tt
    end
  else inr tt.

(** The key of a root route in [checkRootDuplicates]. *)
Definition incomingRoute (route : ApiMockRoute) : string :=
  let rootPath := match split (path route) ":" with
                  | part :: _ => part
                  | [] => EmptyString
                  end in
  join " -> " (truthyStrings [host route; Some rootPath]).

(** The loop of [checkRootDuplicates] over [incomingRoutes]. *)
Fixpoint checkIncoming (existingRoutes incomingRoutes : list string)
  : ConfigError + unit :=
  match incomingRoutes with
  | [] => inr tt
  | incoming :: rest =>
      if includes existingRoutes incoming then
        inl (Error ("ApiMockModule detected duplicate route with path: '"
                    +:+ incoming +:+ "'"))
      else checkIncoming (existingRoutes ++ [incoming]) rest
  end.

Definition checkRootDuplicates (routes : list ApiMockRoute)
  : ConfigError + unit :=
  checkIncoming [] (map incomingRoute routes).

(** The loop [this.routes.forEach((route) => this.checkRoute(route))]. *)
Fixpoint checkRoutes (routes : list ApiMockRoute) : ConfigError + unit :=
  match routes with
  | [] => inr tt
  | route :: rest =>
      match checkRoute route None with
      | inl e => inl e
      | inr _ => checkRoutes rest
      end
  end.

(** [init]: the routes and the [rootRoutes] it sets, or what it throws.
    The routes of the model are all there ([filter((r) => r)] keeps them),
    the configuration has its defaults already, and clearing the console
    on navigation changes no result. *)
Definition init (routes : list ApiMockRoute)
  : ConfigError + (list ApiMockRoute * list PartialRoute) :=
  match checkRoutes routes with
  | inl e => inl e
  | inr _ =>
      match checkRootDuplicates routes with
      | inl e => inl e
      | inr _ => inr (routes, getRootPaths routes)
      end
  end.

(** [handle] from the state of the service: [handleReq] starts with
    [if (!this.isInited) this.init()], and what [init] throws, [handle]
    answers as the error 500 with its message. *)
Definition handleFrom (isInited : bool) (config : ApiMockConfig)
    (routes : list ApiMockRoute) (req : HttpRequest)
  : Store -> Store * Observable :=
  fun st =>
    if isInited then handle config routes req st
    else
      match init routes with
      | inl (Error message) =>
          (st, throwError (makeError req Status.INTERNAL_SERVER_ERROR message))
      | inr (routes, _) => handle config routes req st
      end.

(** * Vocabulary of the properties *)

(** ** The root index *)

(** The order of the root index: the longer path first. *)
Definition longerFirst (a b : PartialRoute) : Prop :=
  pr_length b <= pr_length a.

(** The test of [findRouteIndex] as the specification words it: the URL
    truncated to [length + 1] characters is the path, or the path
    followed by a separator. *)
Definition truncatedMatch (e : PartialRoute) (url : string) : Prop :=
  substr url 0 (pr_length e + 1) = pr_path e
  \/ substr url 0 (pr_length e + 1) = pr_path e +:+ "/".

(** ** Dry matches *)

(** The path accumulated at a node: the path above it joined with its
    own. *)
Definition accumulatedPath (pathOfRoute : string) (route : ApiMockRoute)
  : string :=
  join "/" (truthyStrings [Some pathOfRoute; Some (path route)]).

(** The segments of a path as the specification counts them: the texts
    between its ['/'] separators, one more than there are separators. *)
Definition isSlash (c : ascii) : bool := Ascii.eqb c "/".

Fixpoint separators (s : string) : nat :=
  match s with
  | EmptyString => 0
  | String c r => (if isSlash c then 1 else 0) + separators r
  end.

Definition segmentCount (s : string) : nat := S (separators s).

(** The segments, read from left to right: [current] is what has been
    read of the segment that is open. *)
Fixpoint segmentsFrom (current : string) (s : string) : list string :=
  match s with
  | EmptyString => [current]
  | String c r =>
      if isSlash c then current :: segmentsFrom EmptyString r
      else segmentsFrom (current +:+ String c EmptyString) r
  end.

Definition segments (s : string) : list string := segmentsFrom EmptyString s.

(** A segment that starts with [':'], and the name after the colon. *)
Definition startsWithColon (s : string) : bool :=
  match s with
  | String c _ => Ascii.eqb c ":"
  | EmptyString => false
  end.

Definition afterColon (s : string) : string :=
  match s with
  | String _ r => r
  | EmptyString => EmptyString
  end.

(** The dry matches pushed for the children of a node. *)
Definition childrenMatches (splitedUrl : list string) (route : ApiMockRoute)
    (pathOfRoute : string) (routes : list ApiMockRoute) : list RouteDryMatch :=
  flat_map (fun child => setRouteDryMatch splitedUrl child
                           (accumulatedPath pathOfRoute route) (routes ++ [route]))
    (default [] (children route)).

(** A branch of the tree of a route: the route, then a child of it, then
    a child of that child, and so on down to some node. *)
Inductive branch : ApiMockRoute -> list ApiMockRoute -> Prop :=
| branch_here (r : ApiMockRoute) : branch r [r]
| branch_child (r : ApiMockRoute) (cs : list ApiMockRoute) (c : ApiMockRoute)
    (p : list ApiMockRoute) :
    children r = Some cs -> c ∈ cs -> branch c p -> branch r (r :: p).

(** The path accumulated along routes, from the path above them. *)
Definition pathAlong (pathOfRoute : string) (routes : list ApiMockRoute)
  : string :=
  fold_left accumulatedPath routes pathOfRoute.

(** A dry match stands for its route segments [full] as they are, with a
    trailing id when the last one is a token, or for all but the last
    one, which then is a token and names the last primary key. *)
Definition standsFor (m : RouteDryMatch) (full : list string) : Prop :=
  (splitedRoute m = full
   /\ hasLastRestId m = isPrimaryKeyPart (default EmptyString (last full)))
  \/ (splitedRoute m = removelast full
      /\ hasLastRestId m = false
      /\ isPrimaryKeyPart (default EmptyString (last full)) = true
      /\ lastPrimaryKey m = sliceFrom (default EmptyString (last full)) 1).

(** ** Chains *)

(** The segments of the route of a dry match with their positions. *)
Definition positioned (m : RouteDryMatch) : list (nat * string) :=
  imap pair (splitedRoute m).

(** The literal segments of the route, and its [':']-tokens. *)
Definition literalParts (m : RouteDryMatch) : list (nat * string) :=
  List.filter (fun ip => negb (isPrimaryKeyPart (snd ip))) (positioned m).

Definition tokenParts (m : RouteDryMatch) : list (nat * string) :=
  List.filter (fun ip => isPrimaryKeyPart (snd ip)) (positioned m).

(** The URL segments aligned with the literal route segments, joined
    with ['/'], and those literal route segments, joined with ['/']. *)
Definition literalUrl (m : RouteDryMatch) : string :=
  joinU "/" (map (fun ip => splitedUrl m !! fst ip) (literalParts m)).

Definition literalRoute (m : RouteDryMatch) : string :=
  join "/" (map snd (literalParts m)).

(** A URL segment as a resource id: an empty segment binds none. *)
Definition boundId (segment : option string) : option string :=
  match segment with
  | Some s => if nonEmpty s then Some s else None
  | None => None
  end.

(** The link of the [k]-th token, which stands at position [i]: its
    resource id is taken from the URL segment at [i] by [bind], its cache
    key is the URL segments before [i] joined with ['/']. *)
Definition tokenLink (bind : option string -> option string)
    (m : RouteDryMatch) (k : nat) (ip : nat * string) : ChainParam :=
  {| cacheKey := join "/" (take (fst ip) (splitedUrl m));
     route := routes m !! k;
     primaryKey := sliceFrom (snd ip) 1;
     restId := bind (splitedUrl m !! fst ip) |}.

(** The link appended when the match has no trailing id: the full URL is
    its cache key and it has no resource id. *)
Definition finalLink (m : RouteDryMatch) : ChainParam :=
  {| cacheKey := join "/" (splitedUrl m);
     route := last (routes m);
     primaryKey := lastPrimaryKey m;
     restId := None |}.

Definition chainWith (bind : option string -> option string)
    (m : RouteDryMatch) : list ChainParam :=
  imap (tokenLink bind m) (tokenParts m)
  ++ (if hasLastRestId m then [] else [finalLink m]).

(** The chain as the code builds it, and the chain of the claim, in
    which the resource id of a token is the URL segment itself. *)
Definition chainOf (m : RouteDryMatch) : list ChainParam := chainWith boundId m.

Definition chainAsStated (m : RouteDryMatch) : list ChainParam := chainWith id m.

(** ** Handlers *)

(** The status of what a handler returns. *)
Definition statusOf (r : Reply) : Z :=
  match r with
  | Respond o => default 0%Z (ro_status o)
  | Refuse e => err_status e
  end.


(** The largest of zero and the given numbers. *)
Definition largestOrZero (ids : list Z) : Z := foldr Z.max 0%Z ids.

(** The numeric values the items hold under the primary key. *)
Definition numericIds (primaryKey : string) (items : list ObjectAny) : list Z :=
  omap (fun item => match getProp item primaryKey with
                    | JNum n => Some n
                    | _ => None
                    end) items.

(** The numeric primary keys of the items are safe integers at most:
    none is above [Number.MAX_SAFE_INTEGER]. *)
Definition safeIds (primaryKey : string) (items : list ObjectAny) : Prop :=
  Forall (fun n => (n <= MAX_SAFE_INTEGER)%Z) (numericIds primaryKey items).

(** The item of a request: its body, cloned; [{}] when it has none. *)
Definition requestItem (req : HttpRequest) : ObjectAny :=
  cloneObject (default [] (body req)).



(** ** The store *)



(** [Array.isArray]. *)
Definition isArray (v : JsValue) : bool :=
  match v with JArr _ => true | _ => false end.

(** The chain [handleReq] finds for a request: the root route of its
    URL, then the first dry match that yields a chain. *)
Definition resolve (routes : list ApiMockRoute) (req : HttpRequest)
  : option (list ChainParam) :=
  let normalizedUrl :=
    if String.eqb (charAt (url req) 0) "/" then sliceFrom (url req) 1
    else url req in
  let routeIndex := findRouteIndex (getRootPaths routes) normalizedUrl in
  if (routeIndex =? -1)%Z then None
  else rootRoute ← routes !! Z.to_nat routeIndex;
       firstChainParams (getRouteDryMatch normalizedUrl rootRoute).

(** ** Numbers in texts *)




(** ** Collections with numeric identifiers *)




(** ** Stores that grow *)

(** [st'] keeps every collection [st] has cached, as it is, and the local
    storage of [st]. *)
Definition extends (st st' : Store) : Prop :=
  cachedData st ⊆ cachedData st' /\ localStorage st' = localStorage st.

(** [item] is what the lookup of a link finds in the collection the
    store has cached for it: the first item with a truthy primary key that
    loosely equals the id of the link. *)
Definition foundIn (st : Store) (chainParam : ChainParam) (item : ObjectAny)
  : Prop :=
  exists mockData data,
    cachedData st !! cacheKey chainParam = Some mockData
    /\ writeableData mockData = WArray data
    /\ List.find (matchesTruthy (primaryKey chainParam) (restId chainParam)) data
       = Some item.

(** The options the data callback of a link gets after a method other
    than GET has been served. *)
Definition writeOptions (req : HttpRequest) (chainParam : ChainParam)
    (parents : option (list ObjectAny)) (written : WriteableData)
  : ApiMockDataCallbackOptions :=
  {| items := itemsOf written;
     itemId := restId chainParam;
     httpMethod := method req;
     parents := parents;
     queryParams := getQueryParams req;
     reqBody := body req;
     reqHeaders := transformHeaders (headers req) |}.

(** The entry of the cache for a collection: the items, and their
    read-only views as the route configures them. *)
Definition cacheEntry (r : ApiMockRoute) (data : list ObjectAny) : MockData :=
  {| writeableData := WArray data;
     readonlyData :=
       map (pickAllPropertiesAsGetters (cloneObject <$> propertiesForList r)) data |}.

(** ** Parameters and headers *)



(** ** Values of JSON *)

(** A value that holds [undefined] nowhere: not itself, not as an element
    of an array, not as a field of an object, at any depth. *)
Fixpoint jsonSafe (v : JsValue) : bool :=
  match v with
  | JUndefined => false
  | JArr l =>
      (fix elements (l : list JsValue) : bool :=
         match l with
         | [] => true
         | e :: rest => jsonSafe e && elements rest
         end) l
  | JObj fs =>
      (fix fields (fs : list (string * JsValue)) : bool :=
         match fs with
         | [] => true
         | (_, x) :: rest => jsonSafe x && fields rest
         end) fs
  | _ => true
  end.

(** ** Checked routes *)

(** The children of a route are checked one after the other, below the
    path of the route. *)
Fixpoint checkEach (parentPath : option string) (cs : list ApiMockRoute)
  : ConfigError + unit :=
  match cs with
  | [] => inr tt
  | child :: rest =>
      match checkRoute child parentPath with
      | inl e => inl e
      | inr _ => checkEach parentPath rest
      end
  end.

(** What [checkRoute] asks of one route: with children it has a data
    callback; it has a data callback exactly when its path is made of
    literal segments followed by one primary key; its path and its host
    do not end with a slash. *)
Definition nodeChecked (r : ApiMockRoute) : bool :=
  (isLastRoute r || isDefined (dataCallback r))
  && Bool.eqb (isDefined (dataCallback r)) (pathWithPk (path r))
  && negb (String.eqb (sliceLast (path r)) "/")
  && negb (String.eqb (sliceLast (default EmptyString (host r))) "/").

(** Every route of the tree is as [checkRoute] asks. *)
Inductive treeChecked : ApiMockRoute -> Prop :=
| tree_checked (r : ApiMockRoute) :
    nodeChecked r = true ->
    (forall cs c, children r = Some cs -> c ∈ cs -> treeChecked c) ->
    treeChecked r.

(** The token of a route whose path ends with a primary key, and the
    primary key it names. *)
Definition tokenOf (r : ApiMockRoute) : string :=
  default EmptyString (last (split (path r) "/")).

Definition primaryKeyOf (r : ApiMockRoute) : string :=
  sliceFrom (tokenOf r) 1.

(** A link of a chain is the link of a route: it carries that route, the
    route has a data callback, and the path of the route ends with the
    primary key of the link as its token. *)
Definition linkOf (chainParam : ChainParam) (r : ApiMockRoute) : Prop :=
  route chainParam = Some r
  /\ isDefined (dataCallback r) = true
  /\ last (split (path r) "/") = Some (":" +:+ primaryKey chainParam).

(** ** Requests that cannot fail *)







(** ** Sample data *)

Module Sample.

(** A route with no callback and no children. *)
Definition leaf (p : string) : ApiMockRoute :=
  mkRoute p None None None false None None.

Definition posts : ApiMockRoute := leaf "posts/:id".

Definition featured : ApiMockRoute := leaf "posts/featured/:id".

(** The dry match of the URL [posts/] against the route [posts/:id]. *)
Definition trailingSlash : RouteDryMatch :=
  {| splitedUrl := ["posts"; ""];
     splitedRoute := ["posts"; ":id"];
     routes := [posts];
     hasLastRestId := true;
     lastPrimaryKey := "id" |}.

(** A request for tests of the handlers. *)
Definition request (m : HttpMethod) (u : string) (b : option ObjectAny)
  : HttpRequest :=
  {| method := m; url := u; urlWithParams := u; body := b;
     headers := []; params := [] |}.

(** The links of the collection [posts] and of its items 0, 1 and 5. *)
Definition link (restId : option string) : ChainParam :=
  {| cacheKey := "posts"; route := Some posts;
     primaryKey := "id"; restId := restId |}.



(** A stored item with the id 1. *)
Definition article : ObjectAny :=
  [("id", JNum 1); ("title", JStr "a"); ("views", JNum 3)].

(** Collections whose one item has a falsy primary key. *)
Definition zeroth : list ObjectAny := [[("id", JNum 0); ("title", JStr "z")]].



(** The route [posts/:id] with its comments below it; the data
    callbacks hand back the post with the id 0, and no comment. *)
Definition comments : ApiMockRoute :=
  mkRoute "comments/:commentId"
    (Some (fun opts => JArr (map JObj (items opts))))
    None None false None None.

Definition postsWithComments : ApiMockRoute :=
  mkRoute "posts/:id"
    (Some (fun opts => match httpMethod opts with
                       | GET => JArr (map JObj zeroth)
                       | _ => JArr (map JObj (items opts))
                       end))
    None None false (Some [comments]) None.



Definition emptyStore : Store :=
  {| cachedData := ∅; localStorage := LsAbsent |}.

(** The link of the collection of [postsWithComments], and the store
    that has cached it. *)
Definition postsLink (restId : option string) : ChainParam :=
  {| cacheKey := "posts"; route := Some postsWithComments;
     primaryKey := "id"; restId := restId |}.

Definition postsCached : Store :=
  {| cachedData := {[ "posts" := {| writeableData := WArray zeroth;
                                    readonlyData := zeroth |} ]};
     localStorage := LsAbsent |}.

(** The store that has cached the one article for [posts]. *)
Definition articleCached : Store :=
  {| cachedData := {[ "posts" := {| writeableData := WArray [article];
                                    readonlyData := [] |} ]};
     localStorage := LsAbsent |}.

(** A route [posts/:id] whose data callback hands back the article on a
    GET and nothing after a write, and the link of its collection. *)
Definition forgetful (opts : ApiMockDataCallbackOptions) : JsValue :=
  match httpMethod opts with
  | GET => JArr [JObj article]
  | _ => JUndefined
  end.

Definition forgetfulPosts : ApiMockRoute :=
  mkRoute "posts/:id" (Some forgetful) None None false None None.

Definition forgetfulLink : ChainParam :=
  {| cacheKey := "posts"; route := Some forgetfulPosts;
     primaryKey := "id"; restId := None |}.

(** The dry match of the URL [posts/0/comments/5] in the tree of
    [postsWithComments]. *)
Definition commentsMatch : RouteDryMatch :=
  {| splitedUrl := ["posts"; "0"; "comments"; "5"];
     splitedRoute := ["posts"; ":id"; "comments"; ":commentId"];
     routes := [postsWithComments; comments];
     hasLastRestId := true;
     lastPrimaryKey := "commentId" |}.

(** The default configuration with [cacheFromLocalStorage] on, and a
    link whose route ignores the local storage. *)
Definition persistent : ApiMockConfig :=
  {| passThruUnknownUrl := false; clearPrevLog := false; showLog := true;
     cacheFromLocalStorage := true; localStorageKey := "apiMockCachedData";
     delay := 500;
     postUpdate204 := true; postUpdate409 := false;
     putUpdate204 := true; putUpdate404 := true;
     patchUpdate204 := true; deleteNotFound404 := true |}.



Definition postTitleA : HttpRequest :=
  request POST "posts" (Some [("title", JStr "a")]).

Definition postTitleB : HttpRequest :=
  request POST "posts" (Some [("title", JStr "b")]).

Definition postId1 : HttpRequest :=
  request POST "posts" (Some [("id", JNum 1)]).

(** The route [posts/:id] whose response callback answers every
    request with an error response of its own. *)
Definition refusal : HttpErrorResponse :=
  makeError (request POST "posts" None) Status.CONFLICT
    "refused by the response callback".

Definition refusingPosts : ApiMockRoute :=
  mkRoute "posts/:id"
    (Some (fun opts => JArr (map JObj (items opts))))
    None (Some (fun _ => RcErrorResponse refusal)) false None None.

End Sample.

(** * Properties *)

(** ** The embedding at work *)

Example split_samples :
  split "a/:b/:c" "/:" = ["a"; "b"; "c"]
  /\ split "posts/12" "/" = ["posts"; "12"]
  /\ split "" "/" = [""]
  /\ split "/a//" "/" = [""; "a"; ""; ""].
Proof. repeat split. Qed.

Example StringToNumber_samples :
  map StringToNumber
    ["0"; " 12 "; "-7"; "1.0"; "1.5"; "1e2"; "0x1F"; ""; "abc"; ".";
     "5."; ".5e1"; "1e"; "Infinity"; "12px"]
  = [Some 0; Some 12; Some (-7); Some 1; None; Some 100; Some 31; Some 0;
     None; None; Some 5; Some 5; None; None; None]%Z.
Proof. vm_compute. reflexivity. Qed.

(** Texts beyond the safe integers are read as the nearest double. *)
Example doubles_samples :
  map StringToNumber
    ["9007199254740992"; "9007199254740993"; "9007199254740995";
     "1.0000000000000001"; "1e400"; "1e-400"; "0.1"]
  = [Some 9007199254740992; Some 9007199254740992; Some 9007199254740996;
     Some 1; None; Some 0; None]%Z
  /\ roundToDouble 9007199254740993 = 9007199254740992%Z
  /\ looseEq (JNum 9007199254740992) (JStr "9007199254740993") = true
  /\ genId [[("id", JNum 9007199254740992)]] "id" = 9007199254740992%Z.
Proof. repeat split; vm_compute; reflexivity. Qed.

Example looseEq_samples :
  map (fun xy => looseEq (fst xy) (snd xy))
    [(JNum 0, JStr "0"); (JBool false, JStr "0"); (JStr "", JStr "0");
     (JNum 1, JStr "1"); (JNum 1, JStr "01"); (JStr "1", JNum 2);
     (JNull, JUndefined); (JNull, JNum 0); (JUndefined, JStr "undefined");
     (JArr [JNum 1], JStr "1"); (JObj [], JStr "[object Object]");
     (JObj [], JObj [])]
  = [true; true; false; true; true; false; true; false; false; true; true;
     false].
Proof. vm_compute. reflexivity. Qed.

Example getRootPaths_sample :
  getRootPaths [Sample.posts; Sample.featured]
  = [ {| pr_path := "posts/featured"; pr_length := 14; pr_index := 1 |};
      {| pr_path := "posts"; pr_length := 5; pr_index := 0 |} ].
Proof. reflexivity. Qed.

Example resolve_samples :
  (map (fun c => (cacheKey c, primaryKey c, restId c))
     <$> resolve [Sample.postsWithComments]
           (Sample.request GET "/posts/7/comments/3" None))
  = Some [("posts", "id", Some "7"); ("posts/7/comments", "commentId", Some "3")]
  /\ (map (fun c => (cacheKey c, primaryKey c, restId c))
        <$> resolve [Sample.postsWithComments]
              (Sample.request GET "posts/7/comments" None))
     = Some [("posts", "id", Some "7"); ("posts/7/comments", "commentId", None)]
  /\ resolve [Sample.postsWithComments]
       (Sample.request GET "posts-other/7" None) = None.
Proof. repeat split; vm_compute; reflexivity. Qed.

(** ** Strings *)

Section strings.

Lemma substring_0_length (s : string) (m : nat) :
  String.length (substring 0 m s) = Nat.min m (String.length s).
Proof.
  revert m. induction s as [|c s IH]; intros [|m]; simpl; auto.
Qed.

Lemma substring_0_all (s : string) (m : nat) :
  String.length s <= m -> substring 0 m s = s.
Proof.
  revert m. induction s as [|c s IH]; intros [|m] Hm; simpl in *;
    try reflexivity; try lia.
  f_equal. apply IH. lia.
Qed.

Lemma length_append (s t : string) :
  String.length (s +:+ t) = String.length s + String.length t.
Proof. induction s as [|c s IH]; simpl; auto. Qed.

(** A text cut after one character more than [p] is [p] only when it
    is [p] itself. *)
Lemma substring_succ_eq (url p : string) :
  substring 0 (S (String.length p)) url = p <-> url = p.
Proof.
  split.
  - intros H.
    assert (Hlen : String.length url <= S (String.length p)).
    { pose proof (substring_0_length url (S (String.length p))) as L.
      rewrite H in L. lia. }
    rewrite substring_0_all in H; auto.
  - intros ->. apply substring_0_all. lia.
Qed.

Lemma append_cons (a : ascii) (s t : string) :
  String a s +:+ t = String a (s +:+ t).
Proof. reflexivity. Qed.

Lemma append_empty_r (s : string) : s +:+ "" = s.
Proof.
  induction s as [|a s IH]; [reflexivity|]. rewrite append_cons, IH. reflexivity.
Qed.

End strings.

(** ** The root index *)

Lemma rootMatches_truncatedMatch (e : PartialRoute) (url : string) :
  rootMatches e url = true <-> truncatedMatch e url.
Proof.
  unfold rootMatches, truncatedMatch.
  rewrite orb_true_iff, !String.eqb_eq. reflexivity.
Qed.

Lemma rootMatches_prefix (e : PartialRoute) (url : string) :
  pr_length e = String.length (pr_path e) ->
  rootMatches e url = true
  <-> url = pr_path e \/ String.prefix (pr_path e +:+ "/") url = true.
Proof.
  intros Hlen. unfold rootMatches, substr.
  rewrite orb_true_iff, !String.eqb_eq, Hlen, Nat.add_1_r.
  rewrite substring_succ_eq, prefix_correct, length_append.
  simpl. rewrite Nat.add_1_r. reflexivity.
Qed.

Lemma insertByLength_elem (x y : PartialRoute) (l : list PartialRoute) :
  y ∈ insertByLength x l <-> y = x \/ y ∈ l.
Proof.
  induction l as [|z l IH]; simpl.
  - rewrite list_elem_of_singleton, elem_of_nil. tauto.
  - destruct (pr_length z <=? pr_length x)%nat.
    + rewrite elem_of_cons. reflexivity.
    + rewrite !elem_of_cons, IH. tauto.
Qed.

Lemma insertByLength_sorted (x : PartialRoute) (l : list PartialRoute) :
  StronglySorted longerFirst l -> StronglySorted longerFirst (insertByLength x l).
Proof.
  induction 1 as [|z l Hs IH Hz]; simpl.
  - repeat constructor.
  - destruct (pr_length z <=? pr_length x)%nat eqn:E.
    + apply Nat.leb_le in E. constructor; [constructor; assumption|].
      constructor; [exact E|].
      eapply Forall_impl; [exact Hz|]. unfold longerFirst. intros; lia.
    + apply Nat.leb_gt in E. constructor; [exact IH|].
      apply Forall_forall. intros y Hy. apply insertByLength_elem in Hy.
      destruct Hy as [->|Hy].
      * unfold longerFirst. lia.
      * rewrite Forall_forall in Hz. auto.
Qed.

Lemma sortByLengthDesc_sorted (l : list PartialRoute) :
  StronglySorted longerFirst (sortByLengthDesc l).
Proof.
  induction l as [|x l IH]; simpl.
  - constructor.
  - apply insertByLength_sorted, IH.
Qed.

Lemma sortByLengthDesc_elem (y : PartialRoute) (l : list PartialRoute) :
  y ∈ sortByLengthDesc l <-> y ∈ l.
Proof.
  induction l as [|x l IH]; simpl; [reflexivity|].
  rewrite insertByLength_elem, elem_of_cons, IH. reflexivity.
Qed.

Lemma getRootPaths_sorted (routes : list ApiMockRoute) :
  StronglySorted longerFirst (getRootPaths routes).
Proof. apply sortByLengthDesc_sorted. Qed.

Lemma getRootPaths_length (routes : list ApiMockRoute) (e : PartialRoute) :
  e ∈ getRootPaths routes -> pr_length e = String.length (pr_path e).
Proof.
  unfold getRootPaths. rewrite sortByLengthDesc_elem, elem_of_lookup_imap.
  intros (i & r & -> & _). reflexivity.
Qed.

(** [findRouteIndex] answers with the first entry that passes the test. *)
Lemma findRouteIndex_first (rootRoutes : list PartialRoute) (url : string) (i : nat) :
  findRouteIndex rootRoutes url = Z.of_nat i
  <-> exists pre e post,
        rootRoutes = pre ++ e :: post
        /\ Forall (fun e' => rootMatches e' url = false) pre
        /\ rootMatches e url = true
        /\ pr_index e = i.
Proof.
  induction rootRoutes as [|r rest IH]; simpl.
  - split; [lia|]. intros (pre & e & post & H & _). destruct pre; discriminate.
  - destruct (rootMatches r url) eqn:E.
    + split.
      * intros H. exists [], r, rest. repeat split; auto. lia.
      * intros (pre & e & post & H & Hpre & He & Hi).
        destruct pre as [|p pre]; simpl in H; inversion H; subst.
        -- reflexivity.
        -- inversion Hpre; subst. congruence.
    + rewrite IH. split.
      * intros (pre & e & post & -> & Hpre & He & Hi).
        exists (r :: pre), e, post. repeat split; auto.
      * intros (pre & e & post & H & Hpre & He & Hi).
        destruct pre as [|p pre]; simpl in H; inversion H; subst.
        -- congruence.
        -- inversion Hpre; subst. exists pre, e, post. repeat split; auto.
Qed.

Lemma findRouteIndex_none (rootRoutes : list PartialRoute) (url : string) :
  findRouteIndex rootRoutes url = (-1)%Z
  <-> Forall (fun e => rootMatches e url = false) rootRoutes.
Proof.
  induction rootRoutes as [|r rest IH]; simpl.
  - split; auto.
  - destruct (rootMatches r url) eqn:E.
    + split; [lia|]. intros H. inversion H; subst. congruence.
    + rewrite IH. split; [auto|]. intros H. inversion H; auto.
Qed.

(** In a sorted index the answer is at least as long as any entry that
    passes the test. *)
Lemma findRouteIndex_longest (rootRoutes : list PartialRoute) (url : string)
    (e : PartialRoute) :
  StronglySorted longerFirst rootRoutes ->
  e ∈ rootRoutes -> rootMatches e url = true ->
  exists e', e' ∈ rootRoutes /\ rootMatches e' url = true
             /\ findRouteIndex rootRoutes url = Z.of_nat (pr_index e')
             /\ pr_length e <= pr_length e'.
Proof.
  induction 1 as [|r rest Hs IH Hr]; intros He Hm.
  - apply elem_of_nil in He. contradiction.
  - simpl. destruct (rootMatches r url) eqn:E.
    + exists r. repeat split; auto; [left|].
      apply elem_of_cons in He. destruct He as [->|He]; [lia|].
      rewrite Forall_forall in Hr. apply Hr, He.
    + apply elem_of_cons in He. destruct He as [->|He]; [congruence|].
      destruct (IH He Hm) as (e' & He' & Hm' & Hf & Hl).
      exists e'. repeat split; auto. right. exact He'.
Qed.

(** C1.  For every declared route list the root index [getRootPaths]
    builds is sorted by descending path length; [findRouteIndex] returns
    the index [i] of a root route exactly when that route's entry is the
    first one of the index for which the URL, truncated to the entry's
    [length + 1] characters, is the entry's path or that path followed by
    ['/'], and returns [-1] exactly when no entry passes that test.
    Consequently, when several roots pass the test the selected one is at
    least as long as each of them (roots [posts] and [posts/featured], URL
    [posts/featured/1]: the second route is selected), and a root [posts]
    never matches a URL that begins with [posts-other/]. *)
Theorem C1_root_index_longest_prefix :
  forall (routes : list ApiMockRoute) (url : string),
    let rootRoutes := getRootPaths routes in
    StronglySorted longerFirst rootRoutes
    /\ (forall e, e ∈ rootRoutes -> pr_length e = String.length (pr_path e))
    /\ (forall i : nat,
          findRouteIndex rootRoutes url = Z.of_nat i
          <-> exists pre e post,
                rootRoutes = pre ++ e :: post
                /\ Forall (fun e' => ~ truncatedMatch e' url) pre
                /\ truncatedMatch e url
                /\ pr_index e = i)
    /\ (findRouteIndex rootRoutes url = (-1)%Z
        <-> forall e, e ∈ rootRoutes -> ~ truncatedMatch e url)
    /\ (forall e, e ∈ rootRoutes -> truncatedMatch e url ->
          exists e', e' ∈ rootRoutes /\ truncatedMatch e' url
                     /\ findRouteIndex rootRoutes url = Z.of_nat (pr_index e')
                     /\ pr_length e <= pr_length e')
    /\ (forall e rest, e ∈ rootRoutes -> pr_path e = "posts" ->
          ~ truncatedMatch e ("posts-other/" +:+ rest))
    /\ findRouteIndex (getRootPaths [Sample.posts; Sample.featured])
         "posts/featured/1" = 1%Z.
Proof.
  intros routes url rootRoutes.
  assert (Hno : forall l : list PartialRoute,
             Forall (fun e' => rootMatches e' url = false) l
             <-> Forall (fun e' => ~ truncatedMatch e' url) l).
  { intros l. apply Forall_iff. intros e.
    rewrite <- rootMatches_truncatedMatch. symmetry. apply not_true_iff_false. }
  split; [apply getRootPaths_sorted|].
  split; [apply getRootPaths_length|].
  split.
  { intros i. rewrite findRouteIndex_first.
    split; intros (pre & e & post & H1 & H2 & H3 & H4);
      exists pre, e, post; repeat split; auto;
      first [apply Hno, H2 | apply rootMatches_truncatedMatch, H3]. }
  split.
  { rewrite findRouteIndex_none, Hno, Forall_forall. reflexivity. }
  split.
  { intros e He Hm. apply rootMatches_truncatedMatch in Hm.
    destruct (findRouteIndex_longest rootRoutes url e
                (getRootPaths_sorted routes) He Hm) as (e' & ? & ? & ? & ?).
    exists e'. repeat split; auto. apply rootMatches_truncatedMatch; auto. }
  split.
  { intros e rest He Hp Hm. apply rootMatches_truncatedMatch in Hm.
    apply rootMatches_prefix in Hm; [|eapply getRootPaths_length, He].
    rewrite Hp in Hm. destruct Hm as [Hm|Hm]; simpl in Hm; discriminate. }
  vm_compute. reflexivity.
Qed.

(** ** Dry matches *)

Lemma setRouteDryMatch_unfold (splitedUrl : list string) (route : ApiMockRoute)
    (pathOfRoute : string) (routes : list ApiMockRoute) :
  setRouteDryMatch splitedUrl route pathOfRoute routes =
  let routes' := routes ++ [route] in
  let accumulated := accumulatedPath pathOfRoute route in
  let splitedRoute := split accumulated "/" in
  let countPartOfUrl := Z.of_nat (length splitedUrl) in
  let countPartOfRoute := Z.of_nat (length splitedRoute) in
  let lastElement := default EmptyString (last splitedRoute) in
  let isPk := isPrimaryKeyPart lastElement in
  if (countPartOfUrl >? countPartOfRoute)%Z then
    childrenMatches splitedUrl route pathOfRoute routes
  else if (countPartOfUrl <? countPartOfRoute - 1)%Z then []
  else if (countPartOfUrl =? countPartOfRoute - 1)%Z then
    if isPk then
      [ {| splitedUrl := splitedUrl;
           splitedRoute := removelast splitedRoute;
           routes := routes';
           hasLastRestId := false;
           lastPrimaryKey := sliceFrom lastElement 1 |} ]
    else []
  else
    [ {| splitedUrl := splitedUrl;
         splitedRoute := splitedRoute;
         routes := routes';
         hasLastRestId := isPk;
         lastPrimaryKey := if isPk then sliceFrom lastElement 1 else EmptyString |} ].
Proof.
  destruct route as [p dc pl rc ig cs h]. unfold childrenMatches.
  destruct cs; reflexivity.
Qed.

(** Induction on a route tree: a property holds of every route when it
    holds of a route whose children all have it. *)
Lemma route_tree_ind (P : ApiMockRoute -> Prop) :
  (forall r, (forall cs, children r = Some cs -> Forall P cs) -> P r) ->
  forall r, P r.
Proof.
  intros step. fix IH 1. intros [p dc pl rc ig cs h].
  apply step. simpl. destruct cs as [l|].
  - assert (HF : Forall P l).
    { induction l as [|c l IHl]; constructor; [apply IH | exact IHl]. }
    intros cs' [= <-]. exact HF.
  - intros cs' [=].
Qed.

(** Every match pushed at or below a node carries the chain of routes
    down to that node, the node included. *)
Lemma setRouteDryMatch_chain (splitedUrl : list string) (route : ApiMockRoute) :
  forall (pathOfRoute : string) (above : list ApiMockRoute) (m : RouteDryMatch),
    m ∈ setRouteDryMatch splitedUrl route pathOfRoute above ->
    (above ++ [route]) `prefix_of` routes m.
Proof.
  induction route as [route IH] using route_tree_ind.
  intros pathOfRoute above m. rewrite setRouteDryMatch_unfold. cbv zeta.
  repeat case_match; rewrite ?elem_of_nil, ?list_elem_of_singleton;
    try contradiction; try (intros ->; reflexivity).
  unfold childrenMatches. rewrite list_elem_of_In, in_flat_map.
  intros (child & Hchild & Hm).
  destruct (children route) as [cs|] eqn:Hcs; [|contradiction].
  specialize (IH cs eq_refl). rewrite Forall_forall in IH.
  apply list_elem_of_In in Hchild, Hm.
  eapply prefix_app_l, IH; eauto.
Qed.

(** ** Splitting and joining *)

Lemma splitFrom_nonempty (sep : string) (skip : nat) (s : string) :
  splitFrom sep skip s <> [].
Proof.
  revert skip. induction s as [|c s IH]; intros skip; cbn [splitFrom];
    [intros [=]|].
  destruct skip; [|apply IH].
  destruct (String.prefix sep (String c s)); [intros [=]|].
  destruct (splitFrom sep 0 s); intros [=].
Qed.

Lemma split_length_pos (s sep : string) : 0 < length (split s sep).
Proof.
  unfold split. pose proof (splitFrom_nonempty sep 0 s).
  destruct (splitFrom sep 0 s); [congruence | simpl; lia].
Qed.

Lemma join_cons_char (sep : string) (c : ascii) (h : string) (t : list string) :
  join sep (String c h :: t) = String c (join sep (h :: t)).
Proof. destruct t; reflexivity. Qed.

Lemma prefix_one_char (a c : ascii) (s : string) :
  String.prefix (String a EmptyString) (String c s) = true -> a = c.
Proof.
  cbn [String.prefix]. destruct (ascii_dec a c); [auto | discriminate].
Qed.

(** Joining the segments of a text with the separator gives it back. *)
Lemma join_split (s : string) : join "/" (split s "/") = s.
Proof.
  unfold split. induction s as [|c s IH]; [reflexivity|].
  cbn [splitFrom]. destruct (String.prefix "/" (String c s)) eqn:E.
  - cbn [String.length Nat.sub].
    apply prefix_one_char in E. subst c.
    pose proof (splitFrom_nonempty "/" 0 s) as Hne.
    destruct (splitFrom "/" 0 s) as [|h t] eqn:Hs; [congruence|].
    change (join "/" (EmptyString :: h :: t)) with ("/" +:+ join "/" (h :: t)).
    rewrite IH. reflexivity.
  - pose proof (splitFrom_nonempty "/" 0 s) as Hne.
    destruct (splitFrom "/" 0 s) as [|h t] eqn:Hs; [congruence|].
    rewrite join_cons_char, IH. reflexivity.
Qed.

Lemma prefix_same_char (a : ascii) (s : string) :
  String.prefix (String a EmptyString) (String a s) = true.
Proof.
  cbn [String.prefix]. destruct (ascii_dec a a); [|congruence].
  destruct s; reflexivity.
Qed.

Lemma split_cons_sep (s : string) :
  split (String "/" s) "/" = EmptyString :: split s "/".
Proof. unfold split. cbn [splitFrom]. rewrite prefix_same_char. reflexivity. Qed.

Lemma split_cons_other (c : ascii) (s : string) :
  c <> "/"%char ->
  split (String c s) "/"
  = match split s "/" with
    | h :: t => String c h :: t
    | [] => [String c EmptyString]
    end.
Proof.
  intros Hc. unfold split. cbn [splitFrom].
  destruct (String.prefix "/" (String c s)) eqn:E; [|reflexivity].
  apply prefix_one_char in E. congruence.
Qed.

Lemma split_app_sep (a b : string) :
  split (a +:+ "/" +:+ b) "/" = split a "/" ++ split b "/".
Proof.
  induction a as [|c a IH].
  - change (EmptyString +:+ "/" +:+ b) with (String "/" b).
    rewrite split_cons_sep. reflexivity.
  - rewrite append_cons. destruct (ascii_dec c "/") as [->|Hc].
    + rewrite !split_cons_sep, IH. reflexivity.
    + rewrite !split_cons_other by exact Hc. rewrite IH.
      pose proof (split_length_pos a "/") as Hpos.
      destruct (split a "/") as [|h t]; [simpl in Hpos; lia | reflexivity].
Qed.

Lemma isPrimaryKeyPart_cons (c : ascii) (s : string) :
  isPrimaryKeyPart (String c s) = true <-> c = ":"%char.
Proof.
  unfold isPrimaryKeyPart, charAt.
  assert (H : substring 0 1 (String c s) = String c EmptyString)
    by (destruct s; reflexivity).
  rewrite H, String.eqb_eq. split; [intros [= ->] | intros ->]; reflexivity.
Qed.

Lemma isPrimaryKeyPart_other (c : ascii) (s : string) :
  c <> ":"%char -> isPrimaryKeyPart (String c s) = false.
Proof.
  intros Hc. destruct (isPrimaryKeyPart (String c s)) eqn:E; [|reflexivity].
  apply isPrimaryKeyPart_cons in E. contradiction.
Qed.

(** ** The four cases of the dry match *)

Lemma append_assoc3 (a b c : string) : (a +:+ b) +:+ c = a +:+ (b +:+ c).
Proof.
  induction a as [|x a IH]; [reflexivity|]. rewrite !append_cons, IH. reflexivity.
Qed.

(** The open segment is the head of what is read from there on. *)
Lemma segmentsFrom_open (current s : string) :
  segmentsFrom current s
  = match segments s with
    | h :: t => (current +:+ h) :: t
    | [] => [current]
    end.
Proof.
  unfold segments. revert current.
  induction s as [|c s IH]; intros current; cbn [segmentsFrom].
  - rewrite append_empty_r. reflexivity.
  - destruct (isSlash c).
    + rewrite append_empty_r. reflexivity.
    + rewrite (IH (current +:+ String c EmptyString)).
      rewrite (IH (EmptyString +:+ String c EmptyString)).
      destruct (segmentsFrom EmptyString s) as [|h t]; [reflexivity|].
      rewrite append_assoc3. reflexivity.
Qed.

Lemma isSlash_spec (c : ascii) : isSlash c = true <-> c = "/"%char.
Proof. unfold isSlash. apply Ascii.eqb_eq. Qed.

(** [split] on ['/'] gives the segments. *)
Lemma split_segments (s : string) : split s "/" = segments s.
Proof.
  induction s as [|c s IH]; [reflexivity|].
  unfold segments. cbn [segmentsFrom].
  destruct (isSlash c) eqn:E.
  - apply isSlash_spec in E. subst c. rewrite split_cons_sep, IH. reflexivity.
  - assert (Hc : c <> "/"%char).
    { intros ->. discriminate E. }
    rewrite (split_cons_other c s Hc), IH.
    rewrite segmentsFrom_open.
    destruct (segments s) as [|h t]; reflexivity.
Qed.

Lemma segments_length (s : string) : length (segments s) = segmentCount s.
Proof.
  unfold segmentCount.
  induction s as [|c s IH]; [reflexivity|].
  unfold segments. cbn [segmentsFrom separators].
  destruct (isSlash c).
  - cbn [length]. fold (segments s). rewrite IH. reflexivity.
  - rewrite segmentsFrom_open.
    destruct (segments s) as [|h t]; [discriminate IH|]. exact IH.
Qed.

Lemma separators_append (a b : string) :
  separators (a +:+ b) = separators a + separators b.
Proof.
  induction a as [|c a IH]; [reflexivity|]. rewrite append_cons.
  cbn [separators]. rewrite IH. lia.
Qed.

Lemma segments_no_separator (s : string) :
  Forall (fun segment => separators segment = 0) (segments s).
Proof.
  induction s as [|c s IH]; [repeat constructor|].
  unfold segments. cbn [segmentsFrom].
  destruct (isSlash c) eqn:E.
  - constructor; [reflexivity | exact IH].
  - rewrite segmentsFrom_open.
    change (EmptyString +:+ String c EmptyString) with (String c EmptyString).
    destruct (segments s) as [|h t].
    + repeat constructor. cbn [separators]. rewrite E. reflexivity.
    + inversion IH as [|? ? Hh Ht]; subst. constructor; [|exact Ht].
      rewrite separators_append. cbn [separators]. rewrite E, Hh. reflexivity.
Qed.

Lemma join_segments (s : string) : join "/" (segments s) = s.
Proof. rewrite <- split_segments. apply join_split. Qed.

Lemma isPrimaryKeyPart_colon (s : string) :
  isPrimaryKeyPart s = startsWithColon s.
Proof.
  destruct s as [|c s]; [reflexivity|]. cbn [startsWithColon].
  destruct (Ascii.eqb c ":") eqn:E.
  - apply Ascii.eqb_eq in E. apply isPrimaryKeyPart_cons. exact E.
  - apply isPrimaryKeyPart_other. intros ->. rewrite Ascii.eqb_refl in E.
    discriminate E.
Qed.

Lemma sliceFrom_afterColon (s : string) : sliceFrom s 1 = afterColon s.
Proof.
  destruct s as [|c s]; [reflexivity|]. unfold sliceFrom.
  cbn [String.length substring afterColon]. apply substring_0_all. lia.
Qed.

(** C2.  The segments of a text are the texts between its ['/']
    separators, one more than there are separators; a route segment names
    a primary key when it starts with [':'], and the name is what follows
    the colon.  At every node the dry match visits, with [countUrl] the
    number of segments of the URL and [countRoute] that of the accumulated
    route path: when [countUrl > countRoute] the matches are exactly those
    of the children, each for a node strictly below this one, and none is
    pushed for this node; when [countUrl < countRoute - 1] nothing is
    pushed; when [countUrl = countRoute - 1] one match without a trailing
    id is pushed if the last segment of the route starts with [':'], its
    name being the trailing primary key, and nothing otherwise; when the
    counts are equal one match is always pushed, and it has a trailing id
    exactly when the last segment of the route starts with [':'].  On the
    route [posts/:id] with the child [comments/:commentId], the URLs
    [posts], [posts/5], [posts/5/comments] and [posts/5/comments/7] have
    the one match of their case, and a URL one segment deeper has none;
    [posts] has no match on [posts/featured/:id] and none on [posts/all],
    and [posts/all] has one on [posts/all], without a primary key. *)
Theorem C2_dry_match_four_cases :
  forall (url : string) (route : ApiMockRoute) (pathOfRoute : string)
         (above : list ApiMockRoute),
    let routePath := accumulatedPath pathOfRoute route in
    let countUrl := segmentCount url in
    let countRoute := segmentCount routePath in
    let lastElement := default EmptyString (last (segments routePath)) in
    let pushed := setRouteDryMatch (split url "/") route pathOfRoute above in
    (forall s : string,
       split s "/" = segments s
       /\ length (segments s) = segmentCount s
       /\ join "/" (segments s) = s
       /\ Forall (fun segment => separators segment = 0) (segments s))
    /\ (forall s : string,
          isPrimaryKeyPart s = startsWithColon s
          /\ (startsWithColon s = true -> s = String ":" (afterColon s)))
    /\ getRouteDryMatch url route
       = setRouteDryMatch (split url "/") route
           (default EmptyString (host route)) []
    /\ (countRoute < countUrl ->
          pushed = childrenMatches (segments url) route pathOfRoute above
          /\ forall m, m ∈ pushed -> length above + 1 < length (routes m))
    /\ (countUrl + 1 < countRoute -> pushed = [])
    /\ (countUrl + 1 = countRoute ->
          pushed =
          if startsWithColon lastElement then
            [ {| splitedUrl := segments url;
                 splitedRoute := removelast (segments routePath);
                 routes := above ++ [route];
                 hasLastRestId := false;
                 lastPrimaryKey := afterColon lastElement |} ]
          else [])
    /\ (countUrl = countRoute ->
          pushed =
          [ {| splitedUrl := segments url;
               splitedRoute := segments routePath;
               routes := above ++ [route];
               hasLastRestId := startsWithColon lastElement;
               lastPrimaryKey := if startsWithColon lastElement
                                 then afterColon lastElement
                                 else EmptyString |} ])
    /\ getRouteDryMatch "posts" Sample.postsWithComments
       = [ {| splitedUrl := ["posts"]; splitedRoute := ["posts"];
              routes := [Sample.postsWithComments];
              hasLastRestId := false; lastPrimaryKey := "id" |} ]
    /\ getRouteDryMatch "posts/5" Sample.postsWithComments
       = [ {| splitedUrl := ["posts"; "5"]; splitedRoute := ["posts"; ":id"];
              routes := [Sample.postsWithComments];
              hasLastRestId := true; lastPrimaryKey := "id" |} ]
    /\ getRouteDryMatch "posts/5/comments" Sample.postsWithComments
       = [ {| splitedUrl := ["posts"; "5"; "comments"];
              splitedRoute := ["posts"; ":id"; "comments"];
              routes := [Sample.postsWithComments; Sample.comments];
              hasLastRestId := false; lastPrimaryKey := "commentId" |} ]
    /\ getRouteDryMatch "posts/5/comments/7" Sample.postsWithComments
       = [ {| splitedUrl := ["posts"; "5"; "comments"; "7"];
              splitedRoute := ["posts"; ":id"; "comments"; ":commentId"];
              routes := [Sample.postsWithComments; Sample.comments];
              hasLastRestId := true; lastPrimaryKey := "commentId" |} ]
    /\ getRouteDryMatch "posts/5/comments/7/replies" Sample.postsWithComments = []
    /\ getRouteDryMatch "posts" Sample.featured = []
    /\ getRouteDryMatch "posts" (Sample.leaf "posts/all") = []
    /\ getRouteDryMatch "posts/all" (Sample.leaf "posts/all")
       = [ {| splitedUrl := ["posts"; "all"]; splitedRoute := ["posts"; "all"];
              routes := [Sample.leaf "posts/all"];
              hasLastRestId := false; lastPrimaryKey := EmptyString |} ].
Proof.
  intros url route pathOfRoute above routePath countUrl countRoute lastElement pushed.
  assert (Hu : Z.of_nat (length (split url "/")) = Z.of_nat countUrl).
  { unfold countUrl. rewrite split_segments, segments_length. reflexivity. }
  assert (Hr : Z.of_nat (length (split routePath "/")) = Z.of_nat countRoute).
  { unfold countRoute. rewrite split_segments, segments_length. reflexivity. }
  assert (Hpushed : pushed
    = if (Z.of_nat countUrl >? Z.of_nat countRoute)%Z then
        childrenMatches (segments url) route pathOfRoute above
      else if (Z.of_nat countUrl <? Z.of_nat countRoute - 1)%Z then []
      else if (Z.of_nat countUrl =? Z.of_nat countRoute - 1)%Z then
        if startsWithColon lastElement then
          [ {| splitedUrl := segments url;
               splitedRoute := removelast (segments routePath);
               routes := above ++ [route];
               hasLastRestId := false;
               lastPrimaryKey := afterColon lastElement |} ]
        else []
      else
        [ {| splitedUrl := segments url;
             splitedRoute := segments routePath;
             routes := above ++ [route];
             hasLastRestId := startsWithColon lastElement;
             lastPrimaryKey := if startsWithColon lastElement
                               then afterColon lastElement
                               else EmptyString |} ]).
  { unfold pushed. rewrite setRouteDryMatch_unfold. cbv zeta.
    fold routePath. rewrite Hu, Hr.
    rewrite !(split_segments routePath), !(split_segments url).
    fold lastElement.
    rewrite !isPrimaryKeyPart_colon, !sliceFrom_afterColon. reflexivity. }
  split.
  { intros s. split; [apply split_segments|]. split; [apply segments_length|].
    split; [apply join_segments | apply segments_no_separator]. }
  split.
  { intros s. split; [apply isPrimaryKeyPart_colon|].
    destruct s as [|c s]; [discriminate|]. cbn [startsWithColon afterColon].
    intros E. apply Ascii.eqb_eq in E. subst c. reflexivity. }
  split; [reflexivity|].
  split; [|split; [|split; [|split]]].
  - intros Hlt. rewrite Hpushed.
    destruct (Z.gtb_spec (Z.of_nat countUrl) (Z.of_nat countRoute)); [|lia].
    split; [reflexivity|]. intros m.
    unfold childrenMatches. rewrite list_elem_of_In, in_flat_map.
    intros (child & _ & Hm). apply list_elem_of_In, setRouteDryMatch_chain in Hm.
    apply prefix_length in Hm. rewrite !length_app in Hm. simpl in Hm. lia.
  - intros Hlt. rewrite Hpushed.
    destruct (Z.gtb_spec (Z.of_nat countUrl) (Z.of_nat countRoute)); [lia|].
    destruct (Z.ltb_spec (Z.of_nat countUrl) (Z.of_nat countRoute - 1));
      [reflexivity | lia].
  - intros Heq. rewrite Hpushed.
    destruct (Z.gtb_spec (Z.of_nat countUrl) (Z.of_nat countRoute)); [lia|].
    destruct (Z.ltb_spec (Z.of_nat countUrl) (Z.of_nat countRoute - 1)); [lia|].
    destruct (Z.eqb_spec (Z.of_nat countUrl) (Z.of_nat countRoute - 1));
      [reflexivity | lia].
  - intros Heq. rewrite Hpushed.
    destruct (Z.gtb_spec (Z.of_nat countUrl) (Z.of_nat countRoute)); [lia|].
    destruct (Z.ltb_spec (Z.of_nat countUrl) (Z.of_nat countRoute - 1)); [lia|].
    destruct (Z.eqb_spec (Z.of_nat countUrl) (Z.of_nat countRoute - 1));
      [lia | reflexivity].
  - repeat split; vm_compute; reflexivity.
Qed.

(** ** Chains *)

(** The loop of [getChainParams], turn by turn: the links of the tokens
    in order, and the literal segments of the URL and of the route. *)
Lemma chainStep_fold (m : RouteDryMatch) (ips : list (nat * string)) :
  forall acc : ChainAcc,
    fold_left (chainStep (splitedUrl m) (routes m)) ips acc =
    {| chainParams :=
         chainParams acc ++
         imap (fun k => tokenLink boundId m (length (chainParams acc) + k))
           (List.filter (fun ip => isPrimaryKeyPart (snd ip)) ips);
       partsOfUrl :=
         partsOfUrl acc ++
         map (fun ip => splitedUrl m !! fst ip)
           (List.filter (fun ip => negb (isPrimaryKeyPart (snd ip))) ips);
       partsOfRoute :=
         partsOfRoute acc ++
         map snd (List.filter (fun ip => negb (isPrimaryKeyPart (snd ip))) ips) |}.
Proof.
  induction ips as [|[i part] ips IH]; intros [cps pu pr]; simpl.
  - rewrite !app_nil_r. reflexivity.
  - rewrite IH. destruct (isPrimaryKeyPart part) eqn:E; simpl.
    + f_equal. rewrite <- app_assoc. f_equal. simpl.
      rewrite Nat.add_0_r. f_equal.
      apply imap_ext. intros k x _. simpl.
      rewrite length_app. simpl. f_equal. lia.
    + f_equal; rewrite <- app_assoc; reflexivity.
Qed.

Lemma getChainParams_spec (m : RouteDryMatch) :
  getChainParams m =
  if String.eqb (literalRoute m) (literalUrl m) then Some (chainOf m) else None.
Proof.
  unfold getChainParams. rewrite chainStep_fold. simpl.
  unfold literalRoute, literalUrl, literalParts, positioned.
  destruct (String.eqb _ _); [|reflexivity].
  unfold chainOf, chainWith, tokenParts, positioned.
  destruct (hasLastRestId m); rewrite ?app_nil_r; reflexivity.
Qed.

(** What every dry match of a URL looks like: it carries the segments of
    the URL, its route has as many segments, and when it has a trailing
    id the last segment of its route is a token. *)
Lemma setRouteDryMatch_shape (splitedUrl0 : list string) (route : ApiMockRoute) :
  forall (pathOfRoute : string) (above : list ApiMockRoute) (m : RouteDryMatch),
    m ∈ setRouteDryMatch splitedUrl0 route pathOfRoute above ->
    splitedUrl m = splitedUrl0
    /\ length (splitedRoute m) = length splitedUrl0
    /\ (hasLastRestId m = true ->
        exists init seg, splitedRoute m = init ++ [seg]
                         /\ isPrimaryKeyPart seg = true).
Proof.
  induction route as [route IH] using route_tree_ind.
  intros pathOfRoute above m. rewrite setRouteDryMatch_unfold. cbv zeta.
  pose proof (split_length_pos (accumulatedPath pathOfRoute route) "/") as Hpos.
  set (sr := split (accumulatedPath pathOfRoute route) "/") in *.
  destruct (Z.gtb_spec (Z.of_nat (length splitedUrl0)) (Z.of_nat (length sr))).
  { unfold childrenMatches. rewrite list_elem_of_In, in_flat_map.
    intros (child & Hchild & Hm).
    destruct (children route) as [cs|] eqn:Hcs; [|contradiction].
    specialize (IH cs eq_refl). rewrite Forall_forall in IH.
    apply list_elem_of_In in Hchild, Hm. eapply IH; eauto. }
  destruct (Z.ltb_spec (Z.of_nat (length splitedUrl0)) (Z.of_nat (length sr) - 1)).
  { rewrite elem_of_nil. contradiction. }
  destruct (Z.eqb_spec (Z.of_nat (length splitedUrl0)) (Z.of_nat (length sr) - 1)).
  { destruct (isPrimaryKeyPart _); rewrite ?elem_of_nil, ?list_elem_of_singleton;
      [|contradiction].
    intros ->. simpl. repeat split; [|discriminate].
    rewrite removelast_firstn_len, length_take. lia. }
  rewrite list_elem_of_singleton. intros ->. simpl.
  repeat split; [lia|]. intros Hpk.
  destruct (last sr) as [seg|] eqn:Hlast.
  - apply last_Some in Hlast. destruct Hlast as [init ->].
    exists init, seg. split; [reflexivity | exact Hpk].
  - simpl in Hpk. discriminate.
Qed.

Lemma getRouteDryMatch_shape (url : string) (rootRoute : ApiMockRoute)
    (m : RouteDryMatch) :
  m ∈ getRouteDryMatch url rootRoute ->
  splitedUrl m = split url "/"
  /\ length (splitedRoute m) = length (split url "/")
  /\ (hasLastRestId m = true ->
      exists init seg, splitedRoute m = init ++ [seg]
                       /\ isPrimaryKeyPart seg = true).
Proof. apply setRouteDryMatch_shape. Qed.

(** The last link of a chain whose match has a trailing id is the link
    of the last segment of the route. *)
Lemma chainWith_last_token (bind : option string -> option string)
    (m : RouteDryMatch) (init : list string) (seg : string) :
  hasLastRestId m = true ->
  splitedRoute m = init ++ [seg] -> isPrimaryKeyPart seg = true ->
  exists k, last (chainWith bind m) = Some (tokenLink bind m k (length init, seg)).
Proof.
  intros Hlast Hsr Hpk. unfold chainWith, tokenParts, positioned.
  rewrite Hlast, app_nil_r, Hsr, imap_app, List.filter_app. simpl.
  rewrite Nat.add_0_r, Hpk, imap_app. simpl.
  eexists. apply last_snoc.
Qed.

(** C3, the claim as stated.  The URL [posts/] matches the route
    [posts/:id] with a trailing id: its literal segments fit, the chain
    has the one link of the token [:id] at position 1, and the URL segment
    at that position is the empty string; yet the link has no resource id.
    The chain is not the one the claim describes. *)
Lemma C3_counterexample_empty_segment :
  getRouteDryMatch "posts/" Sample.posts = [Sample.trailingSlash]
  /\ literalUrl Sample.trailingSlash = literalRoute Sample.trailingSlash
  /\ splitedUrl Sample.trailingSlash !! 1 = Some EmptyString
  /\ last (split "posts/" "/") = Some EmptyString
  /\ restId <$> (getChainParams Sample.trailingSlash ≫= last) = Some None
  /\ getChainParams Sample.trailingSlash
     <> Some (chainAsStated Sample.trailingSlash).
Proof.
  repeat split; try (vm_compute; reflexivity).
  vm_compute. intros [=].
Qed.

(** C3, amended.  [getChainParams] returns a chain exactly when the URL
    segments aligned with the literal segments of the route, joined with
    ['/'], equal those literal segments joined with ['/'].  The returned
    chain has, for each [':']-token at a position [i], in order, a link
    whose resource id is the URL segment at [i] when that segment is not
    empty and is absent when it is empty, and whose cache key is the URL
    segments before [i] joined with ['/']; when the match has no trailing
    id one more link follows, with the full URL as cache key and no
    resource id.  So for a URL that matches a route ending in [/:id] the
    resource id of the last link is the last segment of the URL when that
    segment is not empty, and is absent when it is empty. *)
Theorem C3_chain_params :
  forall m : RouteDryMatch,
    (is_Some (getChainParams m) <-> literalUrl m = literalRoute m)
    /\ (forall chain,
          getChainParams m = Some chain ->
          chain = imap (tokenLink boundId m) (tokenParts m)
                  ++ (if hasLastRestId m then [] else [finalLink m]))
    /\ (forall url rootRoute chain,
          m ∈ getRouteDryMatch url rootRoute ->
          getChainParams m = Some chain ->
          exists c,
            last chain = Some c
            /\ if hasLastRestId m
               then (forall s, last (split url "/") = Some s ->
                               s <> EmptyString -> restId c = Some s)
                    /\ (last (split url "/") = Some EmptyString ->
                        restId c = None)
               else cacheKey c = url /\ restId c = None).
Proof.
  intros m. pose proof (getChainParams_spec m) as Hspec.
  split; [|split].
  - rewrite Hspec. destruct (String.eqb_spec (literalRoute m) (literalUrl m)) as [E|E].
    + split; [intros _; congruence | intros _; eexists; reflexivity].
    + split; [intros [? [=]] | intros E'; congruence].
  - intros chain Hc. rewrite Hspec in Hc.
    destruct (String.eqb _ _); [|discriminate].
    injection Hc as <-. reflexivity.
  - intros url rootRoute chain Hm Hc.
    destruct (getRouteDryMatch_shape url rootRoute m Hm) as (Hsu & Hlen & Htok).
    rewrite Hspec in Hc. destruct (String.eqb _ _); [|discriminate].
    injection Hc as <-. unfold chainOf.
    destruct (hasLastRestId m) eqn:Hlast.
    + destruct (Htok eq_refl) as (init & seg & Hsr & Hpk).
      destruct (chainWith_last_token boundId m init seg Hlast Hsr Hpk) as [k Hk].
      eexists. split; [exact Hk|]. simpl.
      assert (Hseg : splitedUrl m !! length init = last (split url "/")).
      { rewrite last_lookup, <- Hlen, Hsr, length_app, Hsu. simpl.
        f_equal. lia. }
      rewrite Hseg. split.
      * intros s -> Hs. simpl. destruct s; [congruence | reflexivity].
      * intros ->. reflexivity.
    + unfold chainWith. rewrite Hlast. eexists. split; [apply last_snoc|].
      simpl. rewrite Hsu, join_split. split; reflexivity.
Qed.

(** ** Objects *)


Section objects.

Implicit Types (o target source : ObjectAny) (k : string) (v : JsValue).

Lemma getProp_setProp_eq o k v : getProp (setProp o k v) k = v.
Proof.
  induction o as [|[k' v'] o IH]; simpl.
  - rewrite String.eqb_refl. reflexivity.
  - destruct (String.eqb k' k) eqn:E; simpl; rewrite E; auto.
Qed.





Lemma getProp_absent o k : hasProp o k = false -> getProp o k = JUndefined.
Proof.
  induction o as [|[k0 v0] o IH]; simpl; auto.
  destruct (String.eqb k0 k); simpl; [discriminate | exact IH].
Qed.








Lemma hasProp_cloneObject_false o k :
  hasProp o k = false -> hasProp (cloneObject o) k = false.
Proof.
  unfold cloneObject. cbn [clone].
  induction o as [|[k0 v0] o IH]; simpl; intros H; [reflexivity|].
  apply orb_false_iff in H. destruct H as [H0 H].
  destruct v0; simpl; rewrite ?H0; simpl; apply IH, H.
Qed.

End objects.

(** [findIndex] answers with the first position that passes the test. *)
Lemma findIndex_Some {A : Type} (f : A -> bool) (l : list A) (i : nat) :
  findIndex f l = Some i
  <-> exists x, l !! i = Some x /\ f x = true
                /\ forall j y, j < i -> l !! j = Some y -> f y = false.
Proof.
  revert i. induction l as [|a l IH]; intros i; simpl.
  - split; [discriminate|]. intros (x & H & _). discriminate.
  - destruct (f a) eqn:E.
    + split.
      * intros [= <-]. exists a. repeat split; auto. intros j y Hj. lia.
      * intros (x & Hx & Hfx & Hfirst). destruct i as [|i]; [reflexivity|].
        specialize (Hfirst 0 a ltac:(lia) eq_refl). congruence.
    + destruct (findIndex f l) as [n|] eqn:En; simpl.
      * split.
        -- intros [= <-]. destruct (proj1 (IH n) eq_refl) as (x & Hx & Hfx & Hfirst).
           exists x. repeat split; auto.
           intros [|j] y Hj Hy; simpl in Hy; [congruence|].
           apply (Hfirst j y); [lia | exact Hy].
        -- intros (x & Hx & Hfx & Hfirst). destruct i as [|i]; simpl in Hx.
           ++ congruence.
           ++ f_equal. assert (Hi : Some n = Some i); [|congruence].
              apply IH. exists x. repeat split; auto.
              intros j y Hj Hy. apply (Hfirst (S j) y); [lia | exact Hy].
      * split; [discriminate|].
        intros (x & Hx & Hfx & Hfirst). destruct i as [|i]; simpl in Hx.
        -- congruence.
        -- assert (Hn : None = Some i); [|discriminate].
           apply IH. exists x. repeat split; auto.
           intros j y Hj Hy. apply (Hfirst (S j) y); [lia | exact Hy].
Qed.


(** ** Doubles *)

Lemma roundHalfEven_exact (n : Z) : roundHalfEven n 1 = n.
Proof.
  unfold roundHalfEven. rewrite Z.div_1_r, Z.mod_1_r. reflexivity.
Qed.

Lemma roundHalfEven_multiple (q d : Z) :
  (0 < d)%Z -> roundHalfEven (q * d) d = q.
Proof.
  intros Hd. unfold roundHalfEven.
  rewrite Z.div_mul by lia. rewrite Z.mod_mul by lia.
  destruct (Z.ltb_spec (2 * 0) d); [reflexivity | lia].
Qed.

(** An integer up to [2 ^ 53] in magnitude is a double. *)
Lemma roundToDoubleQ_safe (z : Z) :
  (Z.abs z <= 2 ^ 53)%Z -> roundToDoubleQ z 1 = Some z.
Proof.
  intros Hz. unfold roundToDoubleQ.
  destruct (Z.eqb_spec (Z.abs z) 0) as [H0|H0].
  { f_equal. lia. }
  set (a := Z.abs z) in *.
  assert (Ha : (0 < a)%Z) by lia.
  change (Z.log2 1) with 0%Z. rewrite Z.sub_0_r.
  pose proof (Z.log2_spec a Ha) as [Hlo Hhi].
  pose proof (Z.log2_nonneg a) as Hl.
  set (l := Z.log2 a) in *.
  assert (Hl53 : (l <= 53)%Z).
  { destruct (Z.le_gt_cases l 53) as [H|H]; [exact H|].
    assert (2 ^ 54 <= 2 ^ l)%Z by (apply Z.pow_le_mono_r; lia).
    assert (2 ^ 53 < 2 ^ 54)%Z by (apply Z.pow_lt_mono_r; lia). lia. }
  destruct (Z.leb_spec 0 l) as [_|]; [|lia].
  rewrite !Z.mul_1_l.
  destruct (Z.leb_spec (2 ^ l) a) as [_|]; [|lia].
  rewrite Z.max_l by lia.
  assert (Hsgn : (Z.sgn z * a = z)%Z) by (unfold a; lia).
  destruct (Z.leb_spec 0 (l - 52)) as [He|He].
  - assert (Hcase : l = 52%Z \/ l = 53%Z) by lia.
    assert (Hv : (roundHalfEven a (2 ^ (l - 52)) * 2 ^ (l - 52) = a)%Z).
    { destruct Hcase as [->| ->].
      - change (2 ^ (52 - 52))%Z with 1%Z.
        rewrite roundHalfEven_exact. lia.
      - change (2 ^ (53 - 52))%Z with 2%Z.
        assert (a = 2 ^ 53)%Z as -> by lia.
        change (2 ^ 53)%Z with (2 ^ 52 * 2)%Z.
        rewrite roundHalfEven_multiple by lia. reflexivity. }
    rewrite Hv.
    assert (Hbig : (2 ^ 53 < 2 ^ 1024)%Z) by (apply Z.pow_lt_mono_r; lia).
    destruct (Z.leb_spec (2 ^ 1024) a); [lia|]. rewrite Hsgn. reflexivity.
  - rewrite roundHalfEven_exact.
    assert (Hp : (0 < 2 ^ (- (l - 52)))%Z) by (apply Z.pow_pos_nonneg; lia).
    rewrite Z.mod_mul by lia. rewrite Z.div_mul by lia.
    rewrite Z.eqb_refl, Hsgn. reflexivity.
Qed.

Lemma roundToDouble_safe (z : Z) :
  (Z.abs z <= 2 ^ 53)%Z -> roundToDouble z = z.
Proof.
  intros Hz. unfold roundToDouble. rewrite (roundToDoubleQ_safe z Hz). reflexivity.
Qed.

Lemma MAX_SAFE_INTEGER_value : (MAX_SAFE_INTEGER = 2 ^ 53 - 1)%Z.
Proof. reflexivity. Qed.

(** ** Identifiers *)

(** The loop of [genId] from any start: its result is the start or one
    of the numeric ids, and is below neither. *)
Lemma genId_fold (primaryKey : string) (items : list ObjectAny) :
  forall a : Z,
    let r := fold_left (fun prevId item =>
                          let currId := match getProp item primaryKey with
                                        | JNum n => n
                                        | _ => prevId
                                        end in
                          Z.max prevId currId) items a in
    (a <= r)%Z
    /\ (forall n, n ∈ numericIds primaryKey items -> (n <= r)%Z)
    /\ (r = a \/ r ∈ numericIds primaryKey items).
Proof.
  induction items as [|item items IH]; intros a; cbv zeta; simpl.
  - split; [lia|]. split; [|left; reflexivity].
    intros n Hn. apply elem_of_nil in Hn. contradiction.
  - set (a' := Z.max a _).
    destruct (IH a') as (Hle & Hall & Hor). cbv zeta in *.
    unfold numericIds in *. simpl.
    destruct (getProp item primaryKey) as [| |b|n|s|l|fs] eqn:E; simpl;
      try (assert (Ha : a' = a) by (unfold a'; lia); rewrite Ha in *;
           repeat split; auto).
    assert (Ha : (a <= a' /\ n <= a' /\ (a' = a \/ a' = n))%Z) by (unfold a'; lia).
    destruct Ha as (Ha1 & Ha2 & Ha3).
    split; [lia|]. split.
    + intros n' Hn'. apply elem_of_cons in Hn'.
      destruct Hn' as [->|Hn']; [lia | auto].
    + destruct Hor as [Hr|Hr].
      * destruct Ha3 as [Ha3|Ha3]; [left; congruence|].
        right. rewrite Hr, Ha3. left.
      * right. right. exact Hr.
Qed.

(** C8, the claim as stated.  In a collection whose one numeric id is
    [-5], the result is 1 and not one more than that maximum. *)
Lemma C8_counterexample_negative_ids :
  numericIds "id" [[("id", JNum (-5))]] = [(-5)%Z]
  /\ genId [[("id", JNum (-5))]] "id" = 1%Z
  /\ genId [[("id", JNum (-5))]] "id" <> (-5 + 1)%Z.
Proof. repeat split. vm_compute. intros [=]. Qed.

(** The loop of [genId] from [0] computes the largest of zero and the
    numeric ids. *)
Lemma foldr_max_start (a n : Z) (l : list Z) :
  foldr Z.max (Z.max a n) l = Z.max n (foldr Z.max a l).
Proof. induction l as [|x l IH]; simpl; [lia | rewrite IH; lia]. Qed.

Lemma genId_fold_largest (primaryKey : string) (items : list ObjectAny) :
  forall a : Z,
    fold_left (fun prevId item =>
                 let currId := match getProp item primaryKey with
                               | JNum n => n
                               | _ => prevId
                               end in
                 Z.max prevId currId) items a
    = foldr Z.max a (numericIds primaryKey items).
Proof.
  induction items as [|item items IH]; intros a; [reflexivity|].
  cbn [fold_left]. cbv zeta. rewrite IH.
  assert (Hids : numericIds primaryKey (item :: items)
                 = match getProp item primaryKey with
                   | JNum n => n :: numericIds primaryKey items
                   | _ => numericIds primaryKey items
                   end).
  { unfold numericIds. simpl. destruct (getProp item primaryKey); reflexivity. }
  rewrite Hids.
  destruct (getProp item primaryKey) as [| |b|n|s|l|fs];
    rewrite ?Z.max_id; try reflexivity.
  cbn [foldr]. apply foldr_max_start.
Qed.

Lemma largestOrZero_bounds (ids : list Z) :
  (0 <= largestOrZero ids)%Z
  /\ (forall n, n ∈ ids -> (n <= largestOrZero ids)%Z)
  /\ (largestOrZero ids = 0%Z \/ largestOrZero ids ∈ ids).
Proof.
  unfold largestOrZero. induction ids as [|x ids (H0 & Hall & Hor)]; simpl.
  - split; [lia|]. split; [|left; reflexivity].
    intros n Hn. apply elem_of_nil in Hn. contradiction.
  - split; [lia|]. split.
    + intros n Hn. apply elem_of_cons in Hn. destruct Hn as [->|Hn]; [lia|].
      specialize (Hall n Hn). lia.
    + destruct (Z.max_spec x (foldr Z.max 0%Z ids)) as [[_ ->] | [_ ->]].
      * destruct Hor as [Hz|Hin]; [left; exact Hz | right; right; exact Hin].
      * right. left.
Qed.

(** With safe ids, the addition of [genId] is exact. *)
Lemma genId_safe (primaryKey : string) (items : list ObjectAny) :
  safeIds primaryKey items ->
  genId items primaryKey
  = (largestOrZero (numericIds primaryKey items) + 1)%Z.
Proof.
  intros Hsafe. unfold genId. cbv zeta. rewrite genId_fold_largest.
  fold (largestOrZero (numericIds primaryKey items)).
  destruct (largestOrZero_bounds (numericIds primaryKey items))
    as (H0 & _ & Hor).
  apply roundToDouble_safe.
  assert (Hmax : (largestOrZero (numericIds primaryKey items)
                  <= MAX_SAFE_INTEGER)%Z).
  { destruct Hor as [->|Hin]; [unfold MAX_SAFE_INTEGER; lia|].
    unfold safeIds in Hsafe. rewrite Forall_forall in Hsafe. apply Hsafe, Hin. }
  rewrite MAX_SAFE_INTEGER_value in Hmax. lia.
Qed.

(** C8, amended.  For items whose numeric primary keys are safe integers
    at most (none above [Number.MAX_SAFE_INTEGER]), [genId] returns one
    more than the largest of zero and the numeric values the items hold
    under the primary key (an item with no number there adds nothing):
    it is greater than every numeric key, and it is 1 or one more than one
    of them.  It returns 1 for the empty list, and 1 for a collection
    whose numeric keys are all negative or zero.  Beyond the safe
    integers the addition rounds: for the one key [2 ^ 53] the result is
    [2 ^ 53] again. *)
Theorem C8_genId_next :
  forall (items : list ObjectAny) (primaryKey : string),
    let ids := numericIds primaryKey items in
    genId [] primaryKey = 1%Z
    /\ (safeIds primaryKey items ->
          genId items primaryKey = (largestOrZero ids + 1)%Z
          /\ (1 <= genId items primaryKey)%Z
          /\ (forall n, n ∈ ids -> (n < genId items primaryKey)%Z)
          /\ (genId items primaryKey = 1%Z
              \/ (genId items primaryKey - 1)%Z ∈ ids))
    /\ (Forall (fun n => (n <= 0)%Z) ids -> genId items primaryKey = 1%Z)
    /\ genId [[("id", JNum 3); ("title", JStr "a")]; [("id", JStr "9")];
              [("title", JStr "b")]; [("id", JNum 7)]; [("id", JNum 5)]] "id"
       = 8%Z
    /\ genId [[("id", JNum MAX_SAFE_INTEGER)]] "id" = (MAX_SAFE_INTEGER + 1)%Z
    /\ genId [[("id", JNum (MAX_SAFE_INTEGER + 1))]] "id"
       = (MAX_SAFE_INTEGER + 1)%Z.
Proof.
  intros items primaryKey ids.
  destruct (largestOrZero_bounds ids) as (H0 & Hall & Hor).
  split; [reflexivity|]. split; [|split].
  - intros Hsafe. rewrite (genId_safe primaryKey items Hsafe). fold ids.
    split; [reflexivity|]. split; [lia|]. split.
    + intros n Hn. specialize (Hall n Hn). lia.
    + destruct Hor as [->|Hin]; [left; reflexivity|].
      right. replace (largestOrZero ids + 1 - 1)%Z with (largestOrZero ids) by lia.
      exact Hin.
  - intros Hneg.
    assert (Hsafe : safeIds primaryKey items).
    { unfold safeIds. fold ids. eapply Forall_impl; [exact Hneg|].
      intros n Hn. unfold MAX_SAFE_INTEGER. cbv beta in Hn. lia. }
    rewrite (genId_safe primaryKey items Hsafe). fold ids.
    destruct Hor as [->|Hin]; [reflexivity|].
    rewrite Forall_forall in Hneg. specialize (Hneg _ Hin). lia.
  - repeat split; vm_compute; reflexivity.
Qed.

(** ** POST *)

(** C4.  On a collection URL (no bound id) of a route whose primary key
    is [id], from the empty collection: a POST whose body has no [id]
    stores the item with id 1 and returns 201 Created with the header
    [Location] set to the URL followed by [/1]; a second such POST stores
    its item with id 2; then a POST with the body [{id: 1}] returns 409
    Conflict and changes nothing when [postUpdate409] is set, and
    otherwise puts its item in the place of the item with id 1 and
    returns 204 No Content when [postUpdate204] is set, 200 OK with the
    item when it is not. *)
Theorem C4_post_sequence :
  forall (config : ApiMockConfig) (hdrs : HttpHeaders) (cp : ChainParam)
         (req1 req2 req3 : HttpRequest),
    primaryKey cp = "id" -> restId cp = None ->
    hasProp (default [] (body req1)) "id" = false ->
    hasProp (default [] (body req2)) "id" = false ->
    body req3 = Some [("id", JNum 1)] ->
    let item1 := setProp (requestItem req1) "id" (JNum 1) in
    let item2 := setProp (requestItem req2) "id" (JNum 2) in
    let item3 := [("id", JNum 1)] in
    post config req1 hdrs cp (WArray []) =
      inr (WArray [item1],
           respond (headersSet hdrs "Location" (url req1 +:+ "/1"))
             Status.CREATED (Some (JObj item1)))
    /\ getProp item1 "id" = JNum 1
    /\ post config req2 hdrs cp (WArray [item1]) =
       inr (WArray [item1; item2],
            respond (headersSet hdrs "Location" (url req2 +:+ "/2"))
              Status.CREATED (Some (JObj item2)))
    /\ getProp item2 "id" = JNum 2
    /\ post config req3 hdrs cp (WArray [item1; item2]) =
       if postUpdate409 config then
         inr (WArray [item1; item2],
              Refuse (makeError req3 Status.CONFLICT
                "Error 409: Conflict; item.id=1 exists and may not be updated with POST; use PUT instead."))
       else
         inr (WArray [item3; item2],
              if postUpdate204 config
              then respond hdrs Status.NO_CONTENT None
              else respond hdrs Status.OK (Some (JObj item3))).
Proof.
  intros config hdrs [ck rt pk rid] req1 req2 req3 Hpk Hrid H1 H2 H3 item1 item2 item3.
  simpl in Hpk, Hrid. subst pk rid.
  assert (G1 : getProp (requestItem req1) "id" = JUndefined).
  { apply getProp_absent, hasProp_cloneObject_false, H1. }
  assert (G2 : getProp (requestItem req2) "id" = JUndefined).
  { apply getProp_absent, hasProp_cloneObject_false, H2. }
  assert (I1 : getProp item1 "id" = JNum 1) by apply getProp_setProp_eq.
  assert (I2 : getProp item2 "id" = JNum 2) by apply getProp_setProp_eq.
  unfold item1, item2, item3 in *. clear item1 item2 item3.
  repeat split; auto.
  - unfold post. cbn [primaryKey restId isDefined truthyId nonEmpty negb].
    fold (requestItem req1). rewrite G1. cbn [asArray rbind].
    change (genId [] "id") with 1%Z. rewrite getProp_setProp_eq.
    reflexivity.
  - unfold post. cbn [primaryKey restId isDefined truthyId nonEmpty negb].
    fold (requestItem req2). rewrite G2. cbn [asArray rbind].
    assert (Hg : genId [setProp (requestItem req1) "id" (JNum 1)] "id" = 2%Z).
    { unfold genId. cbn [fold_left]. rewrite getProp_setProp_eq. reflexivity. }
    rewrite Hg, getProp_setProp_eq.
    cbn [findIndex]. unfold matchesId. rewrite getProp_setProp_eq. reflexivity.
  - unfold post. cbn [primaryKey restId isDefined truthyId nonEmpty negb].
    rewrite H3. cbn [default].
    change (cloneObject [("id", JNum 1)]) with [("id", JNum 1)].
    change (getProp [("id", JNum 1)] "id") with (JNum 1). cbn [asArray rbind].
    cbn [findIndex]. unfold matchesId. rewrite getProp_setProp_eq.
    change (looseEq (JNum 1) (JNum 1)) with true. cbv iota.
    destruct (postUpdate409 config); reflexivity.
Qed.

Lemma C4_post_sequence_witness :
  post defaultConfig Sample.postTitleA jsonHeaders (Sample.link None) (WArray [])
  = inr (WArray [[("title", JStr "a"); ("id", JNum 1)]],
         respond [("Content-Type", ["application/json"]); ("Location", ["posts/1"])]
           201 (Some (JObj [("title", JStr "a"); ("id", JNum 1)]))).
Proof.
  exact (proj1 (C4_post_sequence defaultConfig jsonHeaders (Sample.link None)
                  Sample.postTitleA Sample.postTitleB Sample.postId1
                  eq_refl eq_refl eq_refl eq_refl eq_refl)).
Defined.

(** ** DELETE *)





(** ** PUT and PATCH *)







(** ** Lookups by primary key *)





(** ** The store *)

Lemma setToLocalStorage_cache (key : string) (st : Store) :
  exists ls, setToLocalStorage key st
             = ({| cachedData := cachedData st; localStorage := ls |}, inr tt).
Proof.
  unfold setToLocalStorage, tryCatch, bind, getStore, setLocalStorage, raise.
  destruct st as [cd ls]. simpl.
  destruct ls as [| |d]; simpl; eauto;
    destruct (cd !! key) as [[[l|v] ro]|]; simpl; eauto.
Qed.




Lemma handleReq_resolve (config : ApiMockConfig) (routes : list ApiMockRoute)
    (req : HttpRequest) (chain : list ChainParam) :
  resolve routes req = Some chain ->
  handleReq config routes req = sendResponse config req chain.
Proof.
  unfold resolve, handleReq. cbv zeta.
  destruct (_ =? -1)%Z; [discriminate|].
  destruct (routes !! _) as [rootRoute|]; [|discriminate]. simpl.
  intros ->. reflexivity.
Qed.







(** ** Numbers in texts *)














(** ** Creating and reading back *)










(** ** What the handlers leave alone *)

Lemma findIndex_lt {A : Type} (f : A -> bool) (l : list A) (i : nat) :
  findIndex f l = Some i -> i < length l.
Proof.
  intros H. apply findIndex_Some in H. destruct H as (x & Hx & _).
  apply lookup_lt_Some in Hx. exact Hx.
Qed.

(** A request that is refused, and a GET, change nothing: whenever a
    handler answers with an error response, or the method is GET, the
    collection it returns is the one it was given. *)
Lemma callRequestMethod_keeps_data :
  forall (config : ApiMockConfig) (req : HttpRequest) (cp : ChainParam)
         (md : MockData) (w : WriteableData) (reply : Reply),
    callRequestMethod config req cp md = inr (w, reply) ->
    method req = GET \/ (exists e, reply = Refuse e) ->
    w = writeableData md.
Proof.
  intros config req [ck rt pk rid] [wd ro] w reply H Hcase.
  unfold callRequestMethod in H. cbn [writeableData] in *.
  assert (Hrefuse : forall h s b, respond h s b = reply -> method req <> GET -> False).
  { intros h s b <- Hm. destruct Hcase as [Hg | [e He]]; [auto | discriminate He]. }
  assert (Hput : forall m, method req = m -> m <> GET ->
            putOrPatch config req jsonHeaders
              {| cacheKey := ck; route := rt; primaryKey := pk; restId := rid |} wd
            = inr (w, reply) -> w = wd).
  { intros m Hm Hne Hp. rewrite Hm in Hrefuse.
    unfold putOrPatch in Hp. cbn [primaryKey restId] in Hp.
    destruct (negb (nonEmpty pk)); [injection Hp as <- _; reflexivity|].
    cbv zeta in Hp.
    destruct (negb (isDefined rid)); [injection Hp as <- _; reflexivity|].
    destruct (negb (looseEq _ _)); [injection Hp as <- _; reflexivity|].
    destruct wd as [l|v]; cbn [asArray rbind] in Hp; [|discriminate Hp].
    destruct (findIndex _ l).
    - injection Hp as _ Hp. exfalso.
      destruct (if isPut (method req) then _ else _); eapply Hrefuse; eauto.
    - destruct (putUpdate404 config || isPatch (method req));
        [injection Hp as <- _; reflexivity|].
      injection Hp as _ Hp. exfalso. eapply Hrefuse; eauto. }
  destruct (method req) eqn:Em;
    [ | injection H as <- _; reflexivity | | | | injection H as <- _; reflexivity ..| ].
  - (* GET *)
    unfold get in H. cbn [primaryKey restId writeableData readonlyData] in H.
    destruct (isDefined rid).
    + destruct wd as [l|v]; cbn [asArray rbind] in H; [|discriminate H].
      destruct (List.find _ l); injection H as <- _; reflexivity.
    + injection H as <- _. reflexivity.
  - (* POST *)
    unfold post in H. cbn [primaryKey restId] in H.
    destruct (isDefined rid); [injection H as <- _; reflexivity|].
    destruct (negb (nonEmpty pk)); [injection H as <- _; reflexivity|].
    destruct wd as [l|v]; cbn [asArray rbind] in H;
      [|destruct (getProp _ pk); discriminate H].
    cbv zeta in H.
    destruct (findIndex _ l).
    + destruct (postUpdate409 config); [injection H as <- _; reflexivity|].
      injection H as _ H. exfalso.
      destruct (postUpdate204 config); eapply Hrefuse; eauto; discriminate.
    + injection H as _ H. exfalso. eapply Hrefuse; eauto; discriminate.
  - (* PUT *)
    apply (Hput PUT eq_refl); [discriminate | exact H].
  - (* DELETE *)
    unfold delete in H. cbn [primaryKey restId] in H.
    destruct (negb (nonEmpty pk)); [injection H as <- _; reflexivity|].
    destruct (isDefined rid).
    + destruct wd as [l|v]; cbn [asArray rbind] in H; [|discriminate H].
      cbn [negb orb] in H.
      destruct (findIndex _ l) as [i|]; cbn [isDefined negb andb] in H.
      * cbn [asArray rbind] in H. injection H as _ H. exfalso.
        eapply Hrefuse; eauto; discriminate.
      * destruct (deleteNotFound404 config); injection H as <- _; reflexivity.
    + cbn [rbind negb orb] in H. injection H as <- _. reflexivity.
  - (* PATCH *)
    apply (Hput PATCH eq_refl); [discriminate | exact H].
Qed.

(** X4.  A handler touches at most one position of the collection.  When
    it returns, the collection is the one it was given with one item
    appended (exactly then the status is 201 Created), or with one item
    removed (only DELETE), or with the item at one position replaced, or
    unchanged. *)
Theorem X4_one_position :
  forall (config : ApiMockConfig) (req : HttpRequest) (cp : ChainParam)
         (data readonly : list ObjectAny) (w : WriteableData) (reply : Reply),
    callRequestMethod config req cp
      {| writeableData := WArray data; readonlyData := readonly |}
    = inr (w, reply) ->
    exists data', w = WArray data'
      /\ ((exists item, data' = data ++ [item]) /\ statusOf reply = Status.CREATED
          \/ (exists i, i < length data /\ data' = splice1 i data)
             /\ method req = DELETE /\ statusOf reply = Status.NO_CONTENT
          \/ (exists i item, i < length data /\ data' = <[i := item]> data)
             /\ method req <> DELETE /\ statusOf reply <> Status.CREATED
          \/ data' = data /\ statusOf reply <> Status.CREATED).
Proof.
  intros config req [ck rt pk rid] data ro w reply H.
  unfold callRequestMethod in H. cbn [writeableData] in H.
  assert (Hsame : forall s msg,
            @inr Exn _ (WArray data, Refuse (makeError req s msg)) = inr (w, reply) ->
            s <> Status.CREATED ->
            exists data', w = WArray data'
      /\ ((exists item, data' = data ++ [item]) /\ statusOf reply = Status.CREATED
          \/ (exists i, i < length data /\ data' = splice1 i data)
             /\ method req = DELETE /\ statusOf reply = Status.NO_CONTENT
          \/ (exists i item, i < length data /\ data' = <[i := item]> data)
             /\ method req <> DELETE /\ statusOf reply <> Status.CREATED
          \/ data' = data /\ statusOf reply <> Status.CREATED)).
  { intros s msg [= <- <-] He. exists data. split; [reflexivity|].
    right. right. right. split; [reflexivity | exact He]. }
  assert (Hput : forall m, method req = m -> m <> DELETE ->
            putOrPatch config req jsonHeaders
              {| cacheKey := ck; route := rt; primaryKey := pk; restId := rid |}
              (WArray data)
            = inr (w, reply) ->
            exists data', w = WArray data'
      /\ ((exists item, data' = data ++ [item]) /\ statusOf reply = Status.CREATED
          \/ (exists i, i < length data /\ data' = splice1 i data)
             /\ method req = DELETE /\ statusOf reply = Status.NO_CONTENT
          \/ (exists i item, i < length data /\ data' = <[i := item]> data)
             /\ method req <> DELETE /\ statusOf reply <> Status.CREATED
          \/ data' = data /\ statusOf reply <> Status.CREATED)).
  { intros m Hm Hne Hp. rewrite Hm.
    unfold putOrPatch in Hp. cbn [primaryKey restId] in Hp.
    destruct (negb (nonEmpty pk));
      [rewrite <- Hm; apply (Hsame _ _ Hp); discriminate|].
    cbv zeta in Hp.
    destruct (negb (isDefined rid));
      [rewrite <- Hm; apply (Hsame _ _ Hp); discriminate|].
    destruct (negb (looseEq _ _));
      [rewrite <- Hm; apply (Hsame _ _ Hp); discriminate|].
    cbn [asArray rbind] in Hp.
    destruct (findIndex _ data) as [i|] eqn:Ei.
    - injection Hp as <- <-. eexists. split; [reflexivity|].
      right. right. left. split; [|split; [exact Hne|]].
      + exists i. eexists. split; [|reflexivity]. eapply findIndex_lt, Ei.
      + match goal with
        | |- context [if ?b then respond _ _ _ else _] => destruct b
        end; intros Hs; vm_compute in Hs; discriminate Hs.
    - destruct (putUpdate404 config || isPatch (method req));
        [rewrite <- Hm; apply (Hsame _ _ Hp); discriminate|].
      injection Hp as <- <-. eexists. split; [reflexivity|].
      left. split; [eexists; reflexivity | reflexivity]. }
  destruct (method req) eqn:Em;
    [ | apply (Hsame _ _ H); discriminate | | |
      | apply (Hsame _ _ H); discriminate .. | ].
  - (* GET *)
    unfold get in H. cbn [primaryKey restId writeableData readonlyData] in H.
    exists data.
    destruct (isDefined rid).
    + cbn [asArray rbind] in H.
      destruct (List.find _ data); injection H as <- <-;
        (split; [reflexivity|]); right; right; right;
        (split; [reflexivity | intros Hs; vm_compute in Hs; discriminate Hs]).
    + injection H as <- <-. split; [reflexivity|]. right; right; right.
      split; [reflexivity | intros Hs; vm_compute in Hs; discriminate Hs].
  - (* POST *)
    unfold post in H. cbn [primaryKey restId] in H.
    destruct (isDefined rid);
      [apply (Hsame _ _ H); discriminate|].
    destruct (negb (nonEmpty pk));
      [apply (Hsame _ _ H); discriminate|].
    assert (Harr : forall m, asArray m (WArray data) = inr data) by reflexivity.
    rewrite Harr in H. cbn [rbind] in H. cbv zeta in H.
    destruct (findIndex _ data) as [i|] eqn:Ei.
    + destruct (postUpdate409 config);
        [apply (Hsame _ _ H); discriminate|].
      injection H as <- <-. eexists. split; [reflexivity|].
      right. right. left. split; [|split; [discriminate|]].
      * exists i. eexists. split; [|reflexivity]. eapply findIndex_lt, Ei.
      * match goal with
        | |- context [if ?b then respond _ _ _ else _] => destruct b
        end; intros Hs; vm_compute in Hs; discriminate Hs.
    + injection H as <- <-. eexists. split; [reflexivity|].
      left. split; [eexists; reflexivity | reflexivity].
  - (* PUT *)
    apply (Hput PUT eq_refl); [discriminate | exact H].
  - (* DELETE *)
    unfold delete in H. cbn [primaryKey restId] in H.
    destruct (negb (nonEmpty pk));
      [apply (Hsame _ _ H); discriminate|].
    destruct (isDefined rid).
    + cbn [asArray rbind negb orb] in H.
      destruct (findIndex _ data) as [i|] eqn:Ei; cbn [isDefined negb andb] in H.
      * cbn [asArray rbind] in H. injection H as <- <-.
        eexists. split; [reflexivity|]. right. left.
        split; [|split; reflexivity].
        exists i. split; [|reflexivity]. eapply findIndex_lt, Ei.
      * destruct (deleteNotFound404 config).
        -- apply (Hsame _ _ H); discriminate.
        -- injection H as <- <-. exists data. split; [reflexivity|].
           right; right; right. split; [reflexivity | intros Hs; vm_compute in Hs; discriminate Hs].
    + cbn [rbind negb orb] in H.
      apply (Hsame _ _ H); discriminate.
  - (* PATCH *)
    apply (Hput PATCH eq_refl); [discriminate | exact H].
Qed.

Lemma X4_one_position_witness :
  exists data', WArray [Sample.article; [("title", JStr "b"); ("id", JNum 2)]]
                = WArray data'
      /\ ((exists item, data' = [Sample.article] ++ [item])
            /\ statusOf (respond [("Content-Type", ["application/json"]);
                                  ("Location", ["posts/2"])]
                           201 (Some (JObj [("title", JStr "b"); ("id", JNum 2)])))
               = Status.CREATED
          \/ (exists i, i < length [Sample.article]
                        /\ data' = splice1 i [Sample.article])
             /\ method Sample.postTitleB = DELETE
             /\ statusOf (respond [("Content-Type", ["application/json"]);
                                  ("Location", ["posts/2"])]
                           201 (Some (JObj [("title", JStr "b"); ("id", JNum 2)])))
                = Status.NO_CONTENT
          \/ (exists i item, i < length [Sample.article]
                             /\ data' = <[i := item]> [Sample.article])
             /\ method Sample.postTitleB <> DELETE
             /\ statusOf (respond [("Content-Type", ["application/json"]);
                                  ("Location", ["posts/2"])]
                           201 (Some (JObj [("title", JStr "b"); ("id", JNum 2)])))
                <> Status.CREATED
          \/ data' = [Sample.article]
             /\ statusOf (respond [("Content-Type", ["application/json"]);
                                  ("Location", ["posts/2"])]
                           201 (Some (JObj [("title", JStr "b"); ("id", JNum 2)])))
                <> Status.CREATED).
Proof.
  exact (X4_one_position defaultConfig Sample.postTitleB (Sample.link None)
           [Sample.article] [] _ _ eq_refl).
Defined.

(** ** Deleting *)





(** ** Updating and reading back *)







(** ** The cache *)

Lemma extends_refl (st : Store) : extends st st.
Proof. split; reflexivity. Qed.

Lemma extends_trans (st1 st2 st3 : Store) :
  extends st1 st2 -> extends st2 st3 -> extends st1 st3.
Proof.
  intros [H1 H1'] [H2 H2']. split; [etrans; eassumption | congruence].
Qed.

Lemma cache_hit (config : ApiMockConfig) (cp : ChainParam)
    (parents : option (list ObjectAny)) (queryParams : option ObjectAny)
    (body : option ObjectAny) (headers : HttpHeaders) (st : Store) (md : MockData) :
  cacheFromLocalStorage config = false ->
  cachedData st !! cacheKey cp = Some md ->
  cacheDataWithGetMethod config cp parents queryParams body headers st
  = (st, inr md).
Proof.
  intros Hcfg Hhit. unfold cacheDataWithGetMethod. rewrite Hcfg.
  unfold bind, ret, getStore. rewrite Hhit. reflexivity.
Qed.

Lemma cache_extends (config : ApiMockConfig) (cp : ChainParam)
    (parents : option (list ObjectAny)) (queryParams : option ObjectAny)
    (body : option ObjectAny) (headers : HttpHeaders) (st st1 : Store)
    (res : Result MockData) :
  cacheFromLocalStorage config = false ->
  cacheDataWithGetMethod config cp parents queryParams body headers st
  = (st1, res) ->
  extends st st1
  /\ forall md, res = inr md -> cachedData st1 !! cacheKey cp = Some md.
Proof.
  intros Hcfg H. unfold cacheDataWithGetMethod in H. rewrite Hcfg in H.
  unfold bind at 1, ret at 1 in H. unfold bind at 1, getStore at 1 in H.
  destruct (cachedData st !! cacheKey cp) as [md0|] eqn:Hlook.
  - injection H as <- <-. split; [apply extends_refl|].
    intros md [= <-]. exact Hlook.
  - unfold bind at 1, liftR at 1, routeOf at 1 in H.
    destruct (route cp) as [r|] eqn:Hr;
      [|injection H as <- <-; split; [apply extends_refl | discriminate]].
    cbv zeta in H.
    match type of H with
    | context [if truthy ?v then ?v else JArr []] =>
        destruct (if truthy v then v else JArr []) as [| |b0|n|s|l|fs]
    end;
      try (injection H as <- <-; split; [apply extends_refl | discriminate]).
    unfold bind at 1, setCachedData at 1 in H.
    unfold bind at 1, bindReadonlyData in H.
    unfold bind at 1, liftR at 1, routeOf in H. rewrite Hr in H.
    unfold bind at 1, liftR at 1 in H. cbn [asArray] in H.
    unfold bind at 1, getStore at 1 in H. cbn [cachedData] in H.
    rewrite lookup_insert_eq in H. unfold setCachedData at 1 in H.
    cbn [cachedData localStorage] in H. rewrite insert_insert_eq in H.
    unfold bind at 1, when, ret at 1 in H. unfold bind, getStore, ret in H.
    cbn [cachedData localStorage] in H. rewrite lookup_insert_eq in H.
    cbn [default from_option id] in H. injection H as <- <-. split.
    + split; [|reflexivity]. cbn [cachedData].
      apply insert_subseteq, Hlook.
    + intros md [= <-]. apply lookup_insert_eq.
Qed.

(** X7.  A collection is loaded once.  With [cacheFromLocalStorage] off,
    when [cacheDataWithGetMethod] has returned the collection of a link,
    every later call for that link, whatever the parents, the query, the
    body and the headers of the request, returns the same collection and
    leaves the store as it is: the data callback is not consulted
    again. *)
Theorem X7_cached_once :
  forall (config : ApiMockConfig) (cp : ChainParam)
         (parents parents' : option (list ObjectAny))
         (queryParams queryParams' : option ObjectAny)
         (body body' : option ObjectAny) (headers headers' : HttpHeaders)
         (st st1 : Store) (md : MockData),
    cacheFromLocalStorage config = false ->
    cacheDataWithGetMethod config cp parents queryParams body headers st
    = (st1, inr md) ->
    cacheDataWithGetMethod config cp parents' queryParams' body' headers' st1
    = (st1, inr md).
Proof.
  intros config cp parents parents' queryParams queryParams' body body'
         headers headers' st st1 md Hcfg Hfirst.
  apply cache_hit; [exact Hcfg|].
  destruct (cache_extends config cp parents queryParams body headers st st1
              (inr md) Hcfg Hfirst) as [_ Hcached].
  apply Hcached. reflexivity.
Qed.

Lemma X7_cached_once_witness :
  cacheDataWithGetMethod defaultConfig (Sample.postsLink (Some "0"))
    (Some [Sample.article]) None (Some Sample.article) jsonHeaders
    Sample.postsCached
  = (Sample.postsCached,
     inr {| writeableData := WArray Sample.zeroth; readonlyData := Sample.zeroth |}).
Proof.
  refine (X7_cached_once defaultConfig (Sample.postsLink (Some "0"))
            None _ None _ None _ [] _ Sample.emptyStore _ _ eq_refl _).
  vm_compute. reflexivity.
Defined.

(** ** Reading changes nothing *)

Lemma getParentsLoop_extends (config : ApiMockConfig) (req : HttpRequest) :
  cacheFromLocalStorage config = false ->
  forall (chainParams : list ChainParam) (parents : list ObjectAny)
         (st st' : Store) (res : Result (list ObjectAny + HttpErrorResponse)),
    getParentsLoop config req chainParams parents st = (st', res) ->
    extends st st'.
Proof.
  intros Hcfg chainParams.
  induction chainParams as [|cp rest IH]; intros parents st st' res H.
  - injection H as <- _. apply extends_refl.
  - cbn [getParentsLoop] in H. unfold bind at 1 in H.
    destruct (cacheDataWithGetMethod _ _ _ _ _ _ st) as [st1 [e|md]] eqn:Hc;
      pose proof (proj1 (cache_extends _ _ _ _ _ _ _ _ _ Hcfg Hc)) as Hext.
    + injection H as <- _. exact Hext.
    + unfold bind at 1, liftR in H.
      destruct (asArray "find" (writeableData md)) as [e|l].
      * injection H as <- _. exact Hext.
      * destruct (List.find _ l) as [item|].
        -- eapply extends_trans; [exact Hext | eapply IH, H].
        -- injection H as <- _. exact Hext.
Qed.

Lemma get_keeps_data (req : HttpRequest) (hdrs : HttpHeaders) (cp : ChainParam)
    (md : MockData) (w : WriteableData) (reply : Reply) :
  get req hdrs cp md = inr (w, reply) -> w = writeableData md.
Proof.
  unfold get. destruct (isDefined (restId cp)).
  - destruct (asArray "find" (writeableData md)) as [e|l]; [discriminate|].
    cbn [rbind]. destruct (List.find _ l); intros [= <- _]; reflexivity.
  - intros [= <- _]. reflexivity.
Qed.

Lemma sendResponse_get_extends (config : ApiMockConfig) (req : HttpRequest)
    (chain : list ChainParam) (st st' : Store) (res : Result Observable) :
  cacheFromLocalStorage config = false ->
  method req = GET ->
  sendResponse config req chain st = (st', res) ->
  extends st st'.
Proof.
  intros Hcfg Hget H. unfold sendResponse in H. cbv zeta in H.
  unfold bind at 1, getParents in H. unfold bind at 1 in H.
  destruct (getParentsLoop config req (removelast chain) [] st)
    as [st1 [e|ps]] eqn:Hloop;
    pose proof (getParentsLoop_extends config req Hcfg _ _ _ _ _ Hloop) as Hext1.
  { injection H as <- _. exact Hext1. }
  assert (Hrest : forall parents,
    (match parents with
     | inl parents =>
         r <- liftR (routeOf "dataCallback" (last chain)) ;;
         let chainParam :=
           default {| cacheKey := EmptyString; route := None;
                      primaryKey := EmptyString; restId := None |} (last chain) in
         match dataCallback r with
         | None =>
             ret (getResponse config req chainParam r parents (getQueryParams req)
                    emptyResponseOptions)
         | Some callback =>
             mockData <- cacheDataWithGetMethod config chainParam parents
                           (getQueryParams req) (body req) (headers req) ;;
             res <- liftR (callRequestMethod config req chainParam mockData) ;;
             let '(written, reply) := res in
             setCachedData (alter (fun md => {| writeableData := written;
                                                readonlyData := readonlyData md |})
                              (cacheKey chainParam)) ;;
             match reply with
             | Refuse e => ret (throwError e)
             | Respond responseOptions =>
                 when (negb (isGet (method req)))
                   (let opts := {| items := itemsOf written;
                                   itemId := restId chainParam;
                                   httpMethod := method req;
                                   parents := parents;
                                   queryParams := getQueryParams req;
                                   reqBody := body req;
                                   reqHeaders := transformHeaders (headers req) |} in
                    let writeableData := toWriteableData (callback opts) in
                    setCachedData
                      <[cacheKey chainParam :=
                          {| writeableData := writeableData; readonlyData := [] |}]> ;;
                    bindReadonlyData chainParam writeableData ;;
                    when (cacheFromLocalStorage config)
                      (setToLocalStorage (cacheKey chainParam))) ;;
                 ret (getResponse config req chainParam r parents
                        (getQueryParams req) responseOptions)
             end
         end
     | inr e => ret (throwError e)
     end) st1 = (st', res) -> extends st st').
  { intros [parents|e] Hrun; [|injection Hrun as <- _; exact Hext1].
    unfold bind at 1, liftR at 1 in Hrun.
    destruct (routeOf "dataCallback" (last chain)) as [e|r];
      [injection Hrun as <- _; exact Hext1|].
    cbv zeta in Hrun.
    destruct (dataCallback r) as [callback|];
      [|injection Hrun as <- _; exact Hext1].
    unfold bind at 1 in Hrun.
    destruct (cacheDataWithGetMethod _ _ _ _ _ _ st1) as [st2 [e|md]] eqn:Hc;
      pose proof (cache_extends _ _ _ _ _ _ _ _ _ Hcfg Hc) as [Hext2 Hcached];
      pose proof (extends_trans _ _ _ Hext1 Hext2) as Hext.
    { injection Hrun as <- _. exact Hext. }
    specialize (Hcached md eq_refl).
    unfold bind at 1, liftR at 1 in Hrun.
    unfold callRequestMethod in Hrun. rewrite Hget in Hrun.
    destruct (get req jsonHeaders _ md) as [e|[written reply]] eqn:Hg;
      [injection Hrun as <- _; exact Hext|].
    apply get_keeps_data in Hg. subst written.
    unfold bind at 1, setCachedData at 1 in Hrun.
    assert (Hsame : {| cachedData :=
                         alter (fun md0 => {| writeableData := writeableData md;
                                              readonlyData := readonlyData md0 |})
                           (cacheKey (default {| cacheKey := EmptyString;
                                                 route := None;
                                                 primaryKey := EmptyString;
                                                 restId := None |} (last chain)))
                           (cachedData st2);
                       localStorage := localStorage st2 |} = st2).
    { destruct st2 as [cd ls]. cbn [cachedData localStorage] in *. f_equal.
      apply alter_id. intros x Hx. rewrite Hcached in Hx.
      injection Hx as <-. destruct md; reflexivity. }
    rewrite Hsame in Hrun.
    destruct reply as [ro|e]; [|injection Hrun as <- _; exact Hext].
    unfold bind at 1, when, isGet in Hrun. cbn [negb] in Hrun.
    unfold ret in Hrun. injection Hrun as <- _. exact Hext. }
  destruct ps as [[|p l]|e].
  - exact (Hrest (inl None) H).
  - exact (Hrest (inl (Some (p :: l))) H).
  - exact (Hrest (inr e) H).
Qed.

Lemma findRouteIndex_cases (rootRoutes : list PartialRoute) (url : string) :
  findRouteIndex rootRoutes url = (-1)%Z
  \/ exists e, e ∈ rootRoutes
               /\ findRouteIndex rootRoutes url = Z.of_nat (pr_index e).
Proof.
  induction rootRoutes as [|r rest IH]; simpl; [left; reflexivity|].
  destruct (rootMatches r url).
  - right. exists r. split; [left | reflexivity].
  - destruct IH as [IH | (e & He & IH)]; [left; exact IH|].
    right. exists e. split; [right; exact He | exact IH].
Qed.

(** The index [findRouteIndex] answers with is [-1] or that of a route. *)
Lemma findRouteIndex_in_range (routes : list ApiMockRoute) (url : string) :
  findRouteIndex (getRootPaths routes) url = (-1)%Z
  \/ exists r, routes !! Z.to_nat (findRouteIndex (getRootPaths routes) url)
               = Some r.
Proof.
  destruct (findRouteIndex_cases (getRootPaths routes) url)
    as [H | (e & He & H)]; [left; exact H|].
  right. rewrite H, Nat2Z.id.
  unfold getRootPaths in He.
  rewrite sortByLengthDesc_elem, elem_of_lookup_imap in He.
  destruct He as (i & r & -> & Hr). exists r. exact Hr.
Qed.

Lemma handleReq_unresolved (config : ApiMockConfig) (routes : list ApiMockRoute)
    (req : HttpRequest) :
  resolve routes req = None ->
  handleReq config routes req = ret (send404Error config req).
Proof.
  unfold resolve, handleReq. cbv zeta.
  destruct (_ =? -1)%Z eqn:E; [reflexivity|].
  match goal with
  | |- context [findRouteIndex (getRootPaths routes) ?u] =>
      destruct (findRouteIndex_in_range routes u) as [H | (r & H)]
  end.
  - rewrite H in E. discriminate E.
  - rewrite H. simpl. intros ->. reflexivity.
Qed.

(** X8.  A GET never changes what the store holds.  With
    [cacheFromLocalStorage] off, whatever the routes, the URL and the
    outcome (a response, an error response, or an exception turned into
    one), after [handle] has served a GET every collection that was cached
    is cached as it was, and the local storage is the same: a GET can only
    add the collections it had to load. *)
Theorem X8_get_only_loads :
  forall (config : ApiMockConfig) (routes : list ApiMockRoute)
         (req : HttpRequest) (st : Store),
    cacheFromLocalStorage config = false ->
    method req = GET ->
    extends st (handle config routes req st).1.
Proof.
  intros config routes req st Hcfg Hget. unfold handle.
  destruct (handleReq config routes req st) as [st' res] eqn:H.
  assert (Hext : extends st st').
  { destruct (resolve routes req) as [chain|] eqn:Hres.
    - rewrite (handleReq_resolve config routes req chain Hres) in H.
      apply (sendResponse_get_extends config req chain st st' res Hcfg Hget H).
    - rewrite (handleReq_unresolved config routes req Hres) in H.
      injection H as <- _. apply extends_refl. }
  destruct res; exact Hext.
Qed.

Lemma X8_get_only_loads_witness :
  extends Sample.emptyStore
    (handle defaultConfig [Sample.postsWithComments]
       (Sample.request GET "posts/0/comments" None) Sample.emptyStore).1.
Proof.
  exact (X8_get_only_loads defaultConfig [Sample.postsWithComments]
           (Sample.request GET "posts/0/comments" None) Sample.emptyStore
           eq_refl eq_refl).
Defined.

(** What [init] sets when it succeeds. *)
Lemma init_sets (routes accepted : list ApiMockRoute) (rootRoutes : list PartialRoute) :
  init routes = inr (accepted, rootRoutes) ->
  accepted = routes /\ rootRoutes = getRootPaths routes.
Proof.
  unfold init. destruct (checkRoutes routes); [discriminate|].
  destruct (checkRootDuplicates routes); [discriminate|].
  intros [= <- <-]. split; reflexivity.
Qed.

(** X9.  The first request runs [init]; a request no route resolves is
    answered by [send404Error] and touches nothing.  On a service that is
    not initialised, when [init] throws, [handle] answers the error 500
    with the message of [init] and leaves the store as it is.  When
    [init] accepts the routes (on the first request or before), and the
    URL matches no root path, or no route below the root it matches yields
    a chain, [handle] passes the request through when [passThruUnknownUrl]
    is set, answers 404 otherwise, and leaves the store as it is: the
    index [findRouteIndex] answers with is always that of a route, so
    reading the root route never fails.  With the routes [posts/:id] and
    [comments/:commentId] below it, which [init] accepts, the first
    request, for [users/1], is answered 404; on the route [posts/:id]
    without data callback, which [init] refuses, it is answered 500. *)
Theorem X9_unresolved_request :
  forall (config : ApiMockConfig) (routes : list ApiMockRoute)
         (req : HttpRequest) (st : Store),
    (forall message : string,
       init routes = inl (Error message) ->
       handleFrom false config routes req st
       = (st, throwError (makeError req Status.INTERNAL_SERVER_ERROR message)))
    /\ (forall (isInited : bool)
               (accepted : list ApiMockRoute * list PartialRoute),
          init routes = inr accepted ->
          resolve routes req = None ->
          handleFrom isInited config routes req st
          = (st, if passThruUnknownUrl config then xhrBackendHandle req
                 else throwError (makeError req Status.NOT_FOUND
                                    "Error 404: Not found")))
    /\ handleFrom false defaultConfig [Sample.postsWithComments]
         (Sample.request GET "users/1" None) Sample.emptyStore
       = (Sample.emptyStore,
          throwError (makeError (Sample.request GET "users/1" None)
                        Status.NOT_FOUND "Error 404: Not found"))
    /\ (exists message : string,
          init [Sample.posts] = inl (Error message)
          /\ handleFrom false defaultConfig [Sample.posts]
               (Sample.request GET "users/1" None) Sample.emptyStore
             = (Sample.emptyStore,
                throwError (makeError (Sample.request GET "users/1" None)
                              Status.INTERNAL_SERVER_ERROR message))).
Proof.
  intros config routes req st. split; [|split; [|split]].
  - intros message Hinit. unfold handleFrom. rewrite Hinit. reflexivity.
  - intros isInited [accepted rootRoutes] Hinit Hres. unfold handleFrom.
    rewrite Hinit. destruct (init_sets _ _ _ Hinit) as [-> _].
    assert (H : handle config routes req st
                = (st, if passThruUnknownUrl config then xhrBackendHandle req
                       else throwError (makeError req Status.NOT_FOUND
                                          "Error 404: Not found"))).
    { unfold handle.
      rewrite (handleReq_unresolved config routes req Hres). reflexivity. }
    destruct isInited; exact H.
  - vm_compute. reflexivity.
  - eexists. split; vm_compute; reflexivity.
Qed.

(** ** Parents *)

Lemma foundIn_extends (st st' : Store) (cp : ChainParam) (item : ObjectAny) :
  extends st st' -> foundIn st cp item -> foundIn st' cp item.
Proof.
  intros [Hsub _] (md & data & Hmd & Hw & Hfind). exists md, data.
  split; [|split; assumption].
  eapply lookup_weaken; eassumption.
Qed.

Lemma getParentsLoop_found (config : ApiMockConfig) (req : HttpRequest) :
  cacheFromLocalStorage config = false ->
  forall (chainParams : list ChainParam) (parents out : list ObjectAny)
         (st st' : Store),
    getParentsLoop config req chainParams parents st = (st', inr (inl out)) ->
    exists found, out = parents ++ found
                  /\ Forall2 (foundIn st') chainParams found.
Proof.
  intros Hcfg chainParams.
  induction chainParams as [|cp rest IH]; intros parents out st st' H.
  - injection H as <- <-. exists []. rewrite app_nil_r. split; constructor.
  - cbn [getParentsLoop] in H. unfold bind at 1 in H.
    destruct (cacheDataWithGetMethod _ _ _ _ _ _ st) as [st1 [e|md]] eqn:Hc;
      [discriminate H|].
    destruct (cache_extends _ _ _ _ _ _ _ _ _ Hcfg Hc) as [_ Hcached].
    specialize (Hcached md eq_refl).
    unfold bind at 1, liftR in H.
    destruct (writeableData md) as [l|v] eqn:Hw; cbn [asArray] in H;
      [|discriminate H].
    destruct (List.find _ l) as [item|] eqn:Hfind; [|discriminate H].
    pose proof (getParentsLoop_extends config req Hcfg _ _ _ _ _ H) as Hext.
    destruct (IH _ _ _ _ H) as (found & -> & Hall).
    exists (item :: found). split; [rewrite <- app_assoc; reflexivity|].
    constructor; [|exact Hall].
    apply (foundIn_extends st1 st' cp item Hext).
    exists md, l. repeat split; assumption.
Qed.

(** X10.  The parents handed to the callbacks are the items the URL
    names.  With [cacheFromLocalStorage] off, when [getParents] returns
    parents it returns one per link of the chain but the last, in the
    order of the chain, each the first item of the cached collection of
    its link whose primary key is truthy and loosely equals the id of the
    link; it returns none ([undefined]) exactly when the chain has no
    link before the last. *)
Theorem X10_parents_are_found :
  forall (config : ApiMockConfig) (req : HttpRequest) (chain : list ChainParam)
         (st st' : Store) (parents : option (list ObjectAny)),
    cacheFromLocalStorage config = false ->
    getParents config req chain st = (st', inr (inl parents)) ->
    Forall2 (foundIn st') (removelast chain) (default [] parents)
    /\ (parents = None <-> removelast chain = []).
Proof.
  intros config req chain st st' parents Hcfg H.
  unfold getParents in H. unfold bind at 1 in H.
  destruct (getParentsLoop config req (removelast chain) [] st)
    as [st1 [e|[out|e]]] eqn:Hloop; [discriminate H| |discriminate H].
  destruct (getParentsLoop_found config req Hcfg _ _ _ _ _ Hloop)
    as (found & -> & Hall).
  cbn [app] in H. destruct found as [|p found].
  - injection H as <- <-. inversion Hall as [Hnil|]; subst.
    split; [constructor | split; reflexivity].
  - injection H as <- <-. cbn [default from_option id]. split; [exact Hall|].
    split; [discriminate|]. intros Hnil. rewrite Hnil in Hall. inversion Hall.
Qed.

Lemma X10_parents_are_found_witness :
  Forall2 (foundIn Sample.articleCached)
    (removelast [Sample.postsLink (Some "1"); Sample.postsLink None])
    (default [] (Some [Sample.article]))
  /\ (Some [Sample.article] = None
      <-> removelast [Sample.postsLink (Some "1"); Sample.postsLink None] = []).
Proof.
  refine (X10_parents_are_found defaultConfig (Sample.request GET "p" None)
            [Sample.postsLink (Some "1"); Sample.postsLink None]
            Sample.articleCached Sample.articleCached _ eq_refl _).
  vm_compute. reflexivity.
Defined.

(** ** Error responses *)

Lemma sendResponse_error_extends (config : ApiMockConfig) (req : HttpRequest)
    (chain : list ChainParam) (st st' : Store) (e : HttpErrorResponse) :
  cacheFromLocalStorage config = false ->
  sendResponse config req chain st = (st', inr (throwError e)) ->
  extends st st'.
Proof.
  intros Hcfg H. unfold sendResponse in H. cbv zeta in H.
  unfold bind at 1, getParents in H. unfold bind at 1 in H.
  destruct (getParentsLoop config req (removelast chain) [] st)
    as [st1 [ex|ps]] eqn:Hloop;
    pose proof (getParentsLoop_extends config req Hcfg _ _ _ _ _ Hloop) as Hext1.
  { discriminate H. }
  assert (Hrest : forall parents : option (list ObjectAny),
    (r <- liftR (routeOf "dataCallback" (last chain)) ;;
     let chainParam :=
       default {| cacheKey := EmptyString; route := None;
                  primaryKey := EmptyString; restId := None |} (last chain) in
     match dataCallback r with
     | None =>
         ret (getResponse config req chainParam r parents (getQueryParams req)
                emptyResponseOptions)
     | Some callback =>
         mockData <- cacheDataWithGetMethod config chainParam parents
                       (getQueryParams req) (body req) (headers req) ;;
         res <- liftR (callRequestMethod config req chainParam mockData) ;;
         let '(written, reply) := res in
         setCachedData (alter (fun md => {| writeableData := written;
                                            readonlyData := readonlyData md |})
                          (cacheKey chainParam)) ;;
         match reply with
         | Refuse e => ret (throwError e)
         | Respond responseOptions =>
             when (negb (isGet (method req)))
               (let opts := {| items := itemsOf written;
                               itemId := restId chainParam;
                               httpMethod := method req;
                               parents := parents;
                               queryParams := getQueryParams req;
                               reqBody := body req;
                               reqHeaders := transformHeaders (headers req) |} in
                let writeableData := toWriteableData (callback opts) in
                setCachedData
                  <[cacheKey chainParam :=
                      {| writeableData := writeableData; readonlyData := [] |}]> ;;
                bindReadonlyData chainParam writeableData ;;
                when (cacheFromLocalStorage config)
                  (setToLocalStorage (cacheKey chainParam))) ;;
             ret (getResponse config req chainParam r parents
                    (getQueryParams req) responseOptions)
         end
     end) st1 = (st', inr (throwError e)) -> extends st st').
  { intros parents Hrun.
    unfold bind at 1, liftR at 1 in Hrun.
    destruct (routeOf "dataCallback" (last chain)) as [ex|r];
      [discriminate Hrun|].
    cbv zeta in Hrun.
    destruct (dataCallback r) as [callback|]; [|discriminate Hrun].
    unfold bind at 1 in Hrun.
    destruct (cacheDataWithGetMethod _ _ _ _ _ _ st1) as [st2 [ex|md]] eqn:Hc;
      pose proof (cache_extends _ _ _ _ _ _ _ _ _ Hcfg Hc) as [Hext2 Hcached];
      pose proof (extends_trans _ _ _ Hext1 Hext2) as Hext.
    { discriminate Hrun. }
    specialize (Hcached md eq_refl).
    unfold bind at 1, liftR at 1 in Hrun.
    destruct (callRequestMethod config req _ md) as [ex|[written reply]] eqn:Hg;
      [discriminate Hrun|].
    unfold bind at 1, setCachedData at 1 in Hrun.
    destruct reply as [ro|e'].
    - unfold bind at 1 in Hrun.
      match type of Hrun with
      | match ?c with _ => _ end = _ => destruct c as [st4 [ex|u]]
      end; discriminate Hrun.
    - apply callRequestMethod_keeps_data in Hg; [|right; eexists; reflexivity].
      subst written. injection Hrun as <- _.
      destruct st2 as [cd ls]. cbn [cachedData localStorage] in *.
      rewrite alter_id; [exact Hext|].
      intros x Hx. rewrite Hcached in Hx.
      injection Hx as <-. destruct md; reflexivity. }
  destruct ps as [[|p l]|e'].
  - exact (Hrest None H).
  - exact (Hrest (Some (p :: l)) H).
  - injection H as <- _. exact Hext1.
Qed.

(** ** Writing *)

(** [sendResponse] from the point where the last link has its route,
    its data callback and its collection, and the handler has answered a
    method other than GET. *)
Lemma sendResponse_written (config : ApiMockConfig) (req : HttpRequest)
    (chain : list ChainParam) (cp : ChainParam) (r : ApiMockRoute)
    (cb : ApiMockDataCallbackOptions -> JsValue)
    (parents : option (list ObjectAny)) (md : MockData)
    (written : WriteableData) (ro : ResponseOptions) (st st1 : Store) :
  cacheFromLocalStorage config = false ->
  isGet (method req) = false ->
  getParents config req chain st = (st1, inr (inl parents)) ->
  last chain = Some cp -> route cp = Some r -> dataCallback r = Some cb ->
  cachedData st1 !! cacheKey cp = Some md ->
  callRequestMethod config req cp md = inr (written, Respond ro) ->
  sendResponse config req chain st
  = (setCachedData
       <[cacheKey cp :=
           {| writeableData := toWriteableData (cb (writeOptions req cp parents written));
              readonlyData := [] |}]> ;;
     bindReadonlyData cp (toWriteableData (cb (writeOptions req cp parents written))) ;;
     ret (getResponse config req cp r parents (getQueryParams req) ro))
      {| cachedData := alter (fun md0 => {| writeableData := written;
                                            readonlyData := readonlyData md0 |})
                         (cacheKey cp) (cachedData st1);
         localStorage := localStorage st1 |}.
Proof.
  intros Hcfg Hget Hp Hlast Hr Hcb Hmd Hcall.
  unfold sendResponse. cbv zeta. unfold bind at 1. rewrite Hp, Hlast.
  unfold bind at 1, liftR at 1, routeOf. rewrite Hr, Hcb.
  cbn [default from_option id].
  unfold bind at 1. rewrite (cache_hit config cp _ _ _ _ st1 md Hcfg Hmd).
  unfold bind at 1, liftR at 1. rewrite Hcall.
  unfold bind at 1, setCachedData at 1.
  rewrite Hget, Hcfg. cbn [negb when].
  fold (writeOptions req cp parents written).
  unfold bind. destruct (setCachedData _ _) as [st2 [ex|[]]]; [reflexivity|].
  destruct (bindReadonlyData cp _ st2) as [st3 [ex|[]]]; reflexivity.
Qed.



(** X12.  A data callback that does not return an array after a write
    loses the collection.  With [cacheFromLocalStorage] off, when the
    handler of a method other than GET has responded and the data callback
    then returns something that is no array, [sendResponse] throws (which
    [handle] turns into a 500), and the cache is left holding that value
    with no read-only views: a later GET of the collection answers 200
    with the empty list. *)
Theorem X12_no_array_after_write :
  forall (config : ApiMockConfig) (req reqGet : HttpRequest)
         (chain : list ChainParam)
         (cp : ChainParam) (r : ApiMockRoute)
         (cb : ApiMockDataCallbackOptions -> JsValue)
         (parents : option (list ObjectAny)) (md : MockData)
         (written : WriteableData) (ro : ResponseOptions) (st st1 : Store),
    cacheFromLocalStorage config = false ->
    isGet (method req) = false ->
    getParents config req chain st = (st1, inr (inl parents)) ->
    last chain = Some cp -> route cp = Some r -> dataCallback r = Some cb ->
    cachedData st1 !! cacheKey cp = Some md ->
    callRequestMethod config req cp md = inr (written, Respond ro) ->
    isArray (cb (writeOptions req cp parents written)) = false ->
    let lost := {| writeableData := WOther (cb (writeOptions req cp parents written));
                   readonlyData := [] |} in
    exists st' e,
      sendResponse config req chain st = (st', inl e)
      /\ cachedData st' !! cacheKey cp = Some lost
      /\ get reqGet jsonHeaders
           {| cacheKey := cacheKey cp; route := route cp;
              primaryKey := primaryKey cp; restId := None |} lost
         = inr (writeableData lost, respond jsonHeaders Status.OK (Some (JArr []))).
Proof.
  intros config req reqGet chain cp r cb parents md written ro st st1
         Hcfg Hget Hp Hlast Hr Hcb Hmd Hcall Harr lost.
  rewrite (sendResponse_written config req chain cp r cb parents md written ro
             st st1 Hcfg Hget Hp Hlast Hr Hcb Hmd Hcall).
  assert (Hw : toWriteableData (cb (writeOptions req cp parents written))
               = WOther (cb (writeOptions req cp parents written))).
  { destruct (cb (writeOptions req cp parents written)); try reflexivity.
    discriminate Harr. }
  rewrite Hw.
  unfold bind at 1, setCachedData at 1. cbn [cachedData localStorage].
  unfold bind at 1, bindReadonlyData.
  unfold bind at 1, liftR at 1, routeOf. rewrite Hr.
  unfold bind at 1, liftR at 1. cbn [asArray].
  eexists. eexists. split; [reflexivity|]. split.
  - cbn [cachedData]. apply lookup_insert_eq.
  - reflexivity.
Qed.

Lemma X12_no_array_after_write_witness :
  exists st' e,
    sendResponse defaultConfig Sample.postTitleB [Sample.forgetfulLink]
      Sample.articleCached
    = (st', inl e)
    /\ cachedData st' !! "posts"
       = Some {| writeableData := WOther JUndefined; readonlyData := [] |}
    /\ get (Sample.request GET "posts" None) jsonHeaders Sample.forgetfulLink
         {| writeableData := WOther JUndefined; readonlyData := [] |}
       = inr (WOther JUndefined, respond jsonHeaders Status.OK (Some (JArr []))).
Proof.
  refine (X12_no_array_after_write defaultConfig Sample.postTitleB
            (Sample.request GET "posts" None)
            [Sample.forgetfulLink] Sample.forgetfulLink Sample.forgetfulPosts
            Sample.forgetful None
            {| writeableData := WArray [Sample.article]; readonlyData := [] |}
            (WArray [Sample.article; [("title", JStr "b"); ("id", JNum 2)]])
            {| ro_headers := Some [("Content-Type", ["application/json"]);
                                   ("Location", ["posts/2"])];
               ro_status := Some 201%Z;
               ro_body := Some (JObj [("title", JStr "b"); ("id", JNum 2)]) |}
            Sample.articleCached Sample.articleCached
            eq_refl eq_refl _ eq_refl eq_refl eq_refl _ _ eq_refl);
    vm_compute; reflexivity.
Defined.

(** ** Responses *)

Lemma clone_defined (v : JsValue) : v <> JUndefined -> clone v <> JUndefined.
Proof. destruct v; simpl; congruence. Qed.

Lemma clone_elements_defined (l : list JsValue) :
  Forall (fun v => v <> JUndefined)
    (map (fun e => match e with
                   | JUndefined => JNull
                   | _ => clone e
                   end) l).
Proof.
  induction l as [|v l IH]; simpl; constructor; [|exact IH].
  destruct v; simpl; discriminate.
Qed.

(** What [getResponse] answers for a route without response callback. *)
Lemma getResponse_list (config : ApiMockConfig) (req : HttpRequest)
    (cp : ChainParam) (r : ApiMockRoute) (parents : option (list ObjectAny))
    (queryParams : option ObjectAny) (ro : ResponseOptions) :
  responseCallback r = None ->
  exists status l,
    getResponse config req cp r parents queryParams ro
    = delayed (delay config)
        (ofResponse (mkHttpResponse {| ro_headers := ro_headers ro;
                                       ro_status := Some status;
                                       ro_body := Some (JArr l) |}))
    /\ status <> 0%Z
    /\ (ro_status ro = None -> status = Status.OK)
    /\ (forall s, ro_status ro = Some s -> s <> 0%Z -> status = s)
    /\ Forall (fun v => v <> JUndefined) l
    /\ length l = match ro_body ro with
                  | None => 0
                  | Some (JArr items) => length items
                  | Some _ => 1
                  end.
Proof.
  intros Hrc. unfold getResponse. rewrite Hrc. cbv zeta. cbn [clone].
  eexists. eexists. split; [reflexivity|].
  split; [|split; [|split; [|split]]].
  - destruct (ro_status ro) as [s|]; [|discriminate].
    destruct (Z.eqb_spec s 0); [discriminate | assumption].
  - intros ->. reflexivity.
  - intros s -> Hs. destruct (Z.eqb_spec s 0); [contradiction | reflexivity].
  - apply clone_elements_defined.
  - rewrite length_map. destruct (ro_body ro) as [[]|]; reflexivity.
Qed.

(** When [sendResponse] returns, it returns the error response of a
    handler or of the parents, or what [getResponse] answers for the
    route of the last link. *)
Lemma sendResponse_returns (config : ApiMockConfig) (req : HttpRequest)
    (chain : list ChainParam) (st st' : Store) (obs : Observable) :
  sendResponse config req chain st = (st', inr obs) ->
  (exists e, obs = throwError e)
  \/ exists cp r parents ro,
       last chain = Some cp /\ route cp = Some r
       /\ obs = getResponse config req cp r parents (getQueryParams req) ro.
Proof.
  intros H. unfold sendResponse in H. cbv zeta in H.
  unfold bind at 1 in H.
  destruct (getParents config req chain st) as [st1 [ex|[parents|e]]];
    [discriminate H| |injection H as _ <-; left; eexists; reflexivity].
  unfold bind at 1, liftR at 1, routeOf in H.
  destruct (last chain) as [cp|]; [|discriminate H].
  destruct (route cp) as [r|] eqn:Hr; [|discriminate H].
  cbn [default from_option id] in H.
  destruct (dataCallback r) as [callback|].
  - unfold bind at 1 in H.
    destruct (cacheDataWithGetMethod _ _ _ _ _ _ st1) as [st2 [ex|md]];
      [discriminate H|].
    unfold bind at 1, liftR at 1 in H.
    destruct (callRequestMethod config req cp md) as [ex|[written reply]];
      [discriminate H|].
    unfold bind at 1, setCachedData at 1 in H.
    destruct reply as [ro|e].
    + unfold bind at 1 in H.
      match type of H with
      | match ?c with _ => _ end = _ => destruct c as [st4 [ex|u]]
      end; [discriminate H|].
      injection H as _ <-. right. exists cp, r, parents, ro. auto.
    + injection H as _ <-. left. eexists. reflexivity.
  - injection H as _ <-. right. exists cp, r, parents, emptyResponseOptions. auto.
Qed.

(** A delayed error response is the answer of a response callback. *)
Lemma getResponse_error (config : ApiMockConfig) (req : HttpRequest)
    (cp : ChainParam) (r : ApiMockRoute) (parents : option (list ObjectAny))
    (queryParams : option ObjectAny) (ro : ResponseOptions)
    (ms : Z) (e : HttpErrorResponse) :
  getResponse config req cp r parents queryParams ro = delayed ms (throwError e) ->
  ms = delay config
  /\ exists callback opts,
       responseCallback r = Some callback /\ callback opts = RcErrorResponse e.
Proof.
  unfold getResponse. cbv zeta.
  destruct (responseCallback r) as [callback|]; [|intros [=]].
  match goal with
  | |- context [callback ?o] => destruct (callback o) as [v|e'|res] eqn:Hc
  end; intros H; inversion H; subst.
  split; [reflexivity|]. eexists _, _.
  split; [reflexivity | exact Hc].
Qed.

(** X3.  An error response other than 500 that [handle] returns at
    once means that nothing was written.  With [cacheFromLocalStorage]
    off, when what [handle] returns is [throwError] of an error response
    whose status is not 500 Internal Server Error (a request that a
    handler refused, a parent that was not found, a URL that no route
    resolves), every collection that was cached is cached as it was and
    the local storage is the same, whatever the method.  An error response
    that comes delayed by [config.delay] is the answer of the response
    callback of the route of the last link, and there is none when that
    route has no response callback; it can follow a write: on a route
    whose response callback refuses every request, a POST is answered with
    the delayed error of the callback, and the item is in the cached
    collection. *)
Theorem X3_error_response_writes_nothing :
  forall (config : ApiMockConfig) (routes : list ApiMockRoute)
         (req : HttpRequest) (st st' : Store) (obs : Observable),
    cacheFromLocalStorage config = false ->
    handle config routes req st = (st', obs) ->
    (forall e, obs = throwError e ->
               err_status e <> Status.INTERNAL_SERVER_ERROR -> extends st st')
    /\ (forall ms e, obs = delayed ms (throwError e) ->
          ms = delay config
          /\ exists chain cp r callback opts,
               resolve routes req = Some chain /\ last chain = Some cp
               /\ route cp = Some r /\ responseCallback r = Some callback
               /\ callback opts = RcErrorResponse e)
    /\ ((forall chain cp r, resolve routes req = Some chain ->
           last chain = Some cp -> route cp = Some r ->
           responseCallback r = None) ->
        forall ms e, obs <> delayed ms (throwError e))
    /\ (let after := handle defaultConfig [Sample.refusingPosts]
                       Sample.postTitleB Sample.articleCached in
        snd after = delayed 500 (throwError Sample.refusal)
        /\ cachedData Sample.articleCached !! "posts"
           = Some {| writeableData := WArray [Sample.article];
                     readonlyData := [] |}
        /\ cachedData (fst after) !! "posts"
           = Some {| writeableData :=
                       WArray [Sample.article; [("title", JStr "b"); ("id", JNum 2)]];
                     readonlyData :=
                       [Sample.article; [("title", JStr "b"); ("id", JNum 2)]] |}).
Proof.
  intros config routes req st st' obs Hcfg H.
  assert (Hdelayed : forall ms e, obs = delayed ms (throwError e) ->
            ms = delay config
            /\ exists chain cp r callback opts,
                 resolve routes req = Some chain /\ last chain = Some cp
                 /\ route cp = Some r /\ responseCallback r = Some callback
                 /\ callback opts = RcErrorResponse e).
  { intros ms e ->. unfold handle in H.
    destruct (handleReq config routes req st) as [st1 [ex|obs]] eqn:Hreq;
      [discriminate H|]. injection H as <- ->.
    destruct (resolve routes req) as [chain|] eqn:Hres.
    - rewrite (handleReq_resolve config routes req chain Hres) in Hreq.
      destruct (sendResponse_returns config req chain st st1 _ Hreq)
        as [(e' & [=]) | (cp & r & parents & ro & Hlast & Hroute & Hobs)].
      symmetry in Hobs. apply getResponse_error in Hobs.
      destruct Hobs as (Hms & callback & opts & Hcb & Hanswer).
      split; [exact Hms|]. exists chain, cp, r, callback, opts. auto.
    - rewrite (handleReq_unresolved config routes req Hres) in Hreq.
      injection Hreq as _ Hobs. unfold send404Error in Hobs.
      destruct (passThruUnknownUrl config); discriminate Hobs. }
  split; [|split; [exact Hdelayed|split]].
  - intros e -> Hstatus. unfold handle in H.
    destruct (handleReq config routes req st) as [st1 [ex|obs]] eqn:Hreq.
    + injection H as _ <-. contradiction Hstatus. reflexivity.
    + injection H as <- ->.
      destruct (resolve routes req) as [chain|] eqn:Hres.
      * rewrite (handleReq_resolve config routes req chain Hres) in Hreq.
        apply (sendResponse_error_extends config req chain st st1 e Hcfg Hreq).
      * rewrite (handleReq_unresolved config routes req Hres) in Hreq.
        injection Hreq as <- _. apply extends_refl.
  - intros Hnone ms e Hobs.
    destruct (Hdelayed ms e Hobs)
      as (_ & chain & cp & r & callback & opts & Hres & Hlast & Hroute & Hcb & _).
    rewrite (Hnone chain cp r Hres Hlast Hroute) in Hcb. discriminate Hcb.
  - cbv zeta. repeat split; vm_compute; reflexivity.
Qed.

Lemma X3_error_response_writes_nothing_witness :
  extends Sample.articleCached Sample.articleCached.
Proof.
  refine (proj1 (X3_error_response_writes_nothing defaultConfig [Sample.postsWithComments]
            (Sample.request PUT "posts/7" (Some [("title", JStr "b")]))
            Sample.articleCached Sample.articleCached
            (throwError (makeError (Sample.request PUT "posts/7" (Some [("title", JStr "b")]))
               Status.NOT_FOUND
               "Error 404: Not found; item.id=7 not found and may not be created with PUT; use POST instead."))
            eq_refl _) _ eq_refl _).
  - vm_compute. reflexivity.
  - discriminate.
Defined.

(** X13.  The body of a response is always a list.  For a request whose
    last link belongs to a route without response callback, whatever
    [handle] returns is an error response, the pass-through to the real
    backend, or a response delayed by [config.delay] whose body is an
    array without [undefined] elements and whose status is not 0 (a
    handler's body that is no array is wrapped in one, a missing body
    gives the empty array, a missing status 200). *)
Theorem X13_response_body_is_a_list :
  forall (config : ApiMockConfig) (routes : list ApiMockRoute)
         (req : HttpRequest) (st st' : Store) (obs : Observable),
    (forall chain cp r, resolve routes req = Some chain ->
                        last chain = Some cp -> route cp = Some r ->
                        responseCallback r = None) ->
    handle config routes req st = (st', obs) ->
    (exists e, obs = throwError e)
    \/ obs = xhrBackendHandle req
    \/ exists hdrs status l,
         obs = delayed (delay config)
                 (ofResponse (mkHttpResponse {| ro_headers := hdrs;
                                                ro_status := Some status;
                                                ro_body := Some (JArr l) |}))
         /\ status <> 0%Z
         /\ Forall (fun v => v <> JUndefined) l.
Proof.
  intros config routes req st st' obs Hrc H. unfold handle in H.
  destruct (handleReq config routes req st) as [st1 [ex|o]] eqn:Hreq.
  { injection H as _ <-. left. eexists. reflexivity. }
  injection H as _ ->.
  destruct (resolve routes req) as [chain|] eqn:Hres.
  - rewrite (handleReq_resolve config routes req chain Hres) in Hreq.
    destruct (sendResponse_returns config req chain st st1 obs Hreq)
      as [He | (cp & r & parents & ro & Hlast & Hr & ->)]; [left; exact He|].
    right. right.
    destruct (getResponse_list config req cp r parents (getQueryParams req) ro
                (Hrc chain cp r eq_refl Hlast Hr))
      as (status & l & -> & Hs & _ & _ & Hl & _).
    exists (ro_headers ro), status, l. auto.
  - rewrite (handleReq_unresolved config routes req Hres) in Hreq.
    injection Hreq as _ <-. unfold send404Error.
    destruct (passThruUnknownUrl config);
      [right; left; reflexivity | left; eexists; reflexivity].
Qed.

Lemma X13_response_body_is_a_list_witness :
  (exists e, delayed 500 (ofResponse (mkHttpResponse
               {| ro_headers := Some jsonHeaders; ro_status := Some 200%Z;
                  ro_body := Some (JArr [JObj Sample.article]) |}))
             = throwError e)
  \/ delayed 500 (ofResponse (mkHttpResponse
               {| ro_headers := Some jsonHeaders; ro_status := Some 200%Z;
                  ro_body := Some (JArr [JObj Sample.article]) |}))
     = xhrBackendHandle (Sample.request GET "posts/1" None)
  \/ exists hdrs status l,
       delayed 500 (ofResponse (mkHttpResponse
               {| ro_headers := Some jsonHeaders; ro_status := Some 200%Z;
                  ro_body := Some (JArr [JObj Sample.article]) |}))
       = delayed (delay defaultConfig)
           (ofResponse (mkHttpResponse {| ro_headers := hdrs;
                                          ro_status := Some status;
                                          ro_body := Some (JArr l) |}))
       /\ status <> 0%Z
       /\ Forall (fun v => v <> JUndefined) l.
Proof.
  refine (X13_response_body_is_a_list defaultConfig [Sample.forgetfulPosts]
            (Sample.request GET "posts/1" None)
            Sample.articleCached Sample.articleCached _ _ _).
  - intros chain cp r Hres Hlast Hr. vm_compute in Hres.
    injection Hres as <-. injection Hlast as <-. injection Hr as <-. reflexivity.
  - vm_compute. reflexivity.
Defined.

(** ** Parameters and headers *)








(** ** Cloning *)

(** Induction on a value, with the elements of an array and the fields of
    an object. *)
Lemma JsValue_deep_ind (P : JsValue -> Prop) :
  P JUndefined -> P JNull -> (forall b, P (JBool b)) -> (forall n, P (JNum n)) ->
  (forall s, P (JStr s)) ->
  (forall l, Forall P l -> P (JArr l)) ->
  (forall fs, Forall (fun kv => P (snd kv)) fs -> P (JObj fs)) ->
  forall v, P v.
Proof.
  intros Hu Hn Hb Hz Hs Ha Ho. fix IH 1. intros [| |b|n|s|l|fs].
  - exact Hu.
  - exact Hn.
  - apply Hb.
  - apply Hz.
  - apply Hs.
  - apply Ha. induction l as [|e l IHl]; constructor; [apply IH | exact IHl].
  - apply Ho. induction fs as [|[k x] fs IHfs]; constructor;
      [apply IH | exact IHfs].
Qed.

Lemma clone_JArr (l : list JsValue) :
  clone (JArr l)
  = JArr (map (fun e => match e with JUndefined => JNull | _ => clone e end) l).
Proof. reflexivity. Qed.

Lemma cloneObject_nil : cloneObject [] = [].
Proof. reflexivity. Qed.

Lemma cloneObject_cons (k : string) (x : JsValue) (fs : ObjectAny) :
  cloneObject ((k, x) :: fs)
  = match x with
    | JUndefined => cloneObject fs
    | _ => (k, clone x) :: cloneObject fs
    end.
Proof. unfold cloneObject. cbn [clone]. destruct x; reflexivity. Qed.

Lemma clone_JObj (fs : ObjectAny) : clone (JObj fs) = JObj (cloneObject fs).
Proof. reflexivity. Qed.

Lemma jsonSafe_JObj_cons (k : string) (x : JsValue) (fs : ObjectAny) :
  jsonSafe (JObj ((k, x) :: fs)) = jsonSafe x && jsonSafe (JObj fs).
Proof. reflexivity. Qed.

Lemma jsonSafe_JArr_cons (e : JsValue) (l : list JsValue) :
  jsonSafe (JArr (e :: l)) = jsonSafe e && jsonSafe (JArr l).
Proof. reflexivity. Qed.

Lemma clone_safe (v : JsValue) : v <> JUndefined -> jsonSafe (clone v) = true.
Proof.
  induction v as [| |b|n|s|l IH|fs IH] using JsValue_deep_ind; intros Hv;
    try reflexivity; [contradiction Hv; reflexivity | |].
  - rewrite clone_JArr. clear Hv.
    induction IH as [|e l He _ IHl]; [reflexivity|].
    cbn [map]. rewrite jsonSafe_JArr_cons, IHl, andb_true_r.
    destruct e; try reflexivity; apply He; discriminate.
  - rewrite clone_JObj. clear Hv.
    induction IH as [|[k x] fs Hx _ IHfs]; [reflexivity|].
    rewrite cloneObject_cons. cbn [snd] in Hx.
    destruct x; try exact IHfs;
      rewrite jsonSafe_JObj_cons, IHfs, andb_true_r;
      try reflexivity; apply Hx; discriminate.
Qed.

Lemma clone_of_safe (v : JsValue) : jsonSafe v = true -> clone v = v.
Proof.
  induction v as [| |b|n|s|l IH|fs IH] using JsValue_deep_ind; intros Hv;
    try reflexivity.
  - rewrite clone_JArr. f_equal.
    induction IH as [|e l He _ IHl]; [reflexivity|].
    rewrite jsonSafe_JArr_cons in Hv. apply andb_true_iff in Hv.
    destruct Hv as [Hse Hsl]. cbn [map]. rewrite (IHl Hsl). f_equal.
    destruct e; try reflexivity; [discriminate Hse | |]; apply He, Hse.
  - rewrite clone_JObj. f_equal.
    induction IH as [|[k x] fs Hx _ IHfs]; [reflexivity|].
    rewrite jsonSafe_JObj_cons in Hv. apply andb_true_iff in Hv.
    destruct Hv as [Hsx Hsf]. rewrite cloneObject_cons, (IHfs Hsf).
    cbn [snd] in Hx.
    destruct x; try reflexivity; [discriminate Hsx | |];
      rewrite (Hx Hsx); reflexivity.
Qed.

(** X15.  [clone], the JSON round trip, normalises once and for all.
    What it returns for a value other than [undefined] holds [undefined]
    nowhere (fields that held it are dropped, array elements that were it
    are [null]); a value that holds [undefined] nowhere is returned as it
    is; so cloning twice is cloning once. *)
Theorem X15_clone_normalises :
  forall v : JsValue,
    (v <> JUndefined -> jsonSafe (clone v) = true)
    /\ (jsonSafe v = true -> clone v = v)
    /\ clone (clone v) = clone v.
Proof.
  intros v. split; [apply clone_safe|]. split; [apply clone_of_safe|].
  destruct v; try reflexivity; apply clone_of_safe, clone_safe; discriminate.
Qed.

(** ** Dry matches and the tree of routes *)

Lemma setRouteDryMatch_branch (splitedUrl0 : list string) (route : ApiMockRoute) :
  forall (pathOfRoute : string) (above : list ApiMockRoute) (m : RouteDryMatch),
    m ∈ setRouteDryMatch splitedUrl0 route pathOfRoute above ->
    exists p, branch route p
              /\ routes m = above ++ p
              /\ standsFor m (split (pathAlong pathOfRoute p) "/").
Proof.
  induction route as [route IH] using route_tree_ind.
  intros pathOfRoute above m. rewrite setRouteDryMatch_unfold. cbv zeta.
  set (sr := split (accumulatedPath pathOfRoute route) "/") in *.
  destruct (Z.of_nat (length splitedUrl0) >? Z.of_nat (length sr))%Z.
  { unfold childrenMatches. rewrite list_elem_of_In, in_flat_map.
    intros (child & Hchild & Hm).
    destruct (children route) as [cs|] eqn:Hcs; [|contradiction].
    specialize (IH cs eq_refl). rewrite Forall_forall in IH.
    apply list_elem_of_In in Hchild, Hm.
    destruct (IH child Hchild _ _ _ Hm) as (p & Hp & Hroutes & Hfor).
    exists (route :: p). split; [|split].
    - eapply branch_child; eassumption.
    - rewrite Hroutes, <- app_assoc. reflexivity.
    - exact Hfor. }
  assert (Hhere : forall m', m = m' -> routes m' = above ++ [route] ->
                             standsFor m' sr ->
            exists p, branch route p /\ routes m = above ++ p
                      /\ standsFor m (split (pathAlong pathOfRoute p) "/")).
  { intros m' -> Hroutes Hfor. exists [route].
    split; [constructor | split; [exact Hroutes | exact Hfor]]. }
  destruct (Z.of_nat (length splitedUrl0) <? Z.of_nat (length sr) - 1)%Z.
  { rewrite elem_of_nil. contradiction. }
  destruct (Z.of_nat (length splitedUrl0) =? Z.of_nat (length sr) - 1)%Z.
  { destruct (isPrimaryKeyPart (default EmptyString (last sr))) eqn:Hpk;
      rewrite ?elem_of_nil, ?list_elem_of_singleton; [|contradiction].
    intros Hm. apply (Hhere _ Hm); [reflexivity|].
    right. cbn [splitedRoute hasLastRestId lastPrimaryKey]. auto. }
  rewrite list_elem_of_singleton. intros Hm. apply (Hhere _ Hm); [reflexivity|].
  left. cbn [splitedRoute hasLastRestId]. auto.
Qed.

(** X16.  Every dry match is a branch of the matched root.  The routes
    of a dry match of a URL go from the root route down the tree, each
    one a child of the one before it; its route segments are the segments
    of the paths joined along that branch (after the host), as many as
    the URL has segments, taken as they are or, when the URL is one
    segment shorter, without the last one, which then is a ':'-token and
    names the last primary key. *)
Theorem X16_dry_match_is_a_branch :
  forall (url : string) (rootRoute : ApiMockRoute) (m : RouteDryMatch),
    m ∈ getRouteDryMatch url rootRoute ->
    branch rootRoute (routes m)
    /\ splitedUrl m = split url "/"
    /\ length (splitedRoute m) = length (splitedUrl m)
    /\ standsFor m
         (split (pathAlong (default EmptyString (host rootRoute)) (routes m)) "/").
Proof.
  intros url rootRoute m Hm.
  destruct (getRouteDryMatch_shape url rootRoute m Hm) as (Hurl & Hlen & _).
  unfold getRouteDryMatch in Hm. cbv zeta in Hm.
  destruct (setRouteDryMatch_branch _ _ _ _ _ Hm) as (p & Hp & Hroutes & Hfor).
  cbn [app] in Hroutes. subst p.
  repeat split; try assumption. congruence.
Qed.

Lemma X16_dry_match_is_a_branch_witness :
  branch Sample.posts (routes Sample.trailingSlash)
  /\ splitedUrl Sample.trailingSlash = split "posts/" "/"
  /\ length (splitedRoute Sample.trailingSlash)
     = length (splitedUrl Sample.trailingSlash)
  /\ standsFor Sample.trailingSlash
       (split (pathAlong (default EmptyString (host Sample.posts))
                 (routes Sample.trailingSlash)) "/").
Proof.
  apply (X16_dry_match_is_a_branch "posts/" Sample.posts Sample.trailingSlash).
  vm_compute. left.
Defined.

(** ** The checks of [init] *)

Lemma includes_elem (ks : list string) (k : string) :
  includes ks k = true <-> k ∈ ks.
Proof.
  unfold includes. rewrite existsb_exists. split.
  - intros (x & Hin & Heq). apply String.eqb_eq in Heq. subst x.
    apply list_elem_of_In, Hin.
  - intros Hin. exists k.
    split; first [apply String.eqb_refl | apply list_elem_of_In, Hin].
Qed.

Lemma checkIncoming_ok (existing incoming : list string) :
  checkIncoming existing incoming = inr tt
  <-> NoDup incoming /\ forall k, k ∈ incoming -> k ∉ existing.
Proof.
  revert existing. induction incoming as [|k rest IH]; intros existing; simpl.
  - split; [intros _|reflexivity]. split; [constructor|].
    intros k Hk. apply elem_of_nil in Hk. contradiction.
  - destruct (includes existing k) eqn:E.
    + split; [discriminate|]. intros [_ Hfresh].
      apply includes_elem in E. exfalso. apply (Hfresh k); [left | exact E].
    + assert (Hk : k ∉ existing).
      { intros Hin. apply includes_elem in Hin. congruence. }
      rewrite IH, NoDup_cons. split.
      * intros [Hnd Hfresh]. split; [split; [|exact Hnd]|].
        -- intros Hin. apply (Hfresh k Hin), elem_of_app. right. left.
        -- intros x Hx Hex. apply elem_of_cons in Hx. destruct Hx as [->|Hx];
             [contradiction|].
           apply (Hfresh x Hx), elem_of_app. left. exact Hex.
      * intros [[Hnk Hnd] Hfresh]. split; [exact Hnd|].
        intros x Hx Hex. apply elem_of_app in Hex. destruct Hex as [Hex|Hex].
        -- apply (Hfresh x); [right; exact Hx | exact Hex].
        -- apply list_elem_of_singleton in Hex. subst x. contradiction.
Qed.

Lemma checkIncoming_error (incoming : list string) :
  forall (existing : list string) (e : ConfigError),
    checkIncoming existing incoming = inl e ->
    exists k, e = Error ("ApiMockModule detected duplicate route with path: '"
                         +:+ k +:+ "'")
              /\ exists i j, i < j
                   /\ (existing ++ incoming) !! i = Some k
                   /\ (existing ++ incoming) !! j = Some k
                   /\ length existing <= j.
Proof.
  induction incoming as [|k rest IH]; intros existing e; simpl; [discriminate|].
  destruct (includes existing k) eqn:E.
  - intros [= <-]. exists k. split; [reflexivity|].
    apply includes_elem, list_elem_of_lookup in E. destruct E as (i & Hi).
    pose proof (lookup_lt_Some _ _ _ Hi) as Hlt.
    exists i, (length existing). repeat split; [exact Hlt | | | lia].
    + rewrite lookup_app_l by exact Hlt. exact Hi.
    + rewrite lookup_app_r by lia. rewrite Nat.sub_diag. reflexivity.
  - intros H. destruct (IH _ _ H) as (k' & He & i & j & Hij & Hi & Hj & Hlen).
    rewrite <- app_assoc in Hi, Hj. rewrite length_app in Hlen. simpl in Hlen.
    exists k'. split; [exact He|]. exists i, j. repeat split; auto. lia.
Qed.

(** X17.  [checkRootDuplicates] accepts the root routes exactly when
    their keys (the host, then the path up to its first [':']) are
    pairwise distinct; what it throws otherwise names a key that two of
    the routes have. *)
Theorem X17_root_duplicates :
  forall routes : list ApiMockRoute,
    (checkRootDuplicates routes = inr tt
     <-> NoDup (map incomingRoute routes))
    /\ (forall e, checkRootDuplicates routes = inl e ->
          exists k i j,
            e = Error ("ApiMockModule detected duplicate route with path: '"
                       +:+ k +:+ "'")
            /\ i < j
            /\ incomingRoute <$> routes !! i = Some k
            /\ incomingRoute <$> routes !! j = Some k).
Proof.
  intros routes. unfold checkRootDuplicates. split.
  - rewrite checkIncoming_ok. split; [intros [H _]; exact H|].
    intros H. split; [exact H|]. intros k _ Hk.
    apply elem_of_nil in Hk. contradiction.
  - intros e He.
    destruct (checkIncoming_error _ _ _ He) as (k & -> & i & j & Hij & Hi & Hj & _).
    cbn [app] in Hi, Hj. rewrite list_lookup_fmap in Hi, Hj.
    exists k, i, j. auto.
Qed.

Lemma checkRoute_unfold (route : ApiMockRoute) (parentPath : option string) :
  exists e1 e2 e3 e4,
    checkRoute route parentPath =
    let childPath :=
      join " -> " (truthyStrings [parentPath; Some (path route)]) in
    if negb (isLastRoute route)
       && (negb (isDefined (dataCallback route)) || negb (pathWithPk (path route)))
    then inl e1
    else if (isDefined (dataCallback route) && negb (pathWithPk (path route)))
            || (pathWithPk (path route) && negb (isDefined (dataCallback route)))
    then inl e2
    else if nonEmpty (path route) && String.eqb (sliceLast (path route)) "/"
    then inl e3
    else if truthyId (host route)
            && String.eqb (sliceLast (default EmptyString (host route))) "/"
    then inl e4
    else if negb (isLastRoute route)
    then checkEach (Some childPath) (default [] (children route))
    else inr tt.
Proof.
  destruct route as [p dc pl rc ig cs h].
  do 4 eexists. cbn [checkRoute path host dataCallback children].
  cbv zeta.
  repeat match goal with
         | |- (if ?b then _ else _) = (if ?b then _ else _) =>
             destruct b; [reflexivity|]
         end.
  destruct (negb _); [|reflexivity].
  destruct cs as [cs|]; [|reflexivity]. cbn [default from_option id].
  induction cs as [|c cs IH]; [reflexivity|].
  cbn [checkEach]. destruct (checkRoute c _); [reflexivity | exact IH].
Qed.

Lemma sliceLast_empty : sliceLast EmptyString = EmptyString.
Proof. reflexivity. Qed.

Lemma checkEach_ok (parentPath : option string) (cs : list ApiMockRoute) :
  checkEach parentPath cs = inr tt
  <-> forall c, c ∈ cs -> checkRoute c parentPath = inr tt.
Proof.
  induction cs as [|c cs IH]; simpl.
  - split; [|reflexivity]. intros _ c Hc. apply elem_of_nil in Hc. contradiction.
  - destruct (checkRoute c parentPath) as [e|[]] eqn:E.
    + split; [discriminate|]. intros H. specialize (H c ltac:(left)). congruence.
    + rewrite IH. split.
      * intros H x Hx. apply elem_of_cons in Hx. destruct Hx as [->|Hx]; auto.
      * intros H x Hx. apply H. right. exact Hx.
Qed.

Lemma checkRoute_ok (route : ApiMockRoute) :
  forall parentPath : option string,
    checkRoute route parentPath = inr tt <-> treeChecked route.
Proof.
  induction route as [route IH] using route_tree_ind. intros parentPath.
  destruct (checkRoute_unfold route parentPath) as (e1 & e2 & e3 & e4 & ->).
  cbv zeta.
  assert (Hnode : forall rest : ConfigError + unit,
    (if negb (isLastRoute route)
        && (negb (isDefined (dataCallback route)) || negb (pathWithPk (path route)))
     then inl e1
     else if (isDefined (dataCallback route) && negb (pathWithPk (path route)))
             || (pathWithPk (path route) && negb (isDefined (dataCallback route)))
     then inl e2
     else if nonEmpty (path route) && String.eqb (sliceLast (path route)) "/"
     then inl e3
     else if truthyId (host route)
             && String.eqb (sliceLast (default EmptyString (host route))) "/"
     then inl e4
     else rest) = inr tt
    <-> nodeChecked route = true /\ rest = inr tt).
  { intros rest. unfold nodeChecked.
    destruct (isLastRoute route), (isDefined (dataCallback route)),
      (pathWithPk (path route)); cbn [negb andb orb Bool.eqb];
      try (split; [discriminate | intros [? _]; discriminate]).
    all: destruct (path route) as [|c p]; cbn [nonEmpty andb];
      rewrite ?sliceLast_empty;
      try change (String.eqb EmptyString "/") with false; cbn [negb andb].
    all: try (destruct (String.eqb (sliceLast (String c p)) "/");
              cbn [negb andb];
              [split; [discriminate | intros [? _]; discriminate]|]).
    all: destruct (host route) as [[|c' h]|]; cbn [truthyId nonEmpty andb default from_option id];
      rewrite ?sliceLast_empty;
      try change (String.eqb EmptyString "/") with false; cbn [negb andb].
    all: try (destruct (String.eqb (sliceLast (String c' h)) "/");
              cbn [negb andb];
              [split; [discriminate | intros [? _]; discriminate]|]).
    all: split; [intros ->; split; reflexivity | intros [_ ->]; reflexivity]. }
  rewrite Hnode. clear Hnode. split.
  - intros [Hn Hrest]. constructor; [exact Hn|].
    intros cs c Hcs Hc. specialize (IH cs Hcs). rewrite Forall_forall in IH.
    pose proof Hc as Hc'.
    assert (Hlast : isLastRoute route = false).
    { unfold isLastRoute. rewrite Hcs. destruct cs; [|reflexivity].
      apply elem_of_nil in Hc'. contradiction. }
    rewrite Hlast, Hcs in Hrest. cbn [negb default from_option id] in Hrest.
    rewrite checkEach_ok in Hrest. eapply IH; [exact Hc | apply Hrest, Hc'].
  - intros Ht. inversion Ht as [r Hn Hchildren]; subst r. split; [exact Hn|].
    destruct (isLastRoute route) eqn:Hlast; [reflexivity|].
    cbn [negb]. unfold isLastRoute in Hlast.
    destruct (children route) as [cs|] eqn:Hcs; [|discriminate Hlast].
    cbn [default from_option id]. apply checkEach_ok. intros c Hc.
    specialize (IH cs eq_refl). rewrite Forall_forall in IH.
    apply IH; [exact Hc | eapply Hchildren; eauto].
Qed.

(** X18.  [checkRoute] accepts a route exactly when every route of its
    tree is well formed: a route with children has a data callback; a
    route has a data callback exactly when its path is one or more literal
    segments of word characters and dashes followed by one [':']-token of
    word characters; no path and no host ends with a slash.  The path of
    the parent has no part in it, and a route accepted with its tree is
    accepted with each of its subtrees. *)
Theorem X18_checkRoute_accepts :
  forall (route : ApiMockRoute) (parentPath : option string),
    (checkRoute route parentPath = inr tt <-> treeChecked route)
    /\ (checkRoute route parentPath = inr tt ->
        nodeChecked route = true
        /\ forall cs c parentPath',
             children route = Some cs -> c ∈ cs ->
             checkRoute c parentPath' = inr tt).
Proof.
  intros route parentPath. split; [apply checkRoute_ok|].
  intros H. apply checkRoute_ok in H. inversion H as [r Hn Hchildren]; subst r.
  split; [exact Hn|]. intros cs c parentPath' Hcs Hc.
  apply checkRoute_ok. eapply Hchildren; eauto.
Qed.

(** ** Chains and the tree of routes *)

Lemma isWordOrDash_plain (c : ascii) :
  isWordOrDash c = true -> c <> "/"%char /\ c <> ":"%char.
Proof.
  intros H. split; intros ->; discriminate H.
Qed.

Lemma isWordChar_plain (c : ascii) :
  isWordChar c = true -> c <> "/"%char.
Proof. intros H ->. discriminate H. Qed.

Lemma split_word (s : string) :
  allChars isWordChar s = true -> split s "/" = [s].
Proof.
  induction s as [|c s IH]; [reflexivity|]. cbn [allChars].
  intros H. apply andb_true_iff in H. destruct H as [Hc Hs].
  rewrite split_cons_other by (apply isWordChar_plain, Hc).
  rewrite (IH Hs). reflexivity.
Qed.

(** The segments of a path the pattern accepts: literal segments, none
    of which is a token, then one token. *)
Lemma matchPathWithPk_split (s : string) :
  forall closed inSegment : bool,
    matchPathWithPk closed inSegment s = true ->
    exists lits name,
      split s "/" = lits ++ [String ":" name]
      /\ Forall (fun seg => isPrimaryKeyPart seg = false) lits
      /\ (inSegment = true -> lits <> []).
Proof.
  induction s as [|c s IH]; intros closed inSegment; cbn [matchPathWithPk];
    [discriminate|].
  destruct (isWordOrDash c) eqn:Hword.
  - intros H. destruct (IH _ _ H) as (lits & name & Hsplit & Hlits & Hne).
    destruct (isWordOrDash_plain c Hword) as [Hslash Hcolon].
    destruct lits as [|h lits]; [contradiction (Hne eq_refl); reflexivity|].
    exists (String c h :: lits), name.
    rewrite split_cons_other by exact Hslash. rewrite Hsplit.
    split; [reflexivity|]. split; [|discriminate].
    inversion Hlits; subst. constructor; [|assumption].
    apply isPrimaryKeyPart_other, Hcolon.
  - destruct (nat_of_ascii c =? 47)%nat eqn:H47.
    + apply Nat.eqb_eq in H47.
      assert (c = "/"%char) as ->.
      { rewrite <- (ascii_nat_embedding c), H47. reflexivity. }
      intros H. apply andb_true_iff in H. destruct H as [_ H].
      destruct (IH _ _ H) as (lits & name & Hsplit & Hlits & _).
      exists (EmptyString :: lits), name. rewrite split_cons_sep, Hsplit.
      split; [reflexivity|]. split; [|discriminate].
      constructor; [reflexivity | exact Hlits].
    + destruct (nat_of_ascii c =? 58)%nat eqn:H58; [|discriminate].
      apply Nat.eqb_eq in H58.
      assert (c = ":"%char) as ->.
      { rewrite <- (ascii_nat_embedding c), H58. reflexivity. }
      intros H. repeat (apply andb_true_iff in H; destruct H as [H ?]).
      exists [], s. rewrite split_cons_other by discriminate.
      rewrite split_word by assumption.
      split; [reflexivity|]. split; [constructor|].
      intros ->. discriminate.
Qed.

Lemma pathWithPk_segments (r : ApiMockRoute) :
  pathWithPk (path r) = true ->
  exists lits,
    split (path r) "/" = lits ++ [tokenOf r]
    /\ Forall (fun seg => isPrimaryKeyPart seg = false) lits
    /\ tokenOf r = ":" +:+ primaryKeyOf r
    /\ nonEmpty (path r) = true.
Proof.
  intros H. unfold pathWithPk in H.
  destruct (matchPathWithPk_split _ _ _ H) as (lits & name & Hsplit & Hlits & _).
  assert (Htok : tokenOf r = String ":" name).
  { unfold tokenOf. rewrite Hsplit, last_snoc. reflexivity. }
  exists lits. rewrite Htok. split; [exact Hsplit|]. split; [exact Hlits|]. split.
  - unfold primaryKeyOf, sliceFrom. rewrite Htok. cbn [substring String.length].
    change (":" +:+ ?x) with (String ":" x). f_equal. symmetry.
    apply substring_0_all. lia.
  - destruct (path r); [discriminate H | reflexivity].
Qed.

(** The routes of a branch of a checked tree are well formed, and all
    but the last have children. *)
Lemma treeChecked_branch (r : ApiMockRoute) (p : list ApiMockRoute) :
  branch r p -> treeChecked r ->
  Forall (fun x => nodeChecked x = true) p
  /\ Forall (fun x => isLastRoute x = false) (removelast p)
  /\ p <> [].
Proof.
  induction 1 as [r | r cs c p Hcs Hc Hbranch IH]; intros Ht;
    inversion Ht as [r' Hn Hchildren]; subst r'.
  - split; [repeat constructor; exact Hn|]. split; [constructor | discriminate].
  - destruct (IH (Hchildren cs c Hcs Hc)) as (Hall & Hinner & Hne).
    split; [constructor; assumption|]. split; [|discriminate].
    destruct p as [|x p]; [contradiction Hne; reflexivity|].
    change (removelast (r :: x :: p)) with (r :: removelast (x :: p)).
    constructor; [|exact Hinner].
    unfold isLastRoute. rewrite Hcs. destruct cs; [|reflexivity].
    apply elem_of_nil in Hc. contradiction.
Qed.

Lemma nodeChecked_pk (r : ApiMockRoute) :
  nodeChecked r = true -> isDefined (dataCallback r) = true ->
  pathWithPk (path r) = true.
Proof.
  unfold nodeChecked. intros H Hdc. rewrite Hdc in H.
  destruct (pathWithPk (path r)); [reflexivity|].
  destruct (isLastRoute r); discriminate H.
Qed.

Lemma nodeChecked_callback (r : ApiMockRoute) :
  nodeChecked r = true -> isLastRoute r = false ->
  isDefined (dataCallback r) = true.
Proof.
  unfold nodeChecked. intros H Hlast. rewrite Hlast in H.
  destruct (isDefined (dataCallback r)); [reflexivity | discriminate H].
Qed.

Lemma Forall_removelast_last {A : Type} (P : A -> Prop) (l : list A) :
  Forall P (removelast l) -> (forall z, last l = Some z -> P z) -> Forall P l.
Proof.
  induction l as [|a l IH]; intros Hinit Hlast; [constructor|].
  destruct l as [|b l].
  - constructor; [apply Hlast; reflexivity | constructor].
  - change (removelast (a :: b :: l)) with (a :: removelast (b :: l)) in Hinit.
    inversion Hinit; subst. constructor; [assumption|].
    apply IH; [assumption|]. intros z Hz. apply Hlast. exact Hz.
Qed.

(** The segments of the path accumulated at a route with a path. *)
Lemma accumulatedPath_segments (acc : string) (r : ApiMockRoute) :
  nonEmpty (path r) = true ->
  nonEmpty (accumulatedPath acc r) = true
  /\ split (accumulatedPath acc r) "/"
     = (if nonEmpty acc then split acc "/" else []) ++ split (path r) "/".
Proof.
  intros Hp. unfold accumulatedPath, truthyStrings. simpl. rewrite Hp.
  destruct acc as [|c acc]; simpl.
  - split; [exact Hp | reflexivity].
  - split; [reflexivity|]. apply (split_app_sep (String c acc) (path r)).
Qed.

Lemma pathAlong_segments (p : list ApiMockRoute) :
  Forall (fun r => nonEmpty (path r) = true) p ->
  forall acc : string,
    (if nonEmpty (pathAlong acc p) then split (pathAlong acc p) "/" else [])
    = (if nonEmpty acc then split acc "/" else [])
      ++ concat (map (fun r => split (path r) "/") p)
    /\ (p <> [] -> nonEmpty (pathAlong acc p) = true).
Proof.
  induction 1 as [|r p Hr _ IH]; intros acc.
  - cbn [pathAlong fold_left map concat]. rewrite app_nil_r.
    split; [reflexivity | congruence].
  - change (pathAlong acc (r :: p)) with (pathAlong (accumulatedPath acc r) p).
    destruct (accumulatedPath_segments acc r Hr) as [Hne Hsplit].
    destruct (IH (accumulatedPath acc r)) as [Hsegs Hnonempty].
    rewrite Hne, Hsplit in Hsegs. split.
    + rewrite Hsegs. cbn [map concat]. rewrite <- app_assoc. reflexivity.
    + intros _. destruct p as [|x p]; [exact Hne | apply Hnonempty; discriminate].
Qed.

Lemma filter_none {A : Type} (f : A -> bool) (l : list A) :
  Forall (fun x => f x = false) l -> List.filter f l = [].
Proof.
  induction 1 as [|x l Hx _ IH]; [reflexivity|]. simpl. rewrite Hx. exact IH.
Qed.

Lemma tokenOf_token (r : ApiMockRoute) :
  pathWithPk (path r) = true -> isPrimaryKeyPart (tokenOf r) = true.
Proof.
  intros H. destruct (pathWithPk_segments r H) as (_ & _ & _ & Htok & _).
  rewrite Htok. apply isPrimaryKeyPart_cons. reflexivity.
Qed.

(** The tokens among the segments of the paths of routes that end with a
    primary key: one for each route, in their order. *)
Lemma tokens_of_routes (p : list ApiMockRoute) :
  Forall (fun r => pathWithPk (path r) = true) p ->
  List.filter isPrimaryKeyPart (concat (map (fun r => split (path r) "/") p))
  = map tokenOf p.
Proof.
  induction 1 as [|r p Hr _ IH]; [reflexivity|].
  cbn [map concat]. rewrite List.filter_app, IH.
  destruct (pathWithPk_segments r Hr) as (lits & Hsplit & Hlits & _ & _).
  rewrite Hsplit, List.filter_app, (filter_none _ _ Hlits). simpl.
  rewrite (tokenOf_token r Hr). reflexivity.
Qed.

Lemma filter_positions {A : Type} (f : A -> bool) (l : list A) :
  forall h : nat -> nat,
    map snd (List.filter (fun ip => f (snd ip)) (imap (fun i x => (h i, x)) l))
    = List.filter f l.
Proof.
  induction l as [|x l IH]; intros h; [reflexivity|].
  cbn [imap List.filter snd]. destruct (f x); cbn [map snd];
    rewrite <- (IH (h ∘ S)); reflexivity.
Qed.

Lemma tokenParts_tokens (m : RouteDryMatch) :
  map snd (tokenParts m) = List.filter isPrimaryKeyPart (splitedRoute m).
Proof. unfold tokenParts, positioned. apply (filter_positions _ _ id). Qed.

(** The links of tokens that are the tokens of consecutive routes of the
    match are the links of these routes. *)
Lemma links_align (bind : option string -> option string) (m : RouteDryMatch)
    (l : list ApiMockRoute) :
  forall (tp : list (nat * string)) (pre post : list ApiMockRoute),
    routes m = pre ++ l ++ post ->
    map snd tp = map tokenOf l ->
    map (fun cp => (route cp, primaryKey cp))
      (imap (fun k => tokenLink bind m (length pre + k)) tp)
    = map (fun r => (Some r, primaryKeyOf r)) l.
Proof.
  induction l as [|r l IH]; intros tp pre post Hroutes Htp.
  - destruct tp; [reflexivity | discriminate Htp].
  - destruct tp as [|ip tp]; [discriminate Htp|].
    cbn [map] in Htp. injection Htp as Hip Htp.
    cbn [imap map]. f_equal.
    + unfold tokenLink. cbn [route primaryKey]. rewrite Hroutes, Nat.add_0_r.
      change (pre ++ (r :: l) ++ post) with (pre ++ r :: (l ++ post)).
      rewrite list_lookup_middle by reflexivity.
      unfold primaryKeyOf. rewrite Hip. reflexivity.
    + rewrite <- (IH tp (pre ++ [r]) post);
        [|rewrite Hroutes, <- app_assoc; reflexivity | exact Htp].
      f_equal. apply imap_ext. intros k x _. unfold compose.
      rewrite length_app. cbn [length]. f_equal. lia.
Qed.

Lemma Forall2_of_maps {A B C : Type} (f : A -> C) (g : B -> C)
    (Q : B -> Prop) (R : A -> B -> Prop) (l : list A) (k : list B) :
  map f l = map g k -> Forall Q k ->
  (forall a b, f a = g b -> Q b -> R a b) ->
  Forall2 R l k.
Proof.
  intros Hmap HQ HR. revert l Hmap.
  induction HQ as [|b k Hb _ IH]; intros [|a l] Hmap;
    try discriminate Hmap; [constructor|].
  cbn [map] in Hmap. injection Hmap as Hab Hmap.
  constructor; [apply HR; assumption | apply IH, Hmap].
Qed.

(** The segments of the path joined along a branch whose routes all end
    with a primary key: the segments before the last token, and that
    token, the one of the last route. *)
Lemma branch_segments (hostPath : string) (front : list ApiMockRoute)
    (z : ApiMockRoute) :
  Forall (fun seg => isPrimaryKeyPart seg = false) (split hostPath "/") ->
  Forall (fun r => pathWithPk (path r) = true) (front ++ [z]) ->
  exists before,
    split (pathAlong hostPath (front ++ [z])) "/" = before ++ [tokenOf z]
    /\ List.filter isPrimaryKeyPart before = map tokenOf front.
Proof.
  intros Hhost Hpk.
  assert (Hpaths : Forall (fun r => nonEmpty (path r) = true) (front ++ [z])).
  { eapply Forall_impl; [exact Hpk|]. intros r Hr.
    destruct (pathWithPk_segments r Hr) as (_ & _ & _ & _ & Hne). exact Hne. }
  destruct (pathAlong_segments _ Hpaths hostPath) as [Hsegs Hne].
  rewrite Hne in Hsegs by (destruct front; discriminate).
  apply Forall_app in Hpk. destruct Hpk as [Hfront Hz].
  inversion Hz as [|z' l' Hzpk _]; subst.
  destruct (pathWithPk_segments z Hzpk) as (lits & Hsplit & Hlits & _ & _).
  exists ((if nonEmpty hostPath then split hostPath "/" else [])
          ++ concat (map (fun r => split (path r) "/") front) ++ lits).
  split.
  - rewrite Hsegs, map_app, concat_app. cbn [map concat].
    rewrite app_nil_r, Hsplit, <- !app_assoc. reflexivity.
  - rewrite !List.filter_app, (tokens_of_routes front Hfront),
      (filter_none _ _ Hlits), app_nil_r.
    rewrite filter_none; [reflexivity|].
    destruct (nonEmpty hostPath); [exact Hhost | constructor].
Qed.

(** X19.  In a checked tree the chain follows the branch.  When
    [checkRoute] has accepted the root route, its host holds no token,
    and the last route of a dry match has a data callback, the chain of
    the match has one link for each route of the match, in their order:
    the link carries that route, the route has a data callback, and the
    primary key of the link is the one the path of the route ends
    with. *)
Theorem X19_chain_follows_branch :
  forall (url : string) (rootRoute : ApiMockRoute) (m : RouteDryMatch)
         (chain : list ChainParam),
    checkRoute rootRoute None = inr tt ->
    Forall (fun seg => isPrimaryKeyPart seg = false)
      (split (default EmptyString (host rootRoute)) "/") ->
    m ∈ getRouteDryMatch url rootRoute ->
    getChainParams m = Some chain ->
    (forall z, last (routes m) = Some z -> isDefined (dataCallback z) = true) ->
    Forall2 linkOf chain (routes m).
Proof.
  intros url rootRoute m chain Hcheck Hhost Hm Hchain Hlast.
  apply checkRoute_ok in Hcheck.
  unfold getRouteDryMatch in Hm. cbv zeta in Hm.
  destruct (setRouteDryMatch_branch _ _ _ _ _ Hm) as (p & Hbranch & Hroutes & Hfor).
  cbn [app] in Hroutes. rewrite <- Hroutes in Hbranch, Hfor. clear p Hroutes.
  destruct (treeChecked_branch _ _ Hbranch Hcheck) as (Hnodes & Hinner & Hne).
  assert (Hcallbacks : Forall (fun r => isDefined (dataCallback r) = true)
                         (routes m)).
  { apply Forall_removelast_last; [|exact Hlast].
    apply Forall_forall. intros r Hr.
    rewrite Forall_forall in Hinner, Hnodes.
    apply nodeChecked_callback; [|apply Hinner, Hr].
    apply Hnodes. clear -Hr. induction (routes m) as [|a l IH];
      [apply elem_of_nil in Hr; contradiction|].
    destruct l as [|b l]; [apply elem_of_nil in Hr; contradiction|].
    change (removelast (a :: b :: l)) with (a :: removelast (b :: l)) in Hr.
    apply elem_of_cons in Hr. destruct Hr as [->|Hr]; [left | right; auto]. }
  assert (Hpk : Forall (fun r => pathWithPk (path r) = true) (routes m)).
  { rewrite Forall_forall in Hnodes, Hcallbacks |- *. intros r Hr.
    apply nodeChecked_pk; auto. }
  rewrite getChainParams_spec in Hchain.
  destruct (String.eqb _ _); [injection Hchain as <- | discriminate Hchain].
  destruct (exists_last Hne) as (front & z & Hsnoc).
  rewrite Hsnoc in Hpk.
  destruct (branch_segments _ front z Hhost Hpk) as (before & Hfull & Htokens).
  rewrite <- Hsnoc in Hfull, Hpk.
  assert (Hz : isPrimaryKeyPart (tokenOf z) = true).
  { apply tokenOf_token. rewrite Hsnoc in Hpk. apply Forall_app in Hpk.
    destruct Hpk as [_ Hpk]. inversion Hpk; assumption. }
  assert (Hmaps : map (fun cp => (route cp, primaryKey cp)) (chainOf m)
                  = map (fun r => (Some r, primaryKeyOf r)) (routes m)).
  { unfold chainOf, chainWith. rewrite Hfull in Hfor. unfold standsFor in Hfor.
    rewrite last_snoc in Hfor. cbn [default from_option id] in Hfor.
    rewrite removelast_last in Hfor.
    destruct Hfor as [[Hsr Hid] | (Hsr & Hid & _ & Hkey)]; rewrite Hid.
    - rewrite Hz, app_nil_r.
      apply (links_align boundId m (routes m) (tokenParts m) [] []).
      + rewrite app_nil_r. reflexivity.
      + rewrite tokenParts_tokens, Hsr, List.filter_app, Htokens. simpl.
        rewrite Hz, Hsnoc, map_app. reflexivity.
    - rewrite map_app, Hsnoc, map_app. f_equal.
      + apply (links_align boundId m front (tokenParts m) [] [z]).
        * rewrite Hsnoc. reflexivity.
        * rewrite tokenParts_tokens, Hsr. exact Htokens.
      + cbn [map finalLink route primaryKey]. rewrite Hsnoc, last_snoc, Hkey.
        reflexivity. }
  eapply (Forall2_of_maps _ _
            (fun r => isDefined (dataCallback r) = true
                      /\ pathWithPk (path r) = true));
    [exact Hmaps | |].
  - rewrite Forall_forall in Hcallbacks, Hpk |- *. auto.
  - intros cp r [= Hroute Hkey] [Hdc Hr]. unfold linkOf.
    split; [exact Hroute|]. split; [exact Hdc|].
    destruct (pathWithPk_segments r Hr) as (lits & Hsplit & _ & Htok & _).
    rewrite Hsplit, last_snoc, Htok, Hkey. reflexivity.
Qed.

Lemma X19_chain_follows_branch_witness :
  Forall2 linkOf (default [] (getChainParams Sample.commentsMatch))
    (routes Sample.commentsMatch).
Proof.
  refine (X19_chain_follows_branch "posts/0/comments/5" Sample.postsWithComments
            Sample.commentsMatch _ _ _ _ _ _).
  - vm_compute. reflexivity.
  - repeat constructor.
  - vm_compute. left.
  - vm_compute. reflexivity.
  - intros z Hz. vm_compute in Hz. injection Hz as <-. reflexivity.
Defined.

(** ** Requests that cannot fail *)








(** ** [init] *)

Lemma checkRoutes_ok (routes : list ApiMockRoute) :
  checkRoutes routes = inr tt <-> Forall treeChecked routes.
Proof.
  induction routes as [|r routes IH]; simpl.
  - split; [constructor | reflexivity].
  - destruct (checkRoute r None) as [e|[]] eqn:E.
    + split; [discriminate|]. intros H. inversion H as [|r' l' Hr _]; subst.
      apply (checkRoute_ok r None) in Hr. congruence.
    + rewrite IH. split.
      * intros H. constructor; [apply (checkRoute_ok r None), E | exact H].
      * intros H. inversion H; assumption.
Qed.

Lemma insertByLength_perm (x : PartialRoute) (l : list PartialRoute) :
  insertByLength x l ≡ₚ x :: l.
Proof.
  induction l as [|y l IH]; simpl; [reflexivity|].
  destruct (pr_length y <=? pr_length x)%nat; [reflexivity|].
  rewrite IH. apply Permutation_swap.
Qed.

Lemma sortByLengthDesc_perm (l : list PartialRoute) : sortByLengthDesc l ≡ₚ l.
Proof.
  induction l as [|x l IH]; simpl; [reflexivity|].
  rewrite insertByLength_perm, IH. reflexivity.
Qed.

Lemma imap_indexes (routes : list ApiMockRoute) :
  forall n : nat,
    map pr_index (imap (fun i => toPartialRoute (n + i)) routes)
    = seq n (length routes).
Proof.
  induction routes as [|r routes IH]; intros n; [reflexivity|].
  cbn [imap map length seq]. f_equal; [cbn; lia|].
  rewrite <- (IH (S n)). f_equal. apply imap_ext. intros i x _.
  unfold compose. f_equal. lia.
Qed.

Lemma checkRootDuplicates_ok (routes : list ApiMockRoute) :
  checkRootDuplicates routes = inr tt <-> NoDup (map incomingRoute routes).
Proof.
  unfold checkRootDuplicates. rewrite checkIncoming_ok. split.
  - intros [H _]. exact H.
  - intros H. split; [exact H|]. intros k _ Hk. apply elem_of_nil in Hk.
    contradiction.
Qed.

(** X21.  [init] succeeds exactly on checked routes with distinct root
    keys.  It returns (rather than throws) exactly when [checkRoute]
    accepts the tree of every route and the keys of the root routes are
    pairwise distinct; it then keeps the routes as they are and sets
    [rootRoutes] to their root paths, the longer first, in which every
    route has exactly one entry, under its index. *)
Theorem X21_init_succeeds :
  forall routes : list ApiMockRoute,
    ((exists result, init routes = inr result)
     <-> Forall treeChecked routes /\ NoDup (map incomingRoute routes))
    /\ (forall result, init routes = inr result ->
          result = (routes, getRootPaths routes)
          /\ StronglySorted longerFirst (snd result)
          /\ map pr_index (snd result) ≡ₚ seq 0 (length routes)).
Proof.
  intros routes. unfold init.
  pose proof (checkRoutes_ok routes) as Hroutes.
  pose proof (checkRootDuplicates_ok routes) as Hroot.
  destruct (checkRoutes routes) as [e|[]].
  { split; [|discriminate]. split; [intros [result [=]]|].
    intros [H _]. apply Hroutes in H. discriminate H. }
  destruct (checkRootDuplicates routes) as [e|[]].
  { split; [|discriminate]. split; [intros [result [=]]|].
    intros [_ H]. apply Hroot in H. discriminate H. }
  split.
  - split; [intros _ | intros _; eexists; reflexivity].
    split; [apply Hroutes | apply Hroot]; reflexivity.
  - intros result [= <-]. split; [reflexivity|]. cbn [snd]. split.
    + apply getRootPaths_sorted.
    + unfold getRootPaths. rewrite sortByLengthDesc_perm.
      rewrite <- (imap_indexes routes 0). reflexivity.
Qed.

(** ** The local storage *)

(** X22.  What [setToLocalStorage] writes, [applyDataFromLocalStorage]
    restores.  Neither of them ever throws.  For a collection that is
    cached as an array, with a local storage that parses, the first
    stores the clone of the collection under its cache key and leaves the
    cache alone; from that local storage the second sets, in any cache,
    the entry of the link to that clone with its read-only views
    rebuilt. *)
Theorem X22_local_storage_round_trip :
  forall (cp : ChainParam) (r : ApiMockRoute) (data readonly : list ObjectAny)
         (st : Store),
    route cp = Some r ->
    cachedData st !! cacheKey cp
    = Some {| writeableData := WArray data; readonlyData := readonly |} ->
    localStorage st <> LsInvalid ->
    (forall key st0, exists st', setToLocalStorage key st0 = (st', inr tt))
    /\ (forall link st0, exists st', applyDataFromLocalStorage link st0 = (st', inr tt))
    /\ exists d,
         setToLocalStorage (cacheKey cp) st
         = ({| cachedData := cachedData st; localStorage := LsCache d |}, inr tt)
         /\ d !! cacheKey cp = Some (map cloneObject data)
         /\ forall reloaded,
              localStorage reloaded = LsCache d ->
              applyDataFromLocalStorage cp reloaded
              = ({| cachedData := <[cacheKey cp := cacheEntry r (map cloneObject data)]>
                                    (cachedData reloaded);
                    localStorage := LsCache d |}, inr tt).
Proof.
  intros cp r data readonly st Hr Hcached Hvalid.
  split; [|split].
  - intros key st0. destruct (setToLocalStorage_cache key st0) as (ls & ->).
    eexists. reflexivity.
  - intros link [cd ls].
    unfold applyDataFromLocalStorage, tryCatch, bind, getStore, setLocalStorage,
      raise, ret. cbn [localStorage cachedData].
    destruct ls as [| |d]; [eauto | eauto |].
    destruct (d !! cacheKey link) as [l|]; [|eauto].
    unfold setCachedData at 1. cbn [cachedData localStorage].
    destruct (bindReadonlyData link (WArray l) _) as [st' [e|[]]]; eauto.
  - exists (<[cacheKey cp := map cloneObject data]>
              (match localStorage st with LsCache d => d | _ => ∅ end)).
    split; [|split].
    + destruct st as [cd ls]. cbn [localStorage cachedData] in *.
      unfold setToLocalStorage, tryCatch, bind, getStore, setLocalStorage.
      cbn [localStorage cachedData]. rewrite Hcached.
      destruct ls as [| |d]; [reflexivity | contradiction Hvalid; reflexivity
                             | reflexivity].
    + apply lookup_insert_eq.
    + intros [cd ls] Hls. cbn [localStorage] in Hls. subst ls.
      unfold applyDataFromLocalStorage, tryCatch. unfold bind at 1, getStore at 1.
      cbn [localStorage]. rewrite lookup_insert_eq.
      unfold bind at 1, setCachedData at 1. cbn [cachedData localStorage].
      unfold bindReadonlyData. unfold bind at 1, liftR at 1, routeOf. rewrite Hr.
      unfold bind at 1, liftR at 1. cbn [asArray].
      unfold bind at 1, getStore at 1. cbn [cachedData].
      rewrite lookup_insert_eq. unfold setCachedData.
      cbn [cachedData localStorage]. rewrite insert_insert_eq. reflexivity.
Qed.

Lemma X22_local_storage_round_trip_witness :
  exists d,
    setToLocalStorage "posts" Sample.articleCached
    = ({| cachedData := cachedData Sample.articleCached;
          localStorage := LsCache d |}, inr tt)
    /\ d !! "posts" = Some (map cloneObject [Sample.article])
    /\ forall reloaded,
         localStorage reloaded = LsCache d ->
         applyDataFromLocalStorage (Sample.postsLink None) reloaded
         = ({| cachedData := <["posts" := cacheEntry Sample.postsWithComments
                                           (map cloneObject [Sample.article])]>
                               (cachedData reloaded);
               localStorage := LsCache d |}, inr tt).
Proof.
  refine (proj2 (proj2 (X22_local_storage_round_trip (Sample.postsLink None)
                          Sample.postsWithComments [Sample.article] []
                          Sample.articleCached eq_refl _ _))).
  - vm_compute. reflexivity.
  - discriminate.
Defined.

(** ** Updating twice *)








(** ** The cache and the local storage *)



(** X25.  The local storage wins over the cache.  With
    [cacheFromLocalStorage] on, for a link whose route does not ignore the
    local storage, when the local storage holds a collection under the
    cache key, [cacheDataWithGetMethod] returns that collection with its
    read-only views rebuilt, and caches it, whatever the cache held
    before; the data callback is not consulted. *)
Theorem X25_local_storage_wins :
  forall (config : ApiMockConfig) (cp : ChainParam) (r : ApiMockRoute)
         (parents : option (list ObjectAny)) (queryParams : option ObjectAny)
         (body : option ObjectAny) (headers : HttpHeaders) (st : Store)
         (d : gmap string (list ObjectAny)) (stored : list ObjectAny),
    cacheFromLocalStorage config = true ->
    route cp = Some r ->
    ignoreDataFromLocalStorage r = false ->
    localStorage st = LsCache d ->
    d !! cacheKey cp = Some stored ->
    cacheDataWithGetMethod config cp parents queryParams body headers st
    = ({| cachedData := <[cacheKey cp := cacheEntry r stored]> (cachedData st);
          localStorage := LsCache d |},
       inr (cacheEntry r stored)).
Proof.
  intros config cp r parents queryParams body headers [cd ls] d stored
         Hcfg Hr Hignore Hls Hstored.
  cbn [localStorage] in Hls. subst ls.
  unfold cacheDataWithGetMethod. rewrite Hcfg. unfold bind at 1.
  unfold bind at 1, liftR at 1, routeOf. rewrite Hr, Hignore. cbn [negb when].
  unfold applyDataFromLocalStorage, tryCatch. unfold bind at 1, getStore at 1.
  cbn [localStorage]. rewrite Hstored.
  unfold bind at 1, setCachedData at 1. cbn [cachedData localStorage].
  unfold bindReadonlyData. unfold bind at 1, liftR at 1, routeOf. rewrite Hr.
  unfold bind at 1, liftR at 1. cbn [asArray].
  unfold bind at 1, getStore at 1. cbn [cachedData].
  rewrite lookup_insert_eq. unfold setCachedData.
  cbn [cachedData localStorage]. rewrite insert_insert_eq.
  unfold bind, getStore, ret. cbn [cachedData]. rewrite lookup_insert_eq.
  reflexivity.
Qed.

Lemma X25_local_storage_wins_witness :
  cacheDataWithGetMethod Sample.persistent (Sample.postsLink None)
    None None None []
    {| cachedData := cachedData Sample.articleCached;
       localStorage := LsCache {[ "posts" := Sample.zeroth ]} |}
  = ({| cachedData := <["posts" := cacheEntry Sample.postsWithComments Sample.zeroth]>
                        (cachedData Sample.articleCached);
        localStorage := LsCache {[ "posts" := Sample.zeroth ]} |},
     inr (cacheEntry Sample.postsWithComments Sample.zeroth)).
Proof.
  refine (X25_local_storage_wins Sample.persistent (Sample.postsLink None)
            Sample.postsWithComments None None None []
            {| cachedData := cachedData Sample.articleCached;
               localStorage := LsCache {[ "posts" := Sample.zeroth ]} |}
            {[ "posts" := Sample.zeroth ]} Sample.zeroth
            eq_refl eq_refl eq_refl eq_refl _).
  vm_compute. reflexivity.
Defined.
